(** * STORYBOARD: the generation pipeline and the audio player

    A shallow embedding of [src/types.ts] and [src/services/geminiService.ts].

    - The module is taken as loaded: the check of [process.env.API_KEY] at its
      top (lines 5-8) has passed.
    - The remote generative service is an oracle ([Remote]): nothing is assumed
      about what it answers, and every call may be rejected.
    - The builtins [JSON.parse] and [atob] are parameters of the development.
      [JSON.parse] is taken together with the annotation of line 87, at the
      declared type; numbers are integers, as the response schema asks.
    - The text that a template literal gives for a number of the response
      ([Number::toString]) is a parameter too, [numberToString]: on the
      platform it is the decimal digits of an integer up to 2^53, the
      shortest digits that read back as the same number beyond, and an
      exponent form from 10^21 on.  Nothing is assumed of it except where a
      theorem says so ([NumberPrinting]).  The counters of the code itself,
      which count clips, are printed in decimal.
    - [generateStoryboard] runs in a small state-and-error monad whose state
      holds the observable trace (progress callbacks, requests issued, console
      output) and the loop counter [clipCount].  The progress callback is the
      caller's; it is taken not to throw.
    - The player is a state machine over the two module variables
      [audioContext] and [currentSource], a heap of source nodes, the queue of
      the calls of [playAudio] suspended at their [await], and the log of what
      the platform and the caller observe.  The typed arrays and the Web Audio
      nodes behave as their standards say; the construction of the
      [AudioContext] is taken to succeed. *)

From Stdlib Require Import Strings.Byte Ascii ZArith QArith Lia.
From stdpp Require Import base list strings pretty.

Set Default Proof Using "Type".
Open Scope string_scope.
Open Scope list_scope.

(** ** Characters that cannot be written inside a literal *)

Definition dquote : string := String (ascii_of_nat 34) EmptyString.
Definition newline : string := String (ascii_of_nat 10) EmptyString.

(** ** src/types.ts *)

Inductive StyleTheme := Real | Style2D | Style3D.
Inductive AspectRatio := Ratio9x16 | Ratio16x9.

(** The literal a [StyleTheme] denotes. *)
Definition styleText (s : StyleTheme) : string :=
  match s with
  | Real => "Real"
  | Style2D => "Style 2D"
  | Style3D => "Style 3D"
  end.

(** Of the browser's [File] only [type] is read. *)
Record File := { type : string }.

Record CharacterImage := {
  file : File;
  base64 : string;
}.

Record FormData := {
  title : string;
  description : string;
  style : StyleTheme;
  aspectRatio : AspectRatio;
  character1 : option CharacterImage;
  character2 : option CharacterImage;
}.

Record Clip := {
  clip : Z;
  narration : string;
  prompt : string;
  image : string;
  audio : string;
}.

Record Scene := {
  scene : Z;
  clips : list Clip;
}.

Definition Storyboard := list Scene.

(** The text-only skeleton; the module only keeps the field names apart from
    those of [Clip] and [Scene]. *)
Module Structure.

Record StoryboardStructureClip := {
  clip : Z;
  narration : string;
  prompt : string;
}.

Record StoryboardStructureScene := {
  scene : Z;
  clips : list StoryboardStructureClip;
}.

Definition StoryboardStructure := list StoryboardStructureScene.

End Structure.

Abbreviation StoryboardStructureClip := Structure.StoryboardStructureClip.
Abbreviation StoryboardStructureScene := Structure.StoryboardStructureScene.
Abbreviation StoryboardStructure := Structure.StoryboardStructure.

(** ** The part of the SDK's response type that the code reads

    Every field is optional in [@google/genai], which is why the source walks
    it with optional chaining. *)

Record Blob := {
  data : option string;
  mimeType : option string;
}.

Record Part := {
  inlineData : option Blob;
  text : option string;
}.

Record Content := { parts : option (list Part) }.
Record Candidate := { content : option Content }.
Record GenerateContentResponse := { candidates : option (list Candidate) }.

(** geminiService.ts, lines 10-17. *)
Definition fileToGenerativePart (base64 mimeType : string) : Part :=
  {| inlineData := Some {| data := Some base64; mimeType := Some mimeType |};
     text := None |}.

(** The request part [{ text: ... }]. *)
Definition textPart (t : string) : Part :=
  {| inlineData := None; text := Some t |}.

(** geminiService.ts, lines 129-136.  [candidates?.[0]?.content?.parts ?? []]
    is the empty list as soon as one link of the chain is missing. *)
Definition firstCandidateParts (response : GenerateContentResponse) : list Part :=
  match candidates response with
  | Some (c :: _) =>
      match content c with
      | Some ct =>
          match parts ct with
          | Some ps => ps
          | None => []
          end
      | None => []
      end
  | _ => []
  end.

Fixpoint firstInline (ps : list Part) : option string :=
  match ps with
  | [] => None
  | part :: rest =>
      match inlineData part with
      | Some blob => data blob
      | None => firstInline rest
      end
  end.

Definition findInlineData (response : GenerateContentResponse) : option string :=
  firstInline (firstCandidateParts response).

(** JavaScript's [!x] on a [string | undefined]: true for [undefined] and for
    the empty string. *)
Definition falsy (x : option string) : bool :=
  match x with
  | None => true
  | Some EmptyString => true
  | Some (String _ _) => false
  end.

(** The string behind a value that the guard of line 141 has let through. *)
Definition narrowed (x : option string) : string :=
  match x with
  | Some s => s
  | None => EmptyString
  end.

(** ** The remote service and the trace *)

Inductive Reply (A : Type) :=
| Rejected (reason : string)
| Resolved (a : A).
Arguments Rejected {A} reason.
Arguments Resolved {A} a.

(** [structureReply contents] is the outcome of the gemini-2.5-pro call, the
    resolved value being [response.text] (undefined when the response carries
    no text).  [mediaReply n imageParts narration] is the outcome of
    [Promise.all] over the image and the audio call of the [n]-th clip
    iteration, counted from 1. *)
Record Remote := {
  structureReply : string -> Reply (option string);
  mediaReply : nat -> list Part -> string ->
               Reply (GenerateContentResponse * GenerateContentResponse);
}.

Inductive Event :=
| Progress (message : string)
| StructureRequest (contents : string)
| ImageRequest (imageParts : list Part)
| AudioRequest (narrationText : string)
| ConsoleError (label : string) (response : GenerateContentResponse).

Inductive Error :=
| RemoteFailure (reason : string)
| SyntaxError
| ClipError (message : string).

Record Run := {
  events : list Event;
  clipCount : nat;
}.

(** Code that reads and writes a state [S] and may throw an [E]. *)
Definition Eff (S E A : Type) : Type := S -> S * (E + A).

Definition ret {S E A} (a : A) : Eff S E A := fun s => (s, inr a).
Definition throw {S E A} (e : E) : Eff S E A := fun s => (s, inl e).
Definition bind {S E A B} (m : Eff S E A) (k : A -> Eff S E B) : Eff S E B :=
  fun s =>
    match m s with
    | (s', inl e) => (s', inl e)
    | (s', inr a) => k a s'
    end.

Notation "'let*' x ':=' m 'in' k" := (bind m (fun x => k))
  (at level 10, x name, m at level 100, k at level 200).
Notation "m ';;' k" := (bind m (fun _ => k))
  (at level 100, k at level 200, right associativity).

Definition M : Type -> Type := Eff Run Error.

Definition emit (e : Event) : M unit :=
  fun s => ({| events := (events s ++ [e]); clipCount := clipCount s |}, inr tt).

Definition onProgress (message : string) : M unit := emit (Progress message).

(** [++clipCount]: increments the counter and yields the new value. *)
Definition preIncrClipCount : M nat :=
  fun s => ({| events := events s; clipCount := S (clipCount s) |},
            inr (S (clipCount s))).

Definition setClipCount (n : nat) : M unit :=
  fun s => ({| events := events s; clipCount := n |}, inr tt).

Definition await {A} (r : Reply A) : M A :=
  match r with
  | Rejected reason => throw (RemoteFailure reason)
  | Resolved a => ret a
  end.

(** ** geminiService.ts, lines 30-158: [generateStoryboard] *)

Definition orientation (r : AspectRatio) : string :=
  match r with
  | Ratio9x16 => "portrait"
  | Ratio16x9 => "landscape"
  end.

(** Lines 36-55, the template literal, line by line. *)
Definition storyPrompt (formData : FormData) : string :=
  newline
  +:+ "    You are an expert storyboard writer and AI prompt engineer for video creation." +:+ newline
  +:+ "    Based on the following story details, create a complete storyboard." +:+ newline
  +:+ newline
  +:+ "    Story Title: " +:+ dquote +:+ title formData +:+ dquote +:+ newline
  +:+ "    Description: " +:+ dquote +:+ description formData +:+ dquote +:+ newline
  +:+ "    Style: " +:+ dquote +:+ styleText (style formData) +:+ dquote +:+ newline
  +:+ newline
  +:+ "    Characters:" +:+ newline
  +:+ "    - Character 1: The main protagonist, based on the first uploaded image." +:+ newline
  +:+ "    - Character 2: The secondary protagonist, based on the second uploaded image (if provided)." +:+ newline
  +:+ newline
  +:+ "    Your task is to generate a JSON object representing a 4-scene storyboard." +:+ newline
  +:+ "    - Each scene must have 3 clips." +:+ newline
  +:+ "    - For each clip, you must provide:" +:+ newline
  +:+ "      1. a short, one-sentence narration in Indonesian." +:+ newline
  +:+ "      2. a detailed, descriptive image generation prompt in English for a "
  +:+ orientation (aspectRatio formData)
  +:+ " aspect ratio. This prompt must describe the camera shot (e.g., cinematic wide shot, close-up, over-the-shoulder), the characters' actions, the environment, and the lighting. Describe characters naturally based on the reference images (e.g., "
  +:+ dquote +:+ "a woman with long silver hair," +:+ dquote +:+ " "
  +:+ dquote +:+ "a man in a dark coat" +:+ dquote
  +:+ "). Do not use generic placeholders like "
  +:+ dquote +:+ "[CHARACTER_1]" +:+ dquote
  +:+ ". The prompt must be consistent with the requested style: "
  +:+ dquote +:+ styleText (style formData) +:+ dquote +:+ "." +:+ newline
  +:+ newline
  +:+ "    The story must be coherent and follow a logical progression. Ensure the characters remain consistent throughout the story." +:+ newline
  +:+ "    ".

(** Lines 101-109. *)
Definition characterPart (c : option CharacterImage) : list Part :=
  match c with
  | Some img => [fileToGenerativePart (base64 img) (type (file img))]
  | None => []
  end.

Definition imagePrompt (clip : StoryboardStructureClip) : string :=
  "Using the provided reference images for the characters, generate an image for the following prompt: "
  +:+ Structure.prompt clip.

Definition imageParts (formData : FormData) (clip : StoryboardStructureClip)
  : list Part :=
  (characterPart (character1 formData) ++ characterPart (character2 formData)
   ++ [textPart (imagePrompt clip)]).

(** Line 98.  [scene.scene] and [clip.clip] are numbers of the response;
    [clipCount] and [totalClips] count clips. *)
Definition clipProgress (numberToString : Z -> string)
    (sceneNo clipNo : Z) (count total : nat) : string :=
  "Membuat visual & audio untuk adegan " +:+ numberToString sceneNo
  +:+ ", klip " +:+ numberToString clipNo
  +:+ "... (" +:+ pretty count +:+ "/" +:+ pretty total +:+ ")".

(** Line 144. *)
Definition clipFailure (numberToString : Z -> string) (clipNo sceneNo : Z)
  : string :=
  "Gagal membuat konten untuk klip " +:+ numberToString clipNo
  +:+ " di adegan " +:+ numberToString sceneNo
  +:+ ". Respon API tidak valid atau diblokir.".

(** Whether the character [c] occurs in [s]. *)
Fixpoint occurs (c : ascii) (s : string) : bool :=
  match s with
  | EmptyString => false
  | String a rest => Ascii.eqb a c || occurs c rest
  end.

(** What the proofs that read a number back from a text use of
    [Number::toString] (ECMA-262, 6.1.6.1.20).  The text of a number is
    written with digits, a sign, a point and the exponent mark [e], or it is
    [Infinity] or [NaN]; and two different numbers have different texts. *)
Definition numberChars : string := "0123456789+-.eInfinityNaN".

Record NumberPrinting (numberToString : Z -> string) : Prop := {
  printing_chars : forall z c,
    occurs c (numberToString z) = true -> occurs c numberChars = true;
  printing_inj : forall z z',
    numberToString z = numberToString z' -> z = z';
}.

(** Lines 147-151: [{ ...clip, image, audio }]. *)
Definition withMedia (clip : StoryboardStructureClip) (imageB64 audioB64 : string)
  : Clip :=
  {| clip := Structure.clip clip;
     narration := Structure.narration clip;
     prompt := Structure.prompt clip;
     image := "data:image/png;base64," +:+ imageB64;
     audio := audioB64 |}.

Section Pipeline.

(** [Number::toString], applied by the template literals of lines 98 and
    144. *)
Variable numberToString : Z -> string.

(** [JSON.parse] followed by the unchecked annotation [: StoryboardStructure];
    [None] is the [SyntaxError] thrown on text that is not JSON.  Nothing
    relates the value to the response schema or to the prompt: it is any value
    of the declared type. *)
Variable JSON_parse : string -> option StoryboardStructure.

Variable ai : Remote.

(** Line 87.  [JSON.parse(undefined)] parses the text [undefined], which is
    not JSON. *)
Definition parseStructure (responseText : option string) : M StoryboardStructure :=
  match responseText with
  | None => throw SyntaxError
  | Some t =>
      match JSON_parse t with
      | None => throw SyntaxError
      | Some st => ret st
      end
  end.

(** Lines 98-151: the body of the inner loop. *)
Definition clipBody (formData : FormData) (totalClips : nat)
    (scene : StoryboardStructureScene) (clip : StoryboardStructureClip) : M Clip :=
  let* n := preIncrClipCount in
  onProgress (clipProgress numberToString (Structure.scene scene) (Structure.clip clip) n totalClips) ;;
  let parts := imageParts formData clip in
  emit (ImageRequest parts) ;;
  emit (AudioRequest (Structure.narration clip)) ;;
  let* responses := await (mediaReply ai n parts (Structure.narration clip)) in
  let imageB64 := findInlineData (fst responses) in
  let audioB64 := findInlineData (snd responses) in
  if falsy imageB64 || falsy audioB64 then
    emit (ConsoleError "Image Response:" (fst responses)) ;;
    emit (ConsoleError "Audio Response:" (snd responses)) ;;
    throw (ClipError (clipFailure numberToString (Structure.clip clip) (Structure.scene scene)))
  else ret (withMedia clip (narrowed imageB64) (narrowed audioB64)).

(** Lines 97-152: [for (const clip of scene.clips)], pushing onto
    [generatedClips]. *)
Fixpoint clipLoop (formData : FormData) (totalClips : nat)
    (scene : StoryboardStructureScene) (rest : list StoryboardStructureClip)
    (generatedClips : list Clip) : M (list Clip) :=
  match rest with
  | [] => ret generatedClips
  | clip :: rest' =>
      let* c := clipBody formData totalClips scene clip in
      clipLoop formData totalClips scene rest' (generatedClips ++ [c])
  end.

(** Lines 95-154: [for (const scene of storyStructure)], pushing onto
    [finalStoryboard]. *)
Fixpoint sceneLoop (formData : FormData) (totalClips : nat)
    (rest : list StoryboardStructureScene) (finalStoryboard : Storyboard)
    : M Storyboard :=
  match rest with
  | [] => ret finalStoryboard
  | scene :: rest' =>
      let* generatedClips :=
        clipLoop formData totalClips scene (Structure.clips scene) [] in
      sceneLoop formData totalClips rest'
        (finalStoryboard
           ++ [{| scene := Structure.scene scene; clips := generatedClips |}])
  end.

(** Line 93. *)
Definition totalClipsOf (storyStructure : StoryboardStructure) : nat :=
  fold_left (fun acc scene => acc + length (Structure.clips scene))
            storyStructure 0.

(** Lines 34-87: stage one. *)
Definition structureStage (formData : FormData) : M StoryboardStructure :=
  onProgress "Menganalisis cerita dan karakter..." ;;
  let contents := storyPrompt formData in
  emit (StructureRequest contents) ;;
  let* responseText := await (structureReply ai contents) in
  parseStructure responseText.

(** Lines 89-157: stage two. *)
Definition mediaStage (formData : FormData) (storyStructure : StoryboardStructure)
  : M Storyboard :=
  onProgress "Membuat visual untuk setiap klip..." ;;
  setClipCount 0 ;;
  let totalClips := totalClipsOf storyStructure in
  let* finalStoryboard := sceneLoop formData totalClips storyStructure [] in
  onProgress "Selesai!" ;;
  ret finalStoryboard.

Definition generateStoryboardM (formData : FormData) : M Storyboard :=
  let* storyStructure := structureStage formData in
  mediaStage formData storyStructure.

Definition initialRun : Run := {| events := []; clipCount := 0 |}.

(** One call of the exported function: the trace it leaves and its outcome
    (the rejection reason or the resolved storyboard). *)
Definition generateStoryboard (formData : FormData)
  : list Event * (Error + Storyboard) :=
  let r := generateStoryboardM formData initialRun in
  (events (fst r), snd r).

End Pipeline.

(** ** The pipeline, read as a walk over the clips in structure order *)

(** Scene-major, clip-minor: every clip with the scene it belongs to. *)
Definition flatClips (storyStructure : StoryboardStructure)
  : list (StoryboardStructureScene * StoryboardStructureClip) :=
  concat (map (fun sc => map (pair sc) (Structure.clips sc)) storyStructure).

(** Forgetting the media of a storyboard. *)
Definition structureOfClip (c : Clip) : StoryboardStructureClip :=
  {| Structure.clip := clip c;
     Structure.narration := narration c;
     Structure.prompt := prompt c |}.

Definition structureOfScene (sc : Scene) : StoryboardStructureScene :=
  {| Structure.scene := scene sc;
     Structure.clips := map structureOfClip (clips sc) |}.

Definition structureOf (sb : Storyboard) : StoryboardStructure :=
  map structureOfScene sb.

Definition clipsIn (sb : Storyboard) : nat :=
  length (concat (map clips sb)).

Definition isProgress (e : Event) : bool :=
  match e with
  | Progress _ => true
  | _ => false
  end.

Definition isMediaRequest (e : Event) : bool :=
  match e with
  | ImageRequest _ | AudioRequest _ => true
  | _ => false
  end.

Section Walk.

Variable numberToString : Z -> string.
Variable ai : Remote.
Variable formData : FormData.
Variable totalClips : nat.

Abbreviation item := (StoryboardStructureScene * StoryboardStructureClip)%type.

(** What the [n]-th iteration emits before it awaits its two requests. *)
Definition clipEvents (n : nat) (it : item) : list Event :=
  [ Progress (clipProgress numberToString (Structure.scene it.1) (Structure.clip it.2) n totalClips);
    ImageRequest (imageParts formData it.2);
    AudioRequest (Structure.narration it.2) ].

(** What the [n]-th iteration does once [Promise.all] has settled: the
    console output and either the error thrown or the clip pushed. *)
Definition clipResult (n : nat) (it : item) : list Event * (Error + Clip) :=
  match mediaReply ai n (imageParts formData it.2) (Structure.narration it.2) with
  | Rejected reason => ([], inl (RemoteFailure reason))
  | Resolved (imageResponse, audioResponse) =>
      if falsy (findInlineData imageResponse) || falsy (findInlineData audioResponse)
      then ([ ConsoleError "Image Response:" imageResponse;
              ConsoleError "Audio Response:" audioResponse ],
            inl (ClipError (clipFailure numberToString (Structure.clip it.2) (Structure.scene it.1))))
      else ([], inr (withMedia it.2 (narrowed (findInlineData imageResponse))
                                    (narrowed (findInlineData audioResponse))))
  end.

Definition clipSucceeds (n : nat) (it : item) : bool :=
  match (clipResult n it).2 with
  | inr _ => true
  | inl _ => false
  end.

(** The clip the [n]-th iteration pushes when it succeeds. *)
Definition clipOf (n : nat) (it : item) : Clip :=
  match (clipResult n it).2 with
  | inr c => c
  | inl _ => withMedia it.2 EmptyString EmptyString
  end.

(** Iterations [n+1], [n+2], ... over [items]: the events emitted, the final
    counter and the error that stopped the walk, if any. *)
Fixpoint walk (n : nat) (items : list item) : list Event * nat * option Error :=
  match items with
  | [] => ([], n, None)
  | it :: rest =>
      match (clipResult (S n) it).2 with
      | inl e => ((clipEvents (S n) it ++ (clipResult (S n) it).1), S n, Some e)
      | inr _ =>
          let '(evs, m, stop) := walk (S n) rest in
          ((clipEvents (S n) it ++ evs), m, stop)
      end
  end.

Fixpoint loopEvents (n : nat) (items : list item) : list Event :=
  match items with
  | [] => []
  | it :: rest => (clipEvents (S n) it ++ loopEvents (S n) rest)
  end.

Fixpoint attachClips (sc : StoryboardStructureScene) (n : nat)
    (cls : list StoryboardStructureClip) : list Clip :=
  match cls with
  | [] => []
  | cl :: rest => clipOf (S n) (sc, cl) :: attachClips sc (S n) rest
  end.

Fixpoint attachScenes (n : nat) (scs : list StoryboardStructureScene) : Storyboard :=
  match scs with
  | [] => []
  | sc :: rest =>
      {| scene := Structure.scene sc;
         clips := attachClips sc n (Structure.clips sc) |}
      :: attachScenes (n + length (Structure.clips sc)) rest
  end.

Definition finish (s : Run) (w : list Event * nat * option Error)
    (sb : Storyboard) : Run * (Error + Storyboard) :=
  ({| events := (events s ++ w.1.1); clipCount := w.1.2 |},
   match w.2 with
   | Some e => inl e
   | None => inr sb
   end).

(** An event of the iteration tail: console output only. *)
Definition quiet (e : Event) : bool := negb (isProgress e) && negb (isMediaRequest e).

End Walk.

(** The events up to and including the structure request. *)
Definition opening (formData : FormData) : list Event :=
  [ Progress "Menganalisis cerita dan karakter...";
    StructureRequest (storyPrompt formData) ].

Definition loopStart : Event := Progress "Membuat visual untuk setiap klip...".
Definition completion : Event := Progress "Selesai!".

(** What stage one decodes from the resolved response text. *)
Definition decoded (JSON_parse : string -> option StoryboardStructure)
    (responseText : option string) : option StoryboardStructure :=
  match responseText with
  | Some t => JSON_parse t
  | None => None
  end.

(** ** The response schema of the structure request (lines 62-83)

    The SDK's [Schema] object, with the fields the source sets.  [minItems] and
    [maxItems] are the SDK's optional bounds on an array; the source sets
    neither.  The reading of a schema ([conforms]) is the usual one: the type
    must match, the required properties must be present, and each property
    that the schema describes must conform. *)

#[local] Unset Elimination Schemes.

Inductive json :=
| JNull
| JBool (b : bool)
| JNumber (n : Z)
| JString (s : string)
| JArray (elements : list json)
| JObject (members : list (string * json)).

Inductive Schema :=
| INTEGER
| STRING (description : option string)
| ARRAY (items : Schema) (minItems maxItems : option nat)
| OBJECT (properties : list (string * Schema)) (required : list string).

#[local] Set Elimination Schemes.

Definition responseSchema : Schema :=
  ARRAY
    (OBJECT
       [ ("scene", INTEGER);
         ("clips",
          ARRAY
            (OBJECT
               [ ("clip", INTEGER);
                 ("narration", STRING (Some "Narration in Indonesian"));
                 ("prompt", STRING (Some "Image generation prompt in English")) ]
               [ "clip"; "narration"; "prompt" ])
            None None) ]
       [ "scene"; "clips" ])
    None None.

Fixpoint member {A} (k : string) (l : list (string * A)) : option A :=
  match l with
  | [] => None
  | (k', a) :: rest => if String.eqb k k' then Some a else member k rest
  end.

Definition withinBounds (lo hi : option nat) (n : nat) : bool :=
  match lo with Some a => Nat.leb a n | None => true end
  && match hi with Some b => Nat.leb n b | None => true end.

Fixpoint conforms (s : Schema) (v : json) {struct v} : bool :=
  match s, v with
  | INTEGER, JNumber _ => true
  | STRING _, JString _ => true
  | ARRAY items lo hi, JArray vs =>
      withinBounds lo hi (length vs) && forallb (conforms items) vs
  | OBJECT props req, JObject ms =>
      forallb (fun k => bool_decide (is_Some (member k ms))) req
      && forallb (fun m => match member m.1 props with
                           | Some s' => conforms s' m.2
                           | None => true
                           end) ms
  | _, _ => false
  end.

(** The JSON value a typed structure is. *)
Definition clipJSON (c : StoryboardStructureClip) : json :=
  JObject [ ("clip", JNumber (Structure.clip c));
            ("narration", JString (Structure.narration c));
            ("prompt", JString (Structure.prompt c)) ].

Definition sceneJSON (sc : StoryboardStructureScene) : json :=
  JObject [ ("scene", JNumber (Structure.scene sc));
            ("clips", JArray (map clipJSON (Structure.clips sc))) ].

Definition structureJSON (st : StoryboardStructure) : json :=
  JArray (map sceneJSON st).


(** ** geminiService.ts, lines 19-28 and 161-210: the audio player *)

(** The exceptions of the platform that the player can meet. *)
Inductive Exception :=
| InvalidCharacterError   (* atob, on text that is not base64 *)
| RangeError              (* new Int16Array, on a buffer of odd byte length *)
| NotSupportedError       (* createBuffer, on a length of zero frames *)
| InvalidStateError.      (* stop() before start(), start() twice *)

(** [for (let i = 0; i < n; i++) a[i] = f(i)], started at index [i] with [n]
    rounds to go. *)
Fixpoint forIndex {A} (f : nat -> A) (i n : nat) (a : list A) : list A :=
  match n with
  | 0 => a
  | S n' => forIndex f (S i) n' (<[i := f i]> a)
  end.

(** [s.charCodeAt(i)] as stored into a [Uint8Array]. *)
Definition charCodeAt (s : string) (i : nat) : byte :=
  match String.get i s with
  | Some c => byte_of_ascii c
  | None => "000"%byte
  end.

(** The signed 16-bit integer whose little-endian bytes are [lo], [hi]. *)
Definition int16 (lo hi : byte) : Z :=
  let u := (Z.of_N (Byte.to_N lo) + 256 * Z.of_N (Byte.to_N hi))%Z in
  if (u <? 32768)%Z then u else (u - 65536)%Z.

Fixpoint int16View (buffer : list byte) : list Z :=
  match buffer with
  | lo :: hi :: rest => int16 lo hi :: int16View rest
  | _ => []
  end.

(** [new Int16Array(buffer)]: a view of the whole buffer, in the byte order of
    the platform (little-endian); the constructor throws a [RangeError] when
    the byte length is not a multiple of 2. *)
Definition Int16Array (buffer : list byte) : Exception + list Z :=
  if Nat.even (length buffer) then inr (int16View buffer) else inl RangeError.

Record AudioContext := { contextSampleRate : Z }.

(** A mono buffer: [channelData] is channel 0.  The samples are 32-bit floats;
    every value the player stores is [k / 32768] with [-32768 <= k < 32768],
    which a 32-bit float holds exactly, so the samples are kept as
    rationals. *)
Record AudioBuffer := {
  numberOfChannels : nat;
  sampleRate : Z;
  channelData : list Q;
}.

(** [ctx.createBuffer(numberOfChannels, length, sampleRate)]: a silent buffer.
    The Web Audio API has it throw a [NotSupportedError] when the channel count
    or the length is zero (the sample rates from 8000 to 96000 are always
    supported). *)
Definition createBuffer (channels frames : nat) (rate : Z)
  : Exception + AudioBuffer :=
  if Nat.eqb channels 0 || Nat.eqb frames 0 then inl NotSupportedError
  else inr {| numberOfChannels := channels;
              sampleRate := rate;
              channelData := replicate frames 0%Q |}.

(** [dataInt16[i] / 32768.0] *)
Definition sampleValue (dataInt16 : list Z) (i : nat) : Q :=
  (inject_Z (nth i dataInt16 0%Z) / inject_Z 32768)%Q.

(** Lines 172-184. *)
Definition decodeAudioData (data : list byte) (ctx : AudioContext)
  : Exception + AudioBuffer :=
  match Int16Array data with
  | inl e => inl e
  | inr dataInt16 =>
      let frameCount := length dataInt16 in
      match createBuffer 1 frameCount 24000%Z with
      | inl e => inl e
      | inr buffer =>
          inr {| numberOfChannels := numberOfChannels buffer;
                 sampleRate := sampleRate buffer;
                 channelData :=
                   forIndex (sampleValue dataInt16) 0 frameCount (channelData buffer) |}
      end
  end.

(** *** The nodes and the module state *)

(** An [AudioBufferSourceNode].  [onended] holds the caller's [onEnded] that
    the handler of line 196 closes over; callbacks are told apart by a
    number. *)
Record AudioBufferSourceNode := {
  buffer : option AudioBuffer;
  onended : option nat;
  connected : bool;
  started : bool;
  stopped : bool;
  ended : bool;
}.

Definition freshNode : AudioBufferSourceNode :=
  {| buffer := None; onended := None; connected := false;
     started := false; stopped := false; ended := false |}.

Definition withBuffer (b : AudioBuffer) (n : AudioBufferSourceNode) :=
  {| buffer := Some b; onended := onended n; connected := connected n;
     started := started n; stopped := stopped n; ended := ended n |}.

Definition withOnended (onEnded : nat) (n : AudioBufferSourceNode) :=
  {| buffer := buffer n; onended := Some onEnded; connected := connected n;
     started := started n; stopped := stopped n; ended := ended n |}.

Definition withConnected (c : bool) (n : AudioBufferSourceNode) :=
  {| buffer := buffer n; onended := onended n; connected := c;
     started := started n; stopped := stopped n; ended := ended n |}.

Definition withStarted (n : AudioBufferSourceNode) :=
  {| buffer := buffer n; onended := onended n; connected := connected n;
     started := true; stopped := stopped n; ended := ended n |}.

Definition withStopped (n : AudioBufferSourceNode) :=
  {| buffer := buffer n; onended := onended n; connected := connected n;
     started := started n; stopped := true; ended := ended n |}.

Definition withEnded (n : AudioBufferSourceNode) :=
  {| buffer := buffer n; onended := onended n; connected := connected n;
     started := started n; stopped := stopped n; ended := true |}.

(** A node is heard from [start()] until [stop()] or the end of its buffer. *)
Definition playing (n : AudioBufferSourceNode) : bool :=
  started n && negb (stopped n) && negb (ended n).

Inductive Observation :=
| NodeCreated (s : nat)
| NodeConnected (s : nat)
| NodeStarted (s : nat)
| NodeStopped (s : nat)
| NodeDisconnected (s : nat)
| Invoked (s : nat) (onEnded : nat)
| PromiseRejected (e : Exception)
| Thrown (e : Exception).

(** [audioContext] and [currentSource] are the two module variables (lines
    162-163); a node is referred to by its index in [nodes]; [suspended] holds
    the calls of [playAudio] that wait at their [await], oldest first. *)
Record Player := {
  audioContext : option AudioContext;
  currentSource : option nat;
  nodes : list AudioBufferSourceNode;
  suspended : list (AudioContext * AudioBuffer * nat);
  log : list Observation;
}.

Definition initialPlayer : Player :=
  {| audioContext := None; currentSource := None; nodes := [];
     suspended := []; log := [] |}.

Definition P : Type -> Type := Eff Player Exception.

Definition setAudioContext (c : option AudioContext) : P unit :=
  fun p => ({| audioContext := c; currentSource := currentSource p;
               nodes := nodes p; suspended := suspended p; log := log p |}, inr tt).

Definition setCurrentSource (s : option nat) : P unit :=
  fun p => ({| audioContext := audioContext p; currentSource := s;
               nodes := nodes p; suspended := suspended p; log := log p |}, inr tt).

Definition setNodes (l : list AudioBufferSourceNode) : P unit :=
  fun p => ({| audioContext := audioContext p; currentSource := currentSource p;
               nodes := l; suspended := suspended p; log := log p |}, inr tt).

Definition setSuspended (q : list (AudioContext * AudioBuffer * nat)) : P unit :=
  fun p => ({| audioContext := audioContext p; currentSource := currentSource p;
               nodes := nodes p; suspended := q; log := log p |}, inr tt).

Definition observe (o : Observation) : P unit :=
  fun p => ({| audioContext := audioContext p; currentSource := currentSource p;
               nodes := nodes p; suspended := suspended p; log := log p ++ [o] |},
            inr tt).

Definition get {A} (f : Player -> A) : P A := fun p => (p, inr (f p)).

Definition liftResult {A} (r : Exception + A) : P A :=
  match r with
  | inl e => throw e
  | inr a => ret a
  end.

(** The node behind a reference. *)
Definition nodeOf (l : list AudioBufferSourceNode) (s : nat) : AudioBufferSourceNode :=
  default freshNode (l !! s).

Definition node (s : nat) (p : Player) : AudioBufferSourceNode :=
  nodeOf (nodes p) s.

Definition update (s : nat) (f : AudioBufferSourceNode -> AudioBufferSourceNode)
  : P unit :=
  let* l := get nodes in setNodes (alter f s l).

(** [ctx.createBufferSource()] *)
Definition createBufferSource : P nat :=
  let* l := get nodes in
  setNodes (l ++ [freshNode]) ;;
  observe (NodeCreated (length l)) ;;
  ret (length l).

(** [source.buffer = audioBuffer] *)
Definition assignBuffer (s : nat) (b : AudioBuffer) : P unit :=
  update s (withBuffer b).

(** [source.connect(ctx.destination)] *)
Definition connect (s : nat) : P unit :=
  update s (withConnected true) ;;
  observe (NodeConnected s).

(** [source.disconnect()] *)
Definition disconnect (s : nat) : P unit :=
  update s (withConnected false) ;;
  observe (NodeDisconnected s).

(** [source.onended = () => { currentSource = null; onEnded(); }] *)
Definition assignOnended (s : nat) (onEnded : nat) : P unit :=
  update s (withOnended onEnded).

(** [source.start()]: an [InvalidStateError] on a second call. *)
Definition start (s : nat) : P unit :=
  let* n := get (node s) in
  if started n then throw InvalidStateError
  else
    update s withStarted ;;
    observe (NodeStarted s).

(** [source.stop()]: an [InvalidStateError] on a node that was not started. *)
Definition stop (s : nat) : P unit :=
  let* n := get (node s) in
  if started n then
    update s withStopped ;;
    observe (NodeStopped s)
  else throw InvalidStateError.

(** Lines 165-170. *)
Definition getAudioContext : P AudioContext :=
  let* c := get audioContext in
  match c with
  | Some ctx => ret ctx
  | None =>
      let ctx := {| contextSampleRate := 24000%Z |} in
      setAudioContext (Some ctx) ;;
      ret ctx
  end.

(** Lines 204-210. *)
Definition stopAudio : P unit :=
  let* cs := get currentSource in
  match cs with
  | Some s =>
      stop s ;;
      disconnect s ;;
      setCurrentSource None
  | None => ret tt
  end.

Section Player.

(** The browser's [atob]: the binary string a base64 text stands for, [None]
    when it throws. *)
Variable atob : string -> option string.

(** Lines 20-28. *)
Definition decode (base64 : string) : Exception + list byte :=
  match atob base64 with
  | None => inl InvalidCharacterError
  | Some binaryString =>
      let len := String.length binaryString in
      inr (forIndex (charCodeAt binaryString) 0 len (replicate len "000"%byte))
  end.

(** Lines 188-191: [playAudio] up to its [await]. *)
Definition playAudio_begin (base64 : string) : P (AudioContext * AudioBuffer) :=
  stopAudio ;;
  let* ctx := getAudioContext in
  let* rawAudio := liftResult (decode base64) in
  let* audioBuffer := liftResult (decodeAudioData rawAudio ctx) in
  ret (ctx, audioBuffer).

(** Lines 193-201: [playAudio] from its [await] on. *)
Definition playAudio_resume (ctx : AudioContext) (audioBuffer : AudioBuffer)
    (onEnded : nat) : P unit :=
  let* source := createBufferSource in
  assignBuffer source audioBuffer ;;
  connect source ;;
  assignOnended source onEnded ;;
  start source ;;
  setCurrentSource (Some source).

(** A call of [playAudio] that nothing interleaves with. *)
Definition playAudio (base64 : string) (onEnded : nat) : P unit :=
  let* r := playAudio_begin base64 in
  playAudio_resume r.1 r.2 onEnded.

(** The handler of lines 196-199, run for the [ended] event of node [s]. *)
Definition onendedHandler (s : nat) : P unit :=
  let* n := get (node s) in
  match onended n with
  | Some onEnded =>
      setCurrentSource None ;;
      observe (Invoked s onEnded)
  | None => ret tt
  end.

(** The platform dispatches [ended] to a node once, after the node has stopped
    playing: at the end of its buffer or after [stop()].  It does so from a
    task of its own, hence with no microtask pending. *)
Definition canEnd (s : nat) (p : Player) : bool :=
  started (node s p) && negb (ended (node s p))
  && bool_decide (suspended p = []).

Definition dispatchEnded (s : nat) : P unit :=
  update s withEnded ;;
  onendedHandler s.

(** What can happen to the player: a call of one of the two exported
    functions, the resumption of the oldest suspended [playAudio], the [ended]
    event of a node. *)
Inductive Action :=
| PlayAudio (base64 : string) (onEnded : nat)
| Resume
| StopAudio
| Ended (s : nat).

Definition recordFailure {A} (wrap : Exception -> Observation)
    (r : Player * (Exception + A)) : Player :=
  match r with
  | (p, inl e) => (observe (wrap e) p).1
  | (p, inr _) => p
  end.

Definition step (a : Action) (p : Player) : Player :=
  match a with
  | PlayAudio base64 onEnded =>
      match playAudio_begin base64 p with
      | (p', inr (ctx, audioBuffer)) =>
          (setSuspended (suspended p' ++ [(ctx, audioBuffer, onEnded)]) p').1
      | (p', inl e) => (observe (PromiseRejected e) p').1
      end
  | Resume =>
      match suspended p with
      | [] => p
      | (ctx, audioBuffer, onEnded) :: rest =>
          recordFailure PromiseRejected
            ((setSuspended rest ;; playAudio_resume ctx audioBuffer onEnded) p)
      end
  | StopAudio => recordFailure Thrown (stopAudio p)
  | Ended s => if canEnd s p then recordFailure Thrown (dispatchEnded s p) else p
  end.

Definition run (actions : list Action) (p : Player) : Player :=
  fold_left (fun q a => step a q) actions p.

End Player.

(** The nodes that are heard. *)
Definition playingNodes (p : Player) : list nat :=
  List.filter (fun s => playing (node s p)) (seq 0 (length (nodes p))).

(** How often the handler of node [s] has called the caller's callback. *)
Definition invocations (s : nat) (l : list Observation) : nat :=
  length (List.filter (fun o => match o with
                                | Invoked s' _ => Nat.eqb s s'
                                | _ => false
                                end) l).

(** The node a resumed [playAudio] has set up. *)
Definition startedNode (audioBuffer : AudioBuffer) (onEnded : nat) : AudioBufferSourceNode :=
  {| buffer := Some audioBuffer; onended := Some onEnded; connected := true;
     started := true; stopped := false; ended := false |}.

(** The context [getAudioContext] returns, and the state it leaves. *)
Definition contextOf (p : Player) : AudioContext :=
  default {| contextSampleRate := 24000 |} (audioContext p).

Definition withContext (p : Player) : Player :=
  {| audioContext := Some (contextOf p);
     currentSource := currentSource p;
     nodes := nodes p;
     suspended := suspended p;
     log := log p |}.

(** Two states of a node that agree on whether it was started, on its handler
    and on whether it has had its [ended] event. *)
Definition sameStatus (n n' : AudioBufferSourceNode) : Prop :=
  started n' = started n /\ onended n' = onended n /\ ended n' = ended n.

(** What holds of the player whatever has happened to it: [currentSource]
    refers to a node that is playing, a started node has its handler, and the
    handler of a node has called back exactly when the node has had its
    [ended] event. *)
Definition wellFormed (p : Player) : Prop :=
  (forall s, currentSource p = Some s -> playing (node s p) = true) /\
  (forall s, started (node s p) = true -> is_Some (onended (node s p))) /\
  (forall s, invocations s (log p) = if ended (node s p) then 1 else 0).

(** ** Test doubles *)

(** A response whose first candidate carries one inline payload. *)
Definition inlineResponse (d : string) : GenerateContentResponse :=
  {| candidates :=
       Some [ {| content :=
                   Some {| parts :=
                             Some [ {| inlineData := Some {| data := Some d; mimeType := None |};
                                       text := None |} ] |} |} ] |}.

(** A response with two candidates; the first one carries a caption and two
    inline payloads. *)
Definition captionedContent : Content :=
  {| parts := Some [ textPart "caption";
                     fileToGenerativePart "Zmlyc3Q=" "image/png";
                     fileToGenerativePart "c2Vjb25k" "image/png" ] |}.

Definition captionedResponse : GenerateContentResponse :=
  {| candidates := Some [ {| content := Some captionedContent |};
                          {| content := None |} ] |}.

(** A blocked response: no candidate at all. *)
Definition blockedResponse : GenerateContentResponse :=
  {| candidates := Some [] |}.

(** A way to print numbers: the decimal digits, after the sign of a negative
    number.  It is what the platform prints for an integer up to 2^53. *)
Definition decimal (z : Z) : string := pretty z.

Definition fakeClip (n : Z) : StoryboardStructureClip :=
  {| Structure.clip := n;
     Structure.narration := "narasi";
     Structure.prompt := "wide shot" |}.

Definition fakeScene (n : Z) (clipNumbers : list Z) : StoryboardStructureScene :=
  {| Structure.scene := n;
     Structure.clips := map fakeClip clipNumbers |}.

(** Four scenes of three clips, the shape the prompt asks for. *)
Definition fourByThree : StoryboardStructure :=
  [ fakeScene 1 [1; 2; 3]%Z; fakeScene 2 [1; 2; 3]%Z;
    fakeScene 3 [1; 2; 3]%Z; fakeScene 4 [1; 2; 3]%Z ].

(** One scene with one clip. *)
Definition oneByOne : StoryboardStructure := [ fakeScene 1 [1%Z] ].

(** A stand-in for [JSON.parse] that knows two texts. *)
Definition fakeParse (t : string) : option StoryboardStructure :=
  if String.eqb t "<four scenes of three clips>" then Some fourByThree
  else if String.eqb t "<one scene of one clip>" then Some oneByOne
  else None.

(** A backend that answers the structure request with [t] and every media
    pair with two payloads, except that the image response of iteration
    [blocked] comes back without candidates. *)
Definition fakeRemote (t : string) (blocked : nat) : Remote :=
  {| structureReply := fun _ => Resolved (Some t);
     mediaReply := fun n _ _ =>
       Resolved (if Nat.eqb n blocked then blockedResponse else inlineResponse "aW1n",
                 inlineResponse "AAD/fw==") |}.

Definition fakeForm : FormData :=
  {| title := "Judul";
     description := "Cerita";
     style := Style2D;
     aspectRatio := Ratio9x16;
     character1 := Some {| file := {| type := "image/png" |}; base64 := "cG5n" |};
     character2 := None |}.

(** *** A stand-in for [atob]: the forgiving-base64 decoding of the HTML
    standard *)

Definition isAsciiWhitespace (c : ascii) : bool :=
  let n := N_of_ascii c in
  N.eqb n 9 || N.eqb n 10 || N.eqb n 12 || N.eqb n 13 || N.eqb n 32.

Definition sextet (c : ascii) : option N :=
  let n := N_of_ascii c in
  if N.leb 65 n && N.leb n 90 then Some (n - 65)%N
  else if N.leb 97 n && N.leb n 122 then Some (n - 71)%N
  else if N.leb 48 n && N.leb n 57 then Some (n + 4)%N
  else if N.eqb n 43 then Some 62%N
  else if N.eqb n 47 then Some 63%N
  else None.

Fixpoint sextets (l : list ascii) : option (list N) :=
  match l with
  | [] => Some []
  | c :: rest =>
      match sextet c, sextets rest with
      | Some v, Some vs => Some (v :: vs)
      | _, _ => None
      end
  end.

Definition octet (n : N) : ascii := ascii_of_N (n mod 256).

Fixpoint octets (l : list N) : list ascii :=
  match l with
  | a :: b :: c :: d :: rest =>
      let n := (a * 262144 + b * 4096 + c * 64 + d)%N in
      octet (n / 65536) :: octet (n / 256) :: octet n :: octets rest
  | [a; b; c] =>
      let n := (a * 4096 + b * 64 + c)%N in
      [ octet (n / 1024); octet (n / 4) ]
  | [a; b] => [ octet ((a * 64 + b) / 16) ]
  | _ => []
  end.

Definition isPadding (c : ascii) : bool := N.eqb (N_of_ascii c) 61.

Definition stripPadding (l : list ascii) : list ascii :=
  if Nat.eqb (length l mod 4) 0 then
    match rev l with
    | p :: q :: rest =>
        if isPadding p then if isPadding q then rev rest else rev (q :: rest)
        else l
    | _ => l
    end
  else l.

Definition atobStandard (base64 : string) : option string :=
  let l := stripPadding
             (List.filter (fun c => negb (isAsciiWhitespace c))
                          (String.list_ascii_of_string base64)) in
  if Nat.eqb (length l mod 4) 1 then None
  else option_map (fun vs => String.string_of_list_ascii (octets vs)) (sextets l).

(** ** Further readings of a run and of a storyboard *)

(** The clips of a storyboard, scene after scene. *)
Definition allClips (sb : Storyboard) : list Clip := concat (map clips sb).

(** The media requests of a trace, in the order of issue. *)
Definition mediaRequests (trace : list Event) : list Event :=
  List.filter isMediaRequest trace.

(** The messages the progress callback has received, in order. *)
Fixpoint progressMessages (trace : list Event) : list string :=
  match trace with
  | [] => []
  | Progress m :: rest => m :: progressMessages rest
  | _ :: rest => progressMessages rest
  end.

(** ** Further readings of the player *)

(** An observation that shows a misuse of a node: an exception thrown by
    [stopAudio] or by an event handler, or a [playAudio] rejected because of
    the state of a node. *)
Definition isFault (o : Observation) : bool :=
  match o with
  | Thrown _ => true
  | PromiseRejected InvalidStateError => true
  | _ => false
  end.

Definition isPlayAudio (a : Action) : bool :=
  match a with
  | PlayAudio _ _ => true
  | _ => false
  end.

(** At most one source is heard, and it is the current one. *)
Definition exclusive (p : Player) : Prop :=
  forall s, playing (node s p) = true -> currentSource p = Some s.

(** An action that keeps the calls of [playAudio] apart and the events in
    step: [playAudio] is not called while an earlier call waits at its
    [await], and the [ended] event of a source does not arrive while another
    source is the current one. *)
Definition calm (a : Action) (p : Player) : bool :=
  match a with
  | PlayAudio _ _ => bool_decide (suspended p = [])
  | Ended s =>
      bool_decide (currentSource p = None \/ currentSource p = Some s)
  | _ => true
  end.

Fixpoint calmly (atob : string -> option string) (actions : list Action)
    (p : Player) : bool :=
  match actions with
  | [] => true
  | a :: rest => calm a p && calmly atob rest (step atob a p)
  end.

(** A node never goes back: what has started has started, what has stopped
    has stopped, what has ended has ended. *)
Definition later (n n' : AudioBufferSourceNode) : Prop :=
  (started n = true -> started n' = true) /\
  (stopped n = true -> stopped n' = true) /\
  (ended n = true -> ended n' = true).

(** Whether an action is the [ended] event of the node [s]. *)
Definition isEndedOf (s : nat) (a : Action) : bool :=
  match a with
  | Ended s' => Nat.eqb s s'
  | _ => false
  end.

(** *** Reading a message back *)

(** What follows the last occurrence of the character [c] in [s]. *)
Fixpoint afterLast (c : ascii) (s : string) : string :=
  match s with
  | EmptyString => EmptyString
  | String a rest =>
      if Ascii.eqb a c && negb (occurs c rest) then rest else afterLast c rest
  end.

(** The end of the message of line 98: [${++clipCount}/${totalClips})]. *)
Definition counters (count total : nat) : string :=
  pretty count +:+ "/" +:+ pretty total +:+ ")".

(** ** src/App.tsx *)

(** [s.split(c)] for a separator [c] of one character: the pieces of [s]
    between the occurrences of [c]; the empty text has one piece, itself. *)
Fixpoint split (c : ascii) (s : string) : list string :=
  match s with
  | EmptyString => [EmptyString]
  | String a rest =>
      if Ascii.eqb a c then EmptyString :: split c rest
      else match split c rest with
           | piece :: pieces => String a piece :: pieces
           | [] => [String a EmptyString]
           end
  end.

(** Lines 8-18.  How the [FileReader] ended is the argument: [reader.result]
    when it has loaded the file, the error event otherwise.  The promise is
    resolved with [result.split(',')[1]], which is undefined when the result
    has no comma. *)
Definition fileToBase64 (read : Reply string) : Reply (option string) :=
  match read with
  | Rejected error => Rejected error
  | Resolved result => Resolved (split ","%char result !! 1)
  end.

(** The text [FileReader.readAsDataURL] produces for a file of the given mime
    type whose content has the given base64 encoding. *)
Definition dataURL (mimeType base64 : string) : string :=
  "data:" +:+ mimeType +:+ ";base64," +:+ base64.

(** Line 206, and line 290 with the numbers of the scene and of the clip
    that is rendered.  The two numbers are printed by the template literal. *)
Definition clipId (numberToString : Z -> string) (sceneNumber clipNo : Z)
  : string :=
  "scene-" +:+ numberToString sceneNumber +:+ "-clip-" +:+ numberToString clipNo.

(** Line 219: the name under which the image of a clip is downloaded. *)
Definition imageFilename (numberToString : Z -> string) (sceneNumber clipNo : Z)
  : string :=
  "adegan_" +:+ numberToString sceneNumber +:+ "_klip_"
  +:+ numberToString clipNo +:+ ".png".

(** Line 240: the name under which the narration of a clip is downloaded. *)
Definition audioFilename (numberToString : Z -> string) (sceneNumber clipNo : Z)
  : string :=
  "narasi_" +:+ numberToString sceneNumber +:+ "_"
  +:+ numberToString clipNo +:+ ".wav".

(** *** The page that shows a storyboard (lines 204-236 and 254-267) *)

(** The state of [StoryboardDisplay], [playingClipId], beside the player that
    its buttons drive.  Every callback it passes to [playAudio] is
    [() => setPlayingClipId(null)], so one number stands for all of them. *)
Record Display := {
  player : Player;
  playingClipId : option string;
}.

Definition resetPlaying : nat := 0.

(** How many callbacks have been invoked. *)
Definition callbacks (l : list Observation) : nat :=
  length (List.filter (fun o => match o with
                                | Invoked _ _ => true
                                | _ => false
                                end) l).

(** Lines 258-261: [handlePlayAudio]. *)
Definition handlePlayAudio (atob : string -> option string)
    (audioBase64 id : string) (d : Display) : Display :=
  {| player := step atob (PlayAudio audioBase64 resetPlaying) (player d);
     playingClipId := Some id |}.

(** Line 236, the button of a clip card, with [isPlaying] as line 290
    computes it: [playingClipId === clipId]. *)
Definition clickClip (atob : string -> option string)
    (id audio : string) (d : Display) : Display :=
  if bool_decide (playingClipId d = Some id)
  then {| player := step atob StopAudio (player d);
          playingClipId := playingClipId d |}
  else handlePlayAudio atob audio id d.

(** The suspended call of [playAudio] resumes. *)
Definition resumed (atob : string -> option string) (d : Display) : Display :=
  {| player := step atob Resume (player d);
     playingClipId := playingClipId d |}.

(** The [ended] event of the node [s]; when its handler invokes the callback,
    [playingClipId] becomes null. *)
Definition endedEvent (atob : string -> option string) (s : nat) (d : Display)
  : Display :=
  let p' := step atob (Ended s) (player d) in
  {| player := p';
     playingClipId :=
       if Nat.ltb (callbacks (log (player d))) (callbacks (log p'))
       then None else playingClipId d |}.

(** A backend like [fakeRemote] whose [failing] iteration is rejected. *)
Definition rejectingRemote (t : string) (failing : nat) (reason : string) : Remote :=
  {| structureReply := fun _ => Resolved (Some t);
     mediaReply := fun n _ _ =>
       if Nat.eqb n failing then Rejected reason
       else Resolved (inlineResponse "aW1n", inlineResponse "AAD/fw==") |}.

(** A backend like [fakeRemote] whose [failing] iteration gets an audio
    payload that is the empty string. *)
Definition silentRemote (t : string) (failing : nat) : Remote :=
  {| structureReply := fun _ => Resolved (Some t);
     mediaReply := fun n _ _ =>
       Resolved (inlineResponse "aW1n",
                 if Nat.eqb n failing then inlineResponse EmptyString
                 else inlineResponse "AAD/fw==") |}.

(** Two scenes without clips. *)
Definition twoBareScenes : StoryboardStructure := [ fakeScene 1 []; fakeScene 2 [] ].

Definition bareParse (t : string) : option StoryboardStructure :=
  if String.eqb t "<two scenes without clips>" then Some twoBareScenes else None.

(** A player that has done nothing yet and holds the given context. *)
Definition playerWith (ctx : AudioContext) : Player :=
  {| audioContext := Some ctx; currentSource := None; nodes := [];
     suspended := []; log := [] |}.
(** Brings the two sides of an equation between traces to the same shape. *)
Ltac trace_norm :=
  cbn; rewrite <- ?app_assoc; cbn; rewrite ?app_nil_r; cbn.

Section WalkFacts.

Variable numberToString : Z -> string.
Variable ai : Remote.
Variable formData : FormData.
Variable totalClips : nat.

Local Abbreviation clipEvents := (clipEvents numberToString formData totalClips).
Local Abbreviation clipResult := (clipResult numberToString ai formData).
Local Abbreviation clipSucceeds := (clipSucceeds numberToString ai formData).
Local Abbreviation clipOf := (clipOf numberToString ai formData).
Local Abbreviation walk := (walk numberToString ai formData totalClips).
Local Abbreviation loopEvents := (loopEvents numberToString formData totalClips).
Local Abbreviation attachClips := (attachClips numberToString ai formData).
Local Abbreviation attachScenes := (attachScenes numberToString ai formData).

Lemma clipBody_eq sc cl s :
  clipBody numberToString ai formData totalClips sc cl s =
  ({| events := (events s ++ clipEvents (S (clipCount s)) (sc, cl)
                  ++ (clipResult (S (clipCount s)) (sc, cl)).1);
      clipCount := S (clipCount s) |},
   (clipResult (S (clipCount s)) (sc, cl)).2).
Proof.
  unfold clipBody, clipResult, bind, preIncrClipCount, onProgress, emit, await.
  cbn [fst snd events clipCount].
  destruct (mediaReply ai _ _ _) as [reason|[ir ar]]; cbn.
  - by trace_norm.
  - destruct (falsy (findInlineData ir) || falsy (findInlineData ar));
      unfold throw, ret; by trace_norm.
Qed.

Lemma walk_app n l1 l2 :
  walk n (l1 ++ l2) =
  match walk n l1 with
  | (evs, m, Some e) => (evs, m, Some e)
  | (evs, m, None) =>
      let '(evs2, m2, stop) := walk m l2 in ((evs ++ evs2), m2, stop)
  end.
Proof.
  revert n; induction l1 as [|it l1 IH]; intros n; cbn.
  - by destruct (walk n l2) as [[??]?].
  - destruct (clipResult (S n) it).2 as [e|c]; [done|].
    rewrite IH. destruct (walk (S n) l1) as [[evs m] [e|]]; [done|].
    by destruct (walk m l2) as [[evs2 m2] stop].
Qed.

Lemma walk_ok n items evs m :
  walk n items = (evs, m, None) ->
  m = n + length items /\ evs = loopEvents n items.
Proof.
  revert n evs m; induction items as [|it items IH]; intros n evs m; cbn -[clipEvents].
  - intros [= <- <-]. split; [lia|done].
  - destruct (clipResult (S n) it).2; [done|].
    destruct (walk (S n) items) as [[evs' m'] stop] eqn:W.
    intros [= <- <- ->]. apply IH in W as [-> ->]. split; [lia|done].
Qed.

Lemma clipLoop_walk sc rest : forall acc s,
  clipLoop numberToString ai formData totalClips sc rest acc s =
  let w := walk (clipCount s) (map (pair sc) rest) in
  ({| events := (events s ++ w.1.1); clipCount := w.1.2 |},
   match w.2 with
   | Some e => inl e
   | None => inr (acc ++ attachClips sc (clipCount s) rest)
   end).
Proof.
  induction rest as [|cl rest IH]; intros acc s; cbn.
  - unfold ret. rewrite !app_nil_r. by destruct s.
  - unfold bind. rewrite clipBody_eq. unfold clipOf.
    destruct (clipResult (S (clipCount s)) (sc, cl)).2 as [e|c] eqn:E; [done|].
    rewrite IH. cbn [clipCount events].
    destruct (walk (S (clipCount s)) (map (pair sc) rest)) as [[evs m] stop]. cbn.
    assert ((clipResult (S (clipCount s)) (sc, cl)).1 = []) as ->.
    { revert E. unfold clipResult. destruct (mediaReply _ _ _ _) as [|[??]]; [done|].
      by destruct (_ || _). }
    rewrite ?app_nil_r, <- ?app_assoc. by destruct stop.
Qed.

Lemma sceneLoop_walk rest : forall acc s,
  sceneLoop numberToString ai formData totalClips rest acc s =
  finish s (walk (clipCount s) (flatClips rest))
         (acc ++ attachScenes (clipCount s) rest).
Proof.
  unfold finish, flatClips.
  induction rest as [|sc rest IH]; intros acc s; cbn.
  - unfold ret. rewrite !app_nil_r. by destruct s.
  - unfold bind. rewrite clipLoop_walk, walk_app. cbn zeta.
    destruct (walk (clipCount s) (map (pair sc) (Structure.clips sc)))
      as [[evs m] [e|]] eqn:W; [done|]. cbn [fst snd].
    rewrite IH. cbn [events clipCount].
    apply walk_ok in W as [-> _]. rewrite length_map.
    destruct (walk _ (concat _)) as [[evs2 m2] stop]. cbn.
    rewrite <- !app_assoc. done.
Qed.

Lemma clipResult_quiet n it : forallb quiet (clipResult n it).1 = true.
Proof.
  unfold clipResult. destruct (mediaReply _ _ _ _) as [|[ir ar]]; [done|].
  by destruct (_ || _).
Qed.

Lemma loopEvents_app n l1 l2 :
  loopEvents n (l1 ++ l2) = loopEvents n l1 ++ loopEvents (n + length l1) l2.
Proof.
  revert n; induction l1 as [|it l1 IH]; intros n; cbn -[clipEvents].
  - by rewrite Nat.add_0_r.
  - rewrite IH, <- app_assoc. do 3 f_equal. lia.
Qed.

Lemma loopEvents_imap n items :
  loopEvents n items = concat (imap (fun i it => clipEvents (S (n + i)) it) items).
Proof.
  revert n; induction items as [|it items IH]; intros n; cbn -[clipEvents]; [done|].
  rewrite Nat.add_0_r, IH. do 2 f_equal. apply imap_ext. intros i x _. cbn.
  f_equal. lia.
Qed.

(** As long as the iterations succeed the walk goes on. *)
Lemma walk_prefix n pre rest :
  (forall i it, pre !! i = Some it -> clipSucceeds (S (n + i)) it = true) ->
  walk n (pre ++ rest) =
  let '(evs, m, stop) := walk (n + length pre) rest in
  (loopEvents n pre ++ evs, m, stop).
Proof.
  revert n; induction pre as [|it pre IH]; intros n Hok; cbn -[clipEvents].
  - rewrite Nat.add_0_r. by destruct (walk n rest) as [[??]?].
  - pose proof (Hok 0 it eq_refl) as H0. rewrite Nat.add_0_r in H0.
    unfold clipSucceeds in H0.
    destruct (clipResult (S n) it).2 as [e|c]; [done|].
    rewrite IH.
    + replace (S n + length pre) with (n + S (length pre)) by lia.
      destruct (walk _ rest) as [[evs m] stop]. by rewrite <- app_assoc.
    + intros i it' Hi. replace (S n + i) with (n + S i) by lia.
      by apply (Hok (S i)).
Qed.

(** Every walk emits the blocks of its first [k] iterations and then only
    console output; it runs through all the items exactly when it is not
    stopped. *)
Lemma walk_shape n items :
  exists k tail,
    k <= length items /\
    (walk n items).1.1 = loopEvents n (take k items) ++ tail /\
    forallb quiet tail = true /\
    match (walk n items).2 with
    | None => k = length items /\ tail = [] /\ (walk n items).1.2 = n + k
    | Some _ => 1 <= k
    end.
Proof.
  revert n; induction items as [|it items IH]; intros n.
  - exists 0, []. cbn. repeat split; lia || done.
  - cbn -[clipEvents]. destruct (clipResult (S n) it).2 as [e|c] eqn:E.
    + exists 1, (clipResult (S n) it).1. cbn -[clipEvents].
      rewrite app_nil_r. repeat split; [lia|apply clipResult_quiet|lia].
    + destruct (IH (S n)) as (k & tail & Hk & Hev & Hq & Hstop).
      destruct (walk (S n) items) as [[evs m] stop]. cbn -[clipEvents] in *.
      exists (S k), tail. cbn -[clipEvents]. subst evs.
      rewrite <- app_assoc. repeat split; [lia|done|].
      destruct stop; [lia|]. destruct Hstop as (-> & -> & ->).
      repeat split; lia || done.
Qed.

Lemma structureOfClip_clipOf n it : structureOfClip (clipOf n it) = it.2.
Proof.
  unfold clipOf, clipResult. destruct it as [sc [c na pr]]; cbn.
  destruct (mediaReply _ _ _ _) as [|[ir ar]]; [done|].
  by destruct (_ || _).
Qed.

Lemma structureOf_attachClips sc n cls :
  map structureOfClip (attachClips sc n cls) = cls.
Proof.
  revert n; induction cls as [|cl cls IH]; intros n; cbn -[clipOf]; [done|].
  by rewrite structureOfClip_clipOf, IH.
Qed.

Lemma structureOf_attachScenes n scs : structureOf (attachScenes n scs) = scs.
Proof.
  revert n; induction scs as [|[no cls] scs IH]; intros n; [done|].
  change (structureOfScene {| scene := no; clips := attachClips (Structure.Build_StoryboardStructureScene no cls) n cls |}
          :: structureOf (attachScenes (n + length cls) scs)
          = Structure.Build_StoryboardStructureScene no cls :: scs).
  rewrite IH. unfold structureOfScene. cbn [scene clips].
  by rewrite structureOf_attachClips.
Qed.

End WalkFacts.

Lemma totalClipsOf_flat st : totalClipsOf st = length (flatClips st).
Proof.
  unfold totalClipsOf, flatClips.
  enough (forall a, fold_left (fun acc sc => acc + length (Structure.clips sc)) st a
                    = a + length (concat (map (fun sc => map (pair sc) (Structure.clips sc)) st)))
    as H by apply (H 0).
  induction st as [|sc st IH]; intros a; cbn; [lia|].
  rewrite IH, length_app, length_map. lia.
Qed.

Lemma responseSchema_unbounded st : conforms responseSchema (structureJSON st) = true.
Proof.
  cbn. apply forallb_forall. intros v Hv.
  apply in_map_iff in Hv as (sc & <- & _). cbn.
  rewrite andb_true_r. apply forallb_forall. intros w Hw.
  by apply in_map_iff in Hw as (c & <- & _).
Qed.

(** ** [generateStoryboard] *)

Section PipelineFacts.

Variable numberToString : Z -> string.
Variable JSON_parse : string -> option StoryboardStructure.
Variable ai : Remote.

Lemma structureStage_eq formData :
  structureStage JSON_parse ai formData initialRun =
  ({| events := opening formData; clipCount := 0 |},
   match structureReply ai (storyPrompt formData) with
   | Rejected reason => inl (RemoteFailure reason)
   | Resolved t =>
       match decoded JSON_parse t with
       | Some st => inr st
       | None => inl SyntaxError
       end
   end).
Proof.
  unfold structureStage, bind, onProgress, emit, await, parseStructure, decoded.
  cbn. destruct (structureReply ai _) as [reason|[t|]]; cbn; [done| |done].
  by destruct (JSON_parse t).
Qed.

Lemma generateStoryboard_eq formData :
  generateStoryboard numberToString JSON_parse ai formData =
  match structureReply ai (storyPrompt formData) with
  | Rejected reason => (opening formData, inl (RemoteFailure reason))
  | Resolved t =>
      match decoded JSON_parse t with
      | None => (opening formData, inl SyntaxError)
      | Some st =>
          let w := walk numberToString ai formData (totalClipsOf st) 0 (flatClips st) in
          match w.2 with
          | Some e => (opening formData ++ loopStart :: w.1.1, inl e)
          | None => (opening formData ++ loopStart :: w.1.1 ++ [completion],
                     inr (attachScenes numberToString ai formData 0 st))
          end
      end
  end.
Proof.
  unfold generateStoryboard, generateStoryboardM, bind.
  rewrite structureStage_eq.
  destruct (structureReply ai _) as [reason|t]; [done|].
  destruct (decoded JSON_parse t) as [st|]; [|done].
  unfold mediaStage, bind, onProgress, emit, setClipCount. cbn [events clipCount].
  rewrite sceneLoop_walk. unfold finish. cbn [events clipCount fst snd].
  destruct (walk _ _ _ _ _ _) as [[evs m] [e|]]; cbn; [done|].
  unfold ret. cbn. by rewrite <- ?app_assoc.
Qed.

End PipelineFacts.

(** ** The numbers in a message can be read back *)

Lemma occurs_pretty_N_go c x : forall s,
  (forall d, pretty_N_char d <> c) ->
  occurs c s = false ->
  occurs c (pretty_N_go x s) = false.
Proof.
  induction (N.lt_wf_0 x) as [x _ IH]; intros s Hc Hs.
  destruct (decide (x = 0)%N) as [->|Hx]; [by rewrite pretty_N_go_0|].
  rewrite pretty_N_go_step by lia. apply IH; [apply N.div_lt; lia|done|].
  cbn [occurs]. rewrite Hs, orb_false_r. apply Ascii.eqb_neq, Hc.
Qed.

Lemma occurs_pretty_Z c (z : Z) :
  (forall d, pretty_N_char d <> c) ->
  c <> "-"%char ->
  occurs c (pretty z) = false.
Proof.
  intros Hc Hdash.
  assert (forall x : N, occurs c (pretty x) = false) as HN.
  { intros x. unfold pretty, pretty_N. destruct (decide (x = 0)%N).
    - cbn [occurs]. rewrite orb_false_r. apply Ascii.eqb_neq. apply (Hc 0%N).
    - by apply occurs_pretty_N_go. }
  destruct z as [|q|q]; unfold pretty, pretty_Z.
  - cbn [occurs]. rewrite orb_false_r. apply Ascii.eqb_neq. apply (Hc 0%N).
  - apply HN.
  - change (occurs c (String "-" (pretty (Npos q))) = false).
    cbn [occurs]. rewrite (HN (Npos q)), orb_false_r.
    apply Ascii.eqb_neq. congruence.
Qed.

(** Two texts free of [c] that are followed by [c] end at the same place. *)
Lemma split_at_separator c : forall a a' x x',
  occurs c a = false ->
  occurs c a' = false ->
  a +:+ String c x = a' +:+ String c x' ->
  a = a' /\ x = x'.
Proof.
  induction a as [|h a IH]; intros [|h' a'] x x';
    cbn [occurs String.append]; intros Ha Ha' Heq.
  - by injection Heq as ->.
  - injection Heq as -> _. by rewrite Ascii.eqb_refl in Ha'.
  - injection Heq as -> _. by rewrite Ascii.eqb_refl in Ha.
  - injection Heq as -> Heq.
    apply orb_false_elim in Ha as [_ Ha]. apply orb_false_elim in Ha' as [_ Ha'].
    destruct (IH a' x x' Ha Ha' Heq) as [-> ->]. done.
Qed.

Lemma append_assoc s1 s2 s3 : (s1 +:+ s2) +:+ s3 = s1 +:+ s2 +:+ s3.
Proof.
  induction s1 as [|a s1 IH]; [done|].
  change (String a ((s1 +:+ s2) +:+ s3) = String a (s1 +:+ s2 +:+ s3)).
  by rewrite IH.
Qed.

Lemma occurs_app c s1 s2 : occurs c (s1 +:+ s2) = occurs c s1 || occurs c s2.
Proof.
  induction s1 as [|a s1 IH]; [done|].
  change (occurs c (String a (s1 +:+ s2)) = occurs c (String a s1) || occurs c s2).
  cbn [occurs]. by rewrite IH, orb_assoc.
Qed.

Lemma length_append s1 s2 :
  String.length (s1 +:+ s2) = String.length s1 + String.length s2.
Proof.
  induction s1 as [|a s1 IH]; [done|].
  change (S (String.length (s1 +:+ s2)) = S (String.length s1 + String.length s2)).
  by rewrite IH.
Qed.

(** Two texts that are followed by the same text. *)
Lemma append_cancel_r t : forall s s', s +:+ t = s' +:+ t -> s = s'.
Proof.
  induction s as [|a s IH]; intros [|a' s'] Heq; [done| | |].
  - apply (f_equal String.length) in Heq.
    change (String a' s' +:+ t) with (String a' (s' +:+ t)) in Heq.
    change (EmptyString +:+ t) with t in Heq.
    cbn [String.length] in Heq. rewrite length_append in Heq. lia.
  - apply (f_equal String.length) in Heq.
    change (String a s +:+ t) with (String a (s +:+ t)) in Heq.
    change (EmptyString +:+ t) with t in Heq.
    cbn [String.length] in Heq. rewrite length_append in Heq. lia.
  - change (String a (s +:+ t) = String a' (s' +:+ t)) in Heq.
    injection Heq as -> Heq. by rewrite (IH s' Heq).
Qed.

Lemma afterLast_app c t : forall a,
  occurs c t = false -> afterLast c (a +:+ String c t) = t.
Proof.
  intros a Ht. induction a as [|h a IH].
  - change (afterLast c (String c t) = t). cbn [afterLast].
    by rewrite Ascii.eqb_refl, Ht.
  - change (afterLast c (String h (a +:+ String c t)) = t). cbn [afterLast].
    rewrite occurs_app. cbn [occurs]. rewrite Ascii.eqb_refl.
    by rewrite orb_true_r, andb_false_r.
Qed.

(** *** The text of a number *)

(** A character that no number is written with does not occur in the text of
    a number. *)
Lemma printed_without numberToString c z :
  NumberPrinting numberToString ->
  occurs c numberChars = false -> occurs c (numberToString z) = false.
Proof.
  intros printing Hc. destruct (occurs c (numberToString z)) eqn:E; [|done].
  apply (printing_chars _ printing) in E. congruence.
Qed.

Lemma clipFailure_inj numberToString clipNo sceneNo clipNo' sceneNo' :
  NumberPrinting numberToString ->
  clipFailure numberToString clipNo sceneNo
  = clipFailure numberToString clipNo' sceneNo' ->
  clipNo = clipNo' /\ sceneNo = sceneNo'.
Proof.
  unfold clipFailure. intros printing Heq. cbn in Heq.
  repeat (injection Heq as Heq).
  apply (split_at_separator " "%char) in Heq as [Hclip Heq];
    [|by apply printed_without..].
  apply (printing_inj _ printing) in Hclip. split; [done|].
  repeat (injection Heq as Heq).
  apply append_cancel_r in Heq. by apply (printing_inj _ printing) in Heq.
Qed.

Lemma digit_is_a_number_char d : occurs (pretty_N_char d) numberChars = true.
Proof. unfold pretty_N_char. by repeat case_match. Qed.

(** Decimal digits after a sign are a way to print numbers. *)
Lemma decimal_printing : NumberPrinting decimal.
Proof.
  split.
  - intros z c Hc. destruct (occurs c numberChars) eqn:E; [done|].
    unfold decimal in Hc. rewrite (occurs_pretty_Z c z) in Hc; [done| |].
    + intros d <-. by rewrite digit_is_a_number_char in E.
    + by intros ->.
  - intros z z'. apply (inj pretty).
Qed.

(** ** Stage one: what is decoded and what is checked *)

(** C1 as stated does not hold.  The backend answers the structure request
    with a text that decodes to one scene holding one clip; that value conforms
    to the response schema, no decode error is raised, and the pipeline returns
    a storyboard of one scene with one clip. *)
Lemma one_scene_one_clip_is_accepted :
  conforms responseSchema (structureJSON oneByOne) = true /\
  (generateStoryboard decimal fakeParse (fakeRemote "<one scene of one clip>" 0) fakeForm).2
  = inr [ {| scene := 1;
             clips := [ {| clip := 1;
                           narration := "narasi";
                           prompt := "wide shot";
                           image := "data:image/png;base64,aW1n";
                           audio := "AAD/fw==" |} ] |} ].
Proof. split; reflexivity. Qed.

(** C1, amended.  Stage one returns exactly the structure that [JSON.parse]
    decodes from the response text, whatever its numbers of scenes and clips.
    The response schema fixes the names and types of the fields only: every
    typed structure conforms to it.  The one decode failure is the
    [SyntaxError] of [JSON.parse] on a text that is not JSON (or on a response
    without text). *)
Theorem structure_is_decoded_unchecked
    (JSON_parse : string -> option StoryboardStructure) (ai : Remote)
    (formData : FormData) (responseText : option string) :
  structureReply ai (storyPrompt formData) = Resolved responseText ->
  match decoded JSON_parse responseText with
  | Some st =>
      (structureStage JSON_parse ai formData initialRun).2 = inr st /\
      conforms responseSchema (structureJSON st) = true
  | None =>
      (structureStage JSON_parse ai formData initialRun).2 = inl SyntaxError
  end.
Proof.
  intros Hreply. rewrite structureStage_eq, Hreply. cbn [snd].
  destruct (decoded JSON_parse responseText) as [st|]; [|done].
  split; [done|apply responseSchema_unbounded].
Qed.

Lemma structure_is_decoded_unchecked_witness :
  (structureStage fakeParse (fakeRemote "<one scene of one clip>" 0) fakeForm initialRun).2
  = inr oneByOne /\
  conforms responseSchema (structureJSON oneByOne) = true.
Proof.
  exact (structure_is_decoded_unchecked fakeParse
           (fakeRemote "<one scene of one clip>" 0) fakeForm
           (Some "<one scene of one clip>") eq_refl).
Defined.

(** ** Stage two: failure of one clip *)

Lemma media_requests_of_loop numberToString formData totalClips n items :
  length (List.filter isMediaRequest (loopEvents numberToString formData totalClips n items))
  = 2 * length items.
Proof.
  revert n; induction items as [|it items IH]; intros n; cbn; [done|].
  rewrite IH. lia.
Qed.

(** C2.  Let the clip iteration of [cl] in scene [sc] be reached (stage one has
    decoded the structure and every earlier iteration has succeeded) and let
    its image response or its audio response carry no inline payload.  Then
    [generateStoryboard] rejects with the error whose message is the text of
    line 144 around the clip number of [cl] and the scene number of [sc], as
    the platform prints them; no storyboard is returned; and the trace ends
    with that iteration: no request is issued for a later clip.  The message
    identifies the two numbers: since the text of a number holds no space and
    different numbers have different texts, no other pair of numbers gives
    that message. *)
Theorem missing_payload_aborts
    (numberToString : Z -> string)
    (JSON_parse : string -> option StoryboardStructure) (ai : Remote)
    (formData : FormData) (responseText : string) (st : StoryboardStructure)
    (pre post : list (StoryboardStructureScene * StoryboardStructureClip))
    (sc : StoryboardStructureScene) (cl : StoryboardStructureClip)
    (imageResponse audioResponse : GenerateContentResponse) :
  structureReply ai (storyPrompt formData) = Resolved (Some responseText) ->
  JSON_parse responseText = Some st ->
  flatClips st = pre ++ (sc, cl) :: post ->
  (forall i it, pre !! i = Some it -> clipSucceeds numberToString ai formData (S i) it = true) ->
  mediaReply ai (S (length pre)) (imageParts formData cl) (Structure.narration cl)
    = Resolved (imageResponse, audioResponse) ->
  findInlineData imageResponse = None \/ findInlineData audioResponse = None ->
  let run := generateStoryboard numberToString JSON_parse ai formData in
  run.2 = inl (ClipError (clipFailure numberToString (Structure.clip cl) (Structure.scene sc))) /\
  (NumberPrinting numberToString ->
   forall clipNo sceneNo,
     clipFailure numberToString clipNo sceneNo
     = clipFailure numberToString (Structure.clip cl) (Structure.scene sc) ->
     clipNo = Structure.clip cl /\ sceneNo = Structure.scene sc) /\
  run.1 = opening formData
          ++ loopStart
          :: loopEvents numberToString formData (totalClipsOf st) 0 (pre ++ [(sc, cl)])
          ++ [ ConsoleError "Image Response:" imageResponse;
               ConsoleError "Audio Response:" audioResponse ] /\
  length (List.filter isMediaRequest run.1) = 2 * S (length pre).
Proof.
  intros Hreply Hparse Hflat Hpre Hmedia Hmissing run.
  assert (clipResult numberToString ai formData (S (length pre)) (sc, cl)
          = ([ ConsoleError "Image Response:" imageResponse;
               ConsoleError "Audio Response:" audioResponse ],
             inl (ClipError (clipFailure numberToString (Structure.clip cl) (Structure.scene sc)))))
    as Hres.
  { unfold clipResult. cbn [fst snd]. rewrite Hmedia.
    destruct Hmissing as [-> | ->]; cbn; [done|].
    by rewrite orb_true_r. }
  assert (run = (opening formData
                 ++ loopStart
                 :: loopEvents numberToString formData (totalClipsOf st) 0 (pre ++ [(sc, cl)])
                 ++ [ ConsoleError "Image Response:" imageResponse;
                      ConsoleError "Audio Response:" audioResponse ],
                 inl (ClipError (clipFailure numberToString (Structure.clip cl) (Structure.scene sc)))))
    as ->.
  { unfold run. rewrite generateStoryboard_eq, Hreply. cbn [decoded].
    rewrite Hparse, Hflat. cbn zeta.
    rewrite (walk_prefix numberToString ai formData (totalClipsOf st) 0 pre ((sc, cl) :: post)) by done.
    cbn [walk Nat.add]. rewrite Hres. cbn [fst snd].
    rewrite loopEvents_app. cbn [loopEvents Nat.add].
    by rewrite app_nil_r, <- !app_assoc. }
  cbn [fst snd]. split_and!; [done|intros ???; by apply clipFailure_inj|done|].
  rewrite List.filter_app. unfold loopStart.
  cbn [opening List.filter isMediaRequest app length].
  rewrite List.filter_app, length_app, media_requests_of_loop.
  rewrite length_app. cbn. lia.
Qed.

Lemma missing_payload_aborts_witness :
  let run := generateStoryboard decimal fakeParse
               (fakeRemote "<four scenes of three clips>" 6) fakeForm in
  run.2 = inl (ClipError
    "Gagal membuat konten untuk klip 3 di adegan 2. Respon API tidak valid atau diblokir.") /\
  (forall clipNo sceneNo,
     clipFailure decimal clipNo sceneNo = clipFailure decimal 3 2 ->
     clipNo = 3%Z /\ sceneNo = 2%Z) /\
  run.1 = opening fakeForm
          ++ loopStart
          :: loopEvents decimal fakeForm 12 0 (take 6 (flatClips fourByThree))
          ++ [ ConsoleError "Image Response:" blockedResponse;
               ConsoleError "Audio Response:" (inlineResponse "AAD/fw==") ] /\
  length (List.filter isMediaRequest run.1) = 12.
Proof.
  destruct (missing_payload_aborts decimal fakeParse
              (fakeRemote "<four scenes of three clips>" 6) fakeForm
              "<four scenes of three clips>" fourByThree
              (take 5 (flatClips fourByThree)) (drop 6 (flatClips fourByThree))
              (fakeScene 2 [1; 2; 3]%Z) (fakeClip 3)
              blockedResponse (inlineResponse "AAD/fw=="))
    as (Herror & Hnames & Htrace & Hrequests).
  - reflexivity.
  - reflexivity.
  - reflexivity.
  - intros i it Hi. do 5 (destruct i as [|i]; [injection Hi as <-; reflexivity|]).
    discriminate Hi.
  - reflexivity.
  - left. reflexivity.
  - split_and!; [exact Herror|exact (Hnames decimal_printing)|exact Htrace|exact Hrequests].
Defined.

(** ** Stage two: the shape of the result *)

Lemma structureOf_lengths sb :
  length (structureOf sb) = length sb /\
  map Structure.scene (structureOf sb) = map scene sb /\
  map (fun sc => length (Structure.clips sc)) (structureOf sb)
  = map (fun sc => length (clips sc)) sb /\
  length (flatClips (structureOf sb)) = clipsIn sb.
Proof.
  unfold structureOf, clipsIn, flatClips. rewrite length_map. split; [done|].
  induction sb as [|sc sb (IH1 & IH2 & IH3)]; cbn; [done|].
  rewrite IH1, IH2, !length_app, IH3, !length_map. done.
Qed.

(** C3.  Whenever [generateStoryboard] resolves, stage one has decoded a
    structure [st] and the storyboard returned is [st] with an image and an
    audio field added to every clip: forgetting these two fields gives [st]
    back.  In particular the scene count, the scene numbers in order, the clip
    count of every scene, in order, and the total clip count are those of
    [st], and so are the clip number, the narration and the prompt of every
    clip, in order. *)
Theorem storyboard_has_the_shape_of_the_structure
    (numberToString : Z -> string)
    (JSON_parse : string -> option StoryboardStructure) (ai : Remote)
    (formData : FormData) (trace : list Event) (sb : Storyboard) :
  generateStoryboard numberToString JSON_parse ai formData = (trace, inr sb) ->
  exists responseText st,
    structureReply ai (storyPrompt formData) = Resolved (Some responseText) /\
    JSON_parse responseText = Some st /\
    structureOf sb = st /\
    length sb = length st /\
    map scene sb = map Structure.scene st /\
    map (fun sc => length (clips sc)) sb
    = map (fun sc => length (Structure.clips sc)) st /\
    map (fun sc => map structureOfClip (clips sc)) sb = map Structure.clips st /\
    clipsIn sb = totalClipsOf st.
Proof.
  rewrite generateStoryboard_eq.
  destruct (structureReply ai _) as [reason|[responseText|]]; [done| |done].
  cbn [decoded]. destruct (JSON_parse responseText) as [st|] eqn:Hparse; [|done].
  cbn zeta. destruct (walk _ _ _ _ _ _) as [[evs m] [e|]]; [done|].
  cbn [fst snd]. intros [= _ <-].
  pose proof (structureOf_attachScenes numberToString ai formData 0 st) as Hst.
  pose proof (structureOf_lengths (attachScenes numberToString ai formData 0 st)) as (H1 & H2 & H3 & H4).
  rewrite Hst in H1, H2, H3, H4.
  exists responseText, st. repeat split; try done.
  - rewrite <- Hst at 2. unfold structureOf. rewrite map_map. done.
  - by rewrite totalClipsOf_flat.
Qed.

Lemma storyboard_has_the_shape_of_the_structure_witness :
  exists responseText st,
    structureReply (fakeRemote "<four scenes of three clips>" 0) (storyPrompt fakeForm)
      = Resolved (Some responseText) /\
    fakeParse responseText = Some st /\
    structureOf (attachScenes decimal (fakeRemote "<four scenes of three clips>" 0) fakeForm 0 fourByThree)
      = st /\
    length (attachScenes decimal (fakeRemote "<four scenes of three clips>" 0) fakeForm 0 fourByThree)
      = length st /\
    map scene (attachScenes decimal (fakeRemote "<four scenes of three clips>" 0) fakeForm 0 fourByThree)
      = map Structure.scene st /\
    map (fun sc => length (clips sc))
        (attachScenes decimal (fakeRemote "<four scenes of three clips>" 0) fakeForm 0 fourByThree)
      = map (fun sc => length (Structure.clips sc)) st /\
    map (fun sc => map structureOfClip (clips sc))
        (attachScenes decimal (fakeRemote "<four scenes of three clips>" 0) fakeForm 0 fourByThree)
      = map Structure.clips st /\
    clipsIn (attachScenes decimal (fakeRemote "<four scenes of three clips>" 0) fakeForm 0 fourByThree)
      = totalClipsOf st.
Proof.
  apply (storyboard_has_the_shape_of_the_structure decimal fakeParse
           (fakeRemote "<four scenes of three clips>" 0) fakeForm
           (generateStoryboard decimal fakeParse
              (fakeRemote "<four scenes of three clips>" 0) fakeForm).1).
  vm_compute. reflexivity.
Defined.

(** ** Progress reporting *)

(** C4 as stated does not hold for a run that aborts.  Over a structure of
    twelve clips whose sixth iteration comes back without an image, the
    callback is invoked six times during the media loop, not twelve. *)
Lemma aborted_run_reports_fewer_clips :
  let run := generateStoryboard decimal fakeParse
               (fakeRemote "<four scenes of three clips>" 6) fakeForm in
  totalClipsOf fourByThree = 12 /\
  take 3 run.1 = opening fakeForm ++ [loopStart] /\
  length (List.filter isProgress (drop 3 run.1)) = 6.
Proof. repeat split; vm_compute; reflexivity. Qed.

(** C4, amended.  In every run of [generateStoryboard] over a structure
    totalling [C] clips the callback is invoked once before the structure
    request is issued and once before the media loop begins; the loop then
    goes through [k] iterations, the [i]-th of them invoking the callback with
    the counter [i/C] before it issues its image and its audio request, so the
    counters are 1/C, 2/C, ..., k/C.  A run that returns a storyboard has
    [k = C] and ends with the completion message; a run that aborts in the loop
    has [1 <= k <= C], [k] being the iteration that failed, and nothing but
    console output follows. *)
Theorem progress_is_reported_in_order
    (numberToString : Z -> string)
    (JSON_parse : string -> option StoryboardStructure) (ai : Remote)
    (formData : FormData) (responseText : string) (st : StoryboardStructure) :
  structureReply ai (storyPrompt formData) = Resolved (Some responseText) ->
  JSON_parse responseText = Some st ->
  let run := generateStoryboard numberToString JSON_parse ai formData in
  let C := totalClipsOf st in
  exists k tail,
    run.1 = [ Progress "Menganalisis cerita dan karakter...";
              StructureRequest (storyPrompt formData);
              Progress "Membuat visual untuk setiap klip..." ]
            ++ concat (imap (fun i it =>
                 [ Progress (clipProgress numberToString (Structure.scene it.1) (Structure.clip it.2) (S i) C);
                   ImageRequest (imageParts formData it.2);
                   AudioRequest (Structure.narration it.2) ])
                 (take k (flatClips st)))
            ++ tail /\
    k <= C /\
    length (flatClips st) = C /\
    match run.2 with
    | inr _ => k = C /\ tail = [ Progress "Selesai!" ]
    | inl _ => 1 <= k /\ forallb quiet tail = true
    end.
Proof.
  intros Hreply Hparse run C. unfold run.
  rewrite generateStoryboard_eq, Hreply. cbn [decoded]. rewrite Hparse. cbn zeta.
  fold C.
  destruct (walk_shape numberToString ai formData C 0 (flatClips st))
    as (k & tail & Hk & Hev & Hq & Hstop).
  rewrite loopEvents_imap in Hev. cbn [Nat.add] in Hev.
  assert (length (flatClips st) = C) as HC by (symmetry; apply totalClipsOf_flat).
  destruct (walk numberToString ai formData C 0 (flatClips st)) as [[evs m] [e|]];
    cbn [fst snd] in *; subst evs.
  - exists k, tail. split_and!; [|lia|done|lia|done].
    unfold opening, loopStart, clipEvents. cbn. done.
  - destruct Hstop as (-> & -> & _).
    exists (length (flatClips st)), [Progress "Selesai!"].
    split_and!; [|lia|done|done|done].
    unfold opening, loopStart, completion, clipEvents. cbn.
    by rewrite app_nil_r.
Qed.

Lemma progress_is_reported_in_order_witness :
  let run := generateStoryboard decimal fakeParse
               (fakeRemote "<four scenes of three clips>" 0) fakeForm in
  exists k tail,
    run.1 = [ Progress "Menganalisis cerita dan karakter...";
              StructureRequest (storyPrompt fakeForm);
              Progress "Membuat visual untuk setiap klip..." ]
            ++ concat (imap (fun i it =>
                 [ Progress (clipProgress decimal (Structure.scene it.1) (Structure.clip it.2) (S i) 12);
                   ImageRequest (imageParts fakeForm it.2);
                   AudioRequest (Structure.narration it.2) ])
                 (take k (flatClips fourByThree)))
            ++ tail /\
    k <= 12 /\
    length (flatClips fourByThree) = 12 /\
    match run.2 with
    | inr _ => k = 12 /\ tail = [ Progress "Selesai!" ]
    | inl _ => 1 <= k /\ forallb quiet tail = true
    end.
Proof.
  exact (progress_is_reported_in_order decimal fakeParse
           (fakeRemote "<four scenes of three clips>" 0) fakeForm
           "<four scenes of three clips>" fourByThree eq_refl eq_refl).
Defined.

(** ** Extraction of the inline payload *)

(** C6.  [findInlineData] returns the data of the first part that carries
    inline data among the parts of the first candidate, and returns no payload
    when there is no candidate list, when the list is empty, when the first
    candidate has no content, when that content has no parts, or when no part
    carries inline data.  Being a total function it never throws. *)
Theorem findInlineData_first_inline_part (response : GenerateContentResponse) :
  (forall c cs ct pre p post blob,
     candidates response = Some (c :: cs) ->
     content c = Some ct ->
     parts ct = Some (pre ++ p :: post) ->
     Forall (fun q => inlineData q = None) pre ->
     inlineData p = Some blob ->
     findInlineData response = data blob) /\
  (candidates response = None \/ candidates response = Some [] ->
   findInlineData response = None) /\
  (forall c cs,
     candidates response = Some (c :: cs) ->
     content c = None ->
     findInlineData response = None) /\
  (forall c cs ct,
     candidates response = Some (c :: cs) ->
     content c = Some ct ->
     parts ct = None ->
     findInlineData response = None) /\
  (forall c cs ct ps,
     candidates response = Some (c :: cs) ->
     content c = Some ct ->
     parts ct = Some ps ->
     Forall (fun q => inlineData q = None) ps ->
     findInlineData response = None).
Proof.
  unfold findInlineData, firstCandidateParts.
  repeat split.
  - intros c cs ct pre p post blob -> -> -> Hpre Hp.
    induction Hpre as [|q pre Hq _ IH]; cbn.
    + by rewrite Hp.
    + by rewrite Hq.
  - by intros [-> | ->].
  - by intros c cs -> ->.
  - by intros c cs ct -> -> ->.
  - intros c cs ct ps -> -> -> Hps.
    induction Hps as [|q ps Hq _ IH]; cbn; [done|]. by rewrite Hq.
Qed.

Lemma findInlineData_first_inline_part_witness :
  findInlineData captionedResponse = Some "Zmlyc3Q=" /\
  findInlineData blockedResponse = None /\
  findInlineData {| candidates := Some [ {| content := None |} ] |} = None /\
  findInlineData {| candidates := Some [ {| content := Some {| parts := None |} |} ] |}
  = None /\
  findInlineData
    {| candidates := Some [ {| content := Some {| parts := Some [ textPart "caption" ] |} |} ] |}
  = None.
Proof.
  split_and!.
  - apply (proj1 (findInlineData_first_inline_part captionedResponse)
             {| content := Some captionedContent |} [ {| content := None |} ]
             captionedContent
             [ textPart "caption" ]
             (fileToGenerativePart "Zmlyc3Q=" "image/png")
             [ fileToGenerativePart "c2Vjb25k" "image/png" ]
             {| data := Some "Zmlyc3Q="; mimeType := Some "image/png" |});
      [reflexivity|reflexivity|reflexivity| |reflexivity].
    repeat constructor.
  - apply (proj1 (proj2 (findInlineData_first_inline_part blockedResponse))).
    right. reflexivity.
  - apply (proj1 (proj2 (proj2 (findInlineData_first_inline_part _)))
             {| content := None |} []); reflexivity.
  - apply (proj1 (proj2 (proj2 (proj2 (findInlineData_first_inline_part _))))
             {| content := Some {| parts := None |} |} [] {| parts := None |});
      reflexivity.
  - apply (proj2 (proj2 (proj2 (proj2 (findInlineData_first_inline_part _))))
             {| content := Some {| parts := Some [ textPart "caption" ] |} |} []
             {| parts := Some [ textPart "caption" ] |} [ textPart "caption" ]);
      [reflexivity|reflexivity|reflexivity|].
    repeat constructor.
Defined.

(** ** Decoding of the audio payload *)

Lemma forIndex_fills {A} (f : nat -> A) n : forall i a,
  i + n = length a ->
  forIndex f i n a = take i a ++ map f (seq i n).
Proof.
  induction n as [|n IH]; intros i a Hlen; cbn.
  - rewrite app_nil_r, take_ge; [done|lia].
  - rewrite IH by (rewrite length_insert; lia).
    rewrite (take_S_r _ i (f i)).
    + rewrite take_insert_ge by lia. by rewrite <- app_assoc.
    + apply list_lookup_insert_eq. lia.
Qed.

Lemma forIndex_whole {A} (f : nat -> A) (a : list A) :
  forIndex f 0 (length a) a = map f (seq 0 (length a)).
Proof. by rewrite forIndex_fills. Qed.

Lemma int16View_lookup buffer i lo hi :
  buffer !! (2 * i) = Some lo ->
  buffer !! (2 * i + 1) = Some hi ->
  int16View buffer !! i = Some (int16 lo hi).
Proof.
  revert buffer; induction i as [|i IH]; intros [|b0 [|b1 rest]]; try done.
  - cbn. by intros [= ->] [= ->].
  - replace (2 * S i) with (S (S (2 * i))) by lia. cbn [lookup list_lookup Nat.add].
    intros H0 H1. cbn [int16View]. by apply (IH rest).
Qed.

Lemma int16View_length buffer N :
  length buffer = 2 * N -> length (int16View buffer) = N.
Proof.
  revert buffer; induction N as [|N IH]; intros [|b0 [|b1 rest]]; cbn; try done; try lia.
  intros H. f_equal. apply IH. lia.
Qed.

Lemma int16_signed lo hi :
  (-32768 <= int16 lo hi < 32768)%Z /\
  (int16 lo hi mod 65536 = Z.of_N (Byte.to_N lo) + 256 * Z.of_N (Byte.to_N hi))%Z.
Proof.
  unfold int16.
  pose proof (Byte.to_N_bounded lo) as Hlo. pose proof (Byte.to_N_bounded hi) as Hhi.
  set (u := (Z.of_N (Byte.to_N lo) + 256 * Z.of_N (Byte.to_N hi))%Z).
  assert (0 <= u < 65536)%Z as Hu by (unfold u; lia).
  destruct (Z.ltb_spec u 32768).
  - split; [lia|]. apply Z.mod_small. lia.
  - split; [lia|]. symmetry. apply (Z.mod_unique_pos _ _ (-1)); lia.
Qed.

Lemma even_double N : Nat.even (2 * N) = true.
Proof. rewrite Nat.even_mul. done. Qed.

Lemma decodeAudioData_eq data ctx N :
  length data = 2 * N ->
  1 <= N ->
  decodeAudioData data ctx
  = inr {| numberOfChannels := 1;
           sampleRate := 24000;
           channelData := map (sampleValue (int16View data)) (seq 0 N) |}.
Proof.
  intros Hlen HN. unfold decodeAudioData, Int16Array.
  rewrite Hlen, even_double, (int16View_length data N Hlen).
  unfold createBuffer. destruct N as [|N]; [lia|]. cbn [Nat.eqb orb].
  cbn [numberOfChannels sampleRate channelData]. do 2 f_equal.
  rewrite forIndex_fills by (rewrite length_replicate; lia). done.
Qed.

(** C5 as stated does not hold for [N = 0]: on the empty payload
    [createBuffer] is asked for a buffer of zero frames and throws. *)
Lemma empty_payload_is_not_decoded :
  length ([] : list byte) = 2 * 0 /\
  decodeAudioData [] {| contextSampleRate := 24000 |} = inl NotSupportedError.
Proof. split; reflexivity. Qed.

(** C5, amended.  A payload of [2 * N] bytes with [N >= 1] is decoded into a
    buffer of exactly [N] values; the [i]-th value is [s / 32768] where [s] is
    the signed 16-bit integer whose little-endian bytes are the bytes [2 * i]
    and [2 * i + 1] of the payload, so sign and order are kept. *)
Theorem decodeAudioData_samples (data : list byte) (ctx : AudioContext) (N : nat) :
  length data = 2 * N ->
  1 <= N ->
  exists audioBuffer,
    decodeAudioData data ctx = inr audioBuffer /\
    length (channelData audioBuffer) = N /\
    forall i, i < N ->
      exists lo hi s,
        data !! (2 * i) = Some lo /\
        data !! (2 * i + 1) = Some hi /\
        (-32768 <= s < 32768)%Z /\
        (s mod 65536 = Z.of_N (Byte.to_N lo) + 256 * Z.of_N (Byte.to_N hi))%Z /\
        channelData audioBuffer !! i = Some (inject_Z s / inject_Z 32768)%Q.
Proof.
  intros Hlen HN. eexists. split; [by apply decodeAudioData_eq|].
  cbn [channelData]. split; [by rewrite length_map, length_seq|].
  intros i Hi.
  destruct (lookup_lt_is_Some_2 data (2 * i)) as [lo Hlo]; [lia|].
  destruct (lookup_lt_is_Some_2 data (2 * i + 1)) as [hi Hhi]; [lia|].
  exists lo, hi, (int16 lo hi).
  destruct (int16_signed lo hi) as [Hrange Hmod].
  split_and!; try done; try lia.
  change (map ?f ?l) with (f <$> l).
  rewrite list_lookup_fmap, lookup_seq_lt by done. cbn.
  unfold sampleValue. do 3 f_equal.
  apply nth_lookup_Some. by apply int16View_lookup.
Qed.

Lemma decodeAudioData_samples_witness :
  exists audioBuffer,
    decodeAudioData [ "000"; "000"; "255"; "127"; "000"; "128" ]%byte
                    {| contextSampleRate := 24000 |} = inr audioBuffer /\
    length (channelData audioBuffer) = 3 /\
    forall i, i < 3 ->
      exists lo hi s,
        [ "000"; "000"; "255"; "127"; "000"; "128" ]%byte !! (2 * i) = Some lo /\
        [ "000"; "000"; "255"; "127"; "000"; "128" ]%byte !! (2 * i + 1) = Some hi /\
        (-32768 <= s < 32768)%Z /\
        (s mod 65536 = Z.of_N (Byte.to_N lo) + 256 * Z.of_N (Byte.to_N hi))%Z /\
        channelData audioBuffer !! i = Some (inject_Z s / inject_Z 32768)%Q.
Proof.
  apply (decodeAudioData_samples
           [ "000"; "000"; "255"; "127"; "000"; "128" ]%byte
           {| contextSampleRate := 24000 |} 3).
  - reflexivity.
  - lia.
Defined.

(** ** The player: what each operation does to the state *)

Lemma nodeOf_alter_eq f l s :
  s < length l -> nodeOf (alter f s l) s = f (nodeOf l s).
Proof.
  intros Hs. unfold nodeOf. rewrite list_lookup_alter_eq.
  destruct (lookup_lt_is_Some_2 l s Hs) as [n ->]. reflexivity.
Qed.

Lemma nodeOf_alter_ne f l s s' :
  s <> s' -> nodeOf (alter f s l) s' = nodeOf l s'.
Proof. intros Hs. unfold nodeOf. by rewrite list_lookup_alter_ne. Qed.

Lemma nodeOf_beyond l s : length l <= s -> nodeOf l s = freshNode.
Proof. intros Hs. unfold nodeOf. by rewrite lookup_ge_None_2. Qed.

Lemma started_in_range l s : started (nodeOf l s) = true -> s < length l.
Proof.
  intros Hs. destruct (Nat.lt_ge_cases s (length l)) as [|Hge]; [done|].
  by rewrite nodeOf_beyond in Hs.
Qed.

Lemma nodeOf_snoc l n s :
  nodeOf (l ++ [n]) s = if decide (s = length l) then n else nodeOf l s.
Proof.
  unfold nodeOf. destruct (decide (s = length l)) as [->|Hne].
  - by rewrite list_lookup_middle.
  - destruct (Nat.lt_ge_cases s (length l)).
    + by rewrite lookup_app_l.
    + rewrite !lookup_ge_None_2; [done|lia|rewrite length_app; cbn; lia].
Qed.

Lemma alter_last {A} (f : A -> A) (l : list A) (x : A) :
  alter f (length l) (l ++ [x]) = l ++ [f x].
Proof.
  replace (length l) with (length l + 0) at 1 by lia. by rewrite alter_app_r.
Qed.

Lemma invocations_app s l1 l2 :
  invocations s (l1 ++ l2) = invocations s l1 + invocations s l2.
Proof. unfold invocations. by rewrite List.filter_app, length_app. Qed.

(** The state [stopAudio] leaves when [currentSource] refers to [s]. *)
Lemma stopAudio_eq p :
  stopAudio p =
  match currentSource p with
  | None => (p, inr tt)
  | Some s =>
      if started (node s p) then
        ({| audioContext := audioContext p;
            currentSource := None;
            nodes := alter (withConnected false) s (alter withStopped s (nodes p));
            suspended := suspended p;
            log := log p ++ [NodeStopped s; NodeDisconnected s] |}, inr tt)
      else (p, inl InvalidStateError)
  end.
Proof.
  unfold stopAudio, bind, get. destruct (currentSource p) as [s|]; [|done].
  unfold stop, bind, get. destruct (started (node s p)); [|done].
  cbn. by rewrite <- app_assoc.
Qed.

Lemma getAudioContext_eq p :
  getAudioContext p = (withContext p, inr (contextOf p)).
Proof.
  unfold getAudioContext, bind, get. destruct p as [[ctx|] cs ns q l]; done.
Qed.

Lemma playAudio_resume_eq ctx audioBuffer onEnded p :
  playAudio_resume ctx audioBuffer onEnded p =
  ({| audioContext := audioContext p;
      currentSource := Some (length (nodes p));
      nodes := nodes p ++ [startedNode audioBuffer onEnded];
      suspended := suspended p;
      log := log p ++ [ NodeCreated (length (nodes p));
                        NodeConnected (length (nodes p));
                        NodeStarted (length (nodes p)) ] |}, inr tt).
Proof.
  unfold playAudio_resume, createBufferSource, assignBuffer, connect,
    assignOnended, start, update, bind, get, setNodes, observe, ret. cbn.
  rewrite !alter_last. unfold node. cbn [nodes].
  rewrite nodeOf_snoc, decide_True by done. cbn.
  rewrite alter_last. unfold startedNode, withStarted, withOnended. cbn.
  by rewrite <- !app_assoc.
Qed.

Lemma playAudio_begin_eq atob base64 p :
  playAudio_begin atob base64 p =
  match stopAudio p with
  | (p1, inl e) => (p1, inl e)
  | (p1, inr _) =>
      match decode atob base64 with
      | inl e => (withContext p1, inl e)
      | inr rawAudio =>
          match decodeAudioData rawAudio (contextOf p1) with
          | inl e => (withContext p1, inl e)
          | inr audioBuffer => (withContext p1, inr (contextOf p1, audioBuffer))
          end
      end
  end.
Proof.
  unfold playAudio_begin, bind. destruct (stopAudio p) as [p1 [e|[]]]; [done|].
  rewrite getAudioContext_eq.
  destruct (decode atob base64) as [e|rawAudio]; [done|]. cbn.
  by destruct (decodeAudioData rawAudio (contextOf p1)).
Qed.

Lemma dispatchEnded_eq s p :
  dispatchEnded s p =
  let l := alter withEnded s (nodes p) in
  match onended (nodeOf l s) with
  | Some onEnded =>
      ({| audioContext := audioContext p;
          currentSource := None;
          nodes := l;
          suspended := suspended p;
          log := log p ++ [Invoked s onEnded] |}, inr tt)
  | None =>
      ({| audioContext := audioContext p;
          currentSource := currentSource p;
          nodes := l;
          suspended := suspended p;
          log := log p |}, inr tt)
  end.
Proof.
  unfold dispatchEnded, onendedHandler, update, bind, get, setNodes. cbn.
  unfold node. cbn. by destruct (onended _).
Qed.

(** ** The player: what holds in every state *)

Lemma sameStatus_alter f l s s' :
  (forall n, sameStatus n (f n)) ->
  sameStatus (nodeOf l s') (nodeOf (alter f s l) s').
Proof.
  intros Hf. destruct (decide (s = s')) as [<-|Hne].
  - destruct (Nat.lt_ge_cases s (length l)).
    + rewrite nodeOf_alter_eq by done. apply Hf.
    + rewrite !nodeOf_beyond by (rewrite ?length_alter; done). by repeat split.
  - rewrite nodeOf_alter_ne by done. by repeat split.
Qed.

Lemma playing_started n : playing n = true -> started n = true.
Proof. unfold playing. by destruct (started n). Qed.

Lemma wellFormed_transfer p p' :
  wellFormed p ->
  (currentSource p' = None \/
   currentSource p' = currentSource p /\
   forall s, stopped (node s p') = stopped (node s p)) ->
  (forall s, sameStatus (node s p) (node s p')) ->
  (forall s, invocations s (log p') = invocations s (log p)) ->
  wellFormed p'.
Proof.
  intros (Ha & Hc & Hd) Hcs Hst Hlog. split_and!.
  - intros s Hs. destruct Hcs as [Hn|[Hsame Hstop]]; [by rewrite Hn in Hs|].
    rewrite Hsame in Hs. specialize (Ha s Hs). unfold playing in *.
    destruct (Hst s) as (-> & _ & ->). by rewrite Hstop.
  - intros s. destruct (Hst s) as (-> & -> & _). apply Hc.
  - intros s. destruct (Hst s) as (_ & _ & ->). rewrite Hlog. apply Hd.
Qed.

Lemma wellFormed_initial : wellFormed initialPlayer.
Proof. split_and!; intros s; by cbn. Qed.

Lemma wellFormed_stopAudio p :
  wellFormed p ->
  (stopAudio p).2 = inr tt /\
  currentSource (stopAudio p).1 = None /\
  wellFormed (stopAudio p).1.
Proof.
  intros Hwf. rewrite stopAudio_eq.
  destruct (currentSource p) as [s|] eqn:Hcs.
  - pose proof Hwf as (Ha & _).
    rewrite (playing_started _ (Ha s Hcs)). cbn [fst snd currentSource].
    split_and!; try done.
    eapply wellFormed_transfer; [exact Hwf|by left| |].
    + intros s'. unfold node. cbn [nodes].
      destruct (sameStatus_alter withStopped (nodes p) s s') as (E1 & E2 & E3); [done|].
      destruct (sameStatus_alter (withConnected false)
                  (alter withStopped s (nodes p)) s s') as (F1 & F2 & F3); [done|].
      split_and!; congruence.
    + intros s'. cbn [log]. by rewrite invocations_app, Nat.add_0_r.
  - by cbn.
Qed.

Lemma wellFormed_withContext p : wellFormed p -> wellFormed (withContext p).
Proof. intros Hwf. eapply wellFormed_transfer; [done|by right|done|done]. Qed.

Lemma wellFormed_playAudio_begin atob base64 p :
  wellFormed p ->
  wellFormed (playAudio_begin atob base64 p).1 /\
  currentSource (playAudio_begin atob base64 p).1 = None /\
  nodes (playAudio_begin atob base64 p).1 = nodes (stopAudio p).1 /\
  log (playAudio_begin atob base64 p).1 = log (stopAudio p).1.
Proof.
  intros Hwf. rewrite playAudio_begin_eq.
  destruct (wellFormed_stopAudio p Hwf) as (Hok & Hnone & Hwf1).
  destruct (stopAudio p) as [p1 [e|[]]]; [done|]. cbn [fst snd] in *.
  destruct (decode atob base64) as [e|rawAudio];
    [|destruct (decodeAudioData rawAudio (contextOf p1))]; cbn [fst];
    (split_and!; [by apply wellFormed_withContext|done|done|done]).
Qed.

Lemma wellFormed_playAudio_resume ctx audioBuffer onEnded p q :
  wellFormed p ->
  wellFormed
    (playAudio_resume ctx audioBuffer onEnded
       {| audioContext := audioContext p; currentSource := currentSource p;
          nodes := nodes p; suspended := q; log := log p |}).1.
Proof.
  intros (Ha & Hc & Hd). rewrite playAudio_resume_eq. cbn [fst nodes log suspended].
  split_and!; intros s; unfold node; cbn [currentSource nodes log];
    rewrite nodeOf_snoc.
  - intros [= <-]. by rewrite decide_True.
  - destruct (decide (s = length (nodes p))); [done|]. apply Hc.
  - rewrite invocations_app, Nat.add_0_r, (Hd s).
    destruct (decide (s = length (nodes p))) as [->|]; [|done].
    unfold node. by rewrite nodeOf_beyond.
Qed.

Lemma wellFormed_observe o p :
  (forall s, invocations s [o] = 0) ->
  wellFormed p -> wellFormed (observe o p).1.
Proof.
  intros Ho Hwf. eapply wellFormed_transfer; [done|by right|done|].
  intros s. unfold observe. cbn [fst log].
  by rewrite invocations_app, Ho, Nat.add_0_r.
Qed.

Lemma wellFormed_setSuspended q p :
  wellFormed p -> wellFormed (setSuspended q p).1.
Proof. intros Hwf. eapply wellFormed_transfer; [done|by right|done|done]. Qed.

Lemma wellFormed_dispatchEnded s p :
  wellFormed p ->
  canEnd s p = true ->
  exists onEnded,
    onended (node s p) = Some onEnded /\
    dispatchEnded s p =
    ({| audioContext := audioContext p;
        currentSource := None;
        nodes := alter withEnded s (nodes p);
        suspended := suspended p;
        log := log p ++ [Invoked s onEnded] |}, inr tt) /\
    wellFormed (dispatchEnded s p).1.
Proof.
  intros (Ha & Hc & Hd) Hcan. unfold canEnd in Hcan.
  apply andb_prop in Hcan as [Hcan _]. apply andb_prop in Hcan as [Hst Hne].
  apply negb_true_iff in Hne.
  destruct (Hc s Hst) as [onEnded Hon]. exists onEnded. split; [done|].
  pose proof (started_in_range _ _ Hst) as Hrange.
  rewrite dispatchEnded_eq. cbn zeta. rewrite nodeOf_alter_eq by done.
  change (onended (withEnded (nodeOf (nodes p) s))) with (onended (node s p)).
  rewrite Hon. split; [done|]. cbn [fst].
  split_and!; intros s'; unfold node; cbn [currentSource nodes log]; [done| |].
  - destruct (decide (s = s')) as [<-|Hs].
    + rewrite nodeOf_alter_eq by done. apply Hc.
    + rewrite nodeOf_alter_ne by done. apply Hc.
  - rewrite invocations_app, (Hd s').
    destruct (decide (s = s')) as [<-|Hs].
    + rewrite nodeOf_alter_eq by done. rewrite Hne.
      unfold invocations. cbn. by rewrite Nat.eqb_refl.
    + rewrite nodeOf_alter_ne by done. unfold invocations. cbn.
      destruct (Nat.eqb_spec s' s); [congruence|]. cbn. unfold node. lia.
Qed.

Lemma wellFormed_step atob a p : wellFormed p -> wellFormed (step atob a p).
Proof.
  intros Hwf. destruct a as [base64 onEnded| | |s]; cbn [step].
  - destruct (wellFormed_playAudio_begin atob base64 p Hwf) as (Hwf' & _).
    destruct (playAudio_begin atob base64 p) as [p' [e|[ctx audioBuffer]]];
      cbn [fst] in Hwf'.
    + by apply wellFormed_observe.
    + by apply wellFormed_setSuspended.
  - destruct (suspended p) as [|[[ctx audioBuffer] onEnded] rest]; [done|].
    unfold bind, setSuspended. cbn [fst snd].
    pose proof (wellFormed_playAudio_resume ctx audioBuffer onEnded p rest Hwf) as Hwf'.
    rewrite playAudio_resume_eq in *. done.
  - destruct (wellFormed_stopAudio p Hwf) as (Hok & _ & Hwf').
    destruct (stopAudio p) as [p' [e|[]]]; done.
  - destruct (canEnd s p) eqn:Hcan; [|done].
    destruct (wellFormed_dispatchEnded s p Hwf Hcan) as (onEnded & _ & Heq & Hwf').
    rewrite Heq in *. done.
Qed.

Lemma wellFormed_run atob actions : forall p,
  wellFormed p -> wellFormed (run atob actions p).
Proof.
  induction actions as [|a actions IH]; intros p Hwf; [done|].
  apply IH. by apply wellFormed_step.
Qed.

Lemma playAudio_eq atob base64 onEnded p :
  playAudio atob base64 onEnded p =
  match playAudio_begin atob base64 p with
  | (p2, inl e) => (p2, inl e)
  | (p2, inr (ctx, audioBuffer)) => playAudio_resume ctx audioBuffer onEnded p2
  end.
Proof.
  unfold playAudio, bind.
  by destruct (playAudio_begin atob base64 p) as [p2 [e|[ctx audioBuffer]]].
Qed.

Lemma decode_length atob base64 binaryString :
  atob base64 = Some binaryString ->
  exists rawAudio,
    decode atob base64 = inr rawAudio /\
    length rawAudio = String.length binaryString.
Proof.
  intros Hatob. unfold decode. rewrite Hatob. eexists. split; [done|].
  rewrite forIndex_fills by (by rewrite length_replicate).
  rewrite length_app, length_take, length_map, length_seq. lia.
Qed.

(** ** Stopping *)

Lemma stopAudio_twice (q : Player) : (stopAudio ;; stopAudio) q = stopAudio q.
Proof.
  unfold bind. rewrite (stopAudio_eq q).
  destruct (currentSource q) as [s|] eqn:Hcs.
  - destruct (started (node s q)); [|done]. by rewrite stopAudio_eq.
  - by rewrite stopAudio_eq, Hcs.
Qed.

Lemma nothing_playing_no_current p :
  wellFormed p -> playingNodes p = [] -> currentSource p = None.
Proof.
  intros (Ha & _) Hnone. destruct (currentSource p) as [s|] eqn:Hcs; [|done].
  specialize (Ha s eq_refl).
  assert (In s (playingNodes p)) as Hin.
  { apply List.filter_In. split; [|done]. apply in_seq.
    apply playing_started, started_in_range in Ha. lia. }
  rewrite Hnone in Hin. destruct Hin.
Qed.

(** C9.  [stopAudio] is idempotent.  In every state the player can be in it
    does not throw; when no source is playing, or just when there is no
    current source, as immediately after a previous stop, it leaves the state
    as it is; and [stopAudio] followed by [stopAudio] does what one
    [stopAudio] does. *)
Theorem stopAudio_idempotent (atob : string -> option string) (actions : list Action) :
  let p := run atob actions initialPlayer in
  (stopAudio p).2 = inr tt /\
  (playingNodes p = [] \/ currentSource p = None -> stopAudio p = (p, inr tt)) /\
  stopAudio (stopAudio p).1 = ((stopAudio p).1, inr tt) /\
  (stopAudio ;; stopAudio) p = stopAudio p.
Proof.
  intros p.
  assert (wellFormed p) as Hwf by apply wellFormed_run, wellFormed_initial.
  destruct (wellFormed_stopAudio p Hwf) as (Hok & Hnone & _).
  split_and!.
  - done.
  - intros H. rewrite stopAudio_eq.
    assert (currentSource p = None) as ->; [|done].
    destruct H as [H|H]; [by apply nothing_playing_no_current|done].
  - by rewrite (stopAudio_eq (stopAudio p).1), Hnone.
  - apply stopAudio_twice.
Qed.

Lemma stopAudio_idempotent_witness :
  let p := run atobStandard [PlayAudio "AAD/fw==" 1; Resume; StopAudio] initialPlayer in
  stopAudio p = (p, inr tt).
Proof.
  intros p.
  apply (proj1 (proj2 (stopAudio_idempotent atobStandard
                         [PlayAudio "AAD/fw==" 1; Resume; StopAudio]))).
  left. reflexivity.
Defined.

(** ** Starting a playback *)

(** C10 as stated does not hold for [N = 0]: a text that decodes to zero
    bytes, an even number, is rejected by [createBuffer]. *)
Lemma empty_audio_is_rejected :
  atobStandard EmptyString = Some EmptyString /\
  String.length EmptyString = 2 * 0 /\
  (playAudio atobStandard EmptyString 1 initialPlayer).2 = inl NotSupportedError.
Proof. repeat split; reflexivity. Qed.

(** C10, amended.  Let [base64] decode to [n] bytes, in any state the player
    can be in.  Whatever the outcome, [playAudio] first stops, disconnects and
    releases the current source and creates no node before its [await].  If
    [n = 2 * N] with [N >= 1] the decoding succeeds, gives [N] samples, and
    the call goes through.  If [n] is odd the construction of the 16-bit view
    throws a [RangeError], and if [n = 0] [createBuffer] throws a
    [NotSupportedError]: in both cases the call is rejected after the previous
    source has been stopped. *)
Theorem playAudio_needs_whole_samples
    (atob : string -> option string) (actions : list Action)
    (base64 binaryString : string) (onEnded : nat) :
  atob base64 = Some binaryString ->
  let p := run atob actions initialPlayer in
  let p1 := withContext (stopAudio p).1 in
  let n := String.length binaryString in
  (playAudio_begin atob base64 p).1 = p1 /\
  currentSource p1 = None /\
  length (nodes p1) = length (nodes p) /\
  (forall s, currentSource p = Some s ->
     stopped (node s p1) = true /\ connected (node s p1) = false) /\
  (forall N, n = 2 * N -> 1 <= N ->
     exists audioBuffer,
       (playAudio_begin atob base64 p).2
         = inr (contextOf (stopAudio p).1, audioBuffer) /\
       length (channelData audioBuffer) = N /\
       (playAudio atob base64 onEnded p).2 = inr tt) /\
  (Nat.odd n = true ->
     playAudio atob base64 onEnded p = (p1, inl RangeError)) /\
  (n = 0 ->
     playAudio atob base64 onEnded p = (p1, inl NotSupportedError)).
Proof.
  intros Hatob p p1 n.
  assert (wellFormed p) as Hwf by apply wellFormed_run, wellFormed_initial.
  destruct (wellFormed_stopAudio p Hwf) as (Hok & Hnone & _).
  destruct (decode_length atob base64 binaryString Hatob) as (rawAudio & Hraw & Hlen).
  fold n in Hlen.
  assert (playAudio_begin atob base64 p
                    = (p1, match decodeAudioData rawAudio (contextOf (stopAudio p).1) with
                           | inl e => inl e
                           | inr b => inr (contextOf (stopAudio p).1, b)
                           end)) as Hbegin.
  { rewrite playAudio_begin_eq, Hraw. unfold p1.
    destruct (stopAudio p) as [p0 [e|[]]]; [done|]. cbn [fst].
    by destruct (decodeAudioData rawAudio (contextOf p0)). }
  split_and!.
  - by rewrite Hbegin.
  - done.
  - unfold p1. cbn [withContext nodes]. rewrite stopAudio_eq.
    destruct (currentSource p); [|done].
    destruct (started _); [|done]. cbn. by rewrite !length_alter.
  - intros s Hs. destruct Hwf as (Ha & _).
    pose proof (playing_started _ (Ha s Hs)) as Hst.
    unfold p1, node. cbn [withContext nodes]. rewrite stopAudio_eq, Hs, Hst.
    cbn [fst nodes]. apply started_in_range in Hst.
    rewrite !nodeOf_alter_eq by (rewrite ?length_alter; done). done.
  - intros N HN Hpos.
    rewrite playAudio_eq, Hbegin.
    rewrite (decodeAudioData_eq rawAudio _ N) by lia.
    eexists. split_and!; [done| |by rewrite playAudio_resume_eq].
    cbn. by rewrite length_map, length_seq.
  - intros Hodd. rewrite playAudio_eq, Hbegin.
    unfold decodeAudioData, Int16Array. rewrite Hlen.
    rewrite <- Nat.negb_odd, Hodd. done.
  - intros Hzero. rewrite playAudio_eq, Hbegin.
    destruct rawAudio; [done|]. cbn in Hlen. lia.
Qed.

Lemma playAudio_needs_whole_samples_witness :
  let p := run atobStandard [PlayAudio "AAD/fw==" 1; Resume] initialPlayer in
  (stopped (node 0 (withContext (stopAudio p).1)) = true /\
   connected (node 0 (withContext (stopAudio p).1)) = false) /\
  (exists audioBuffer,
     (playAudio_begin atobStandard "AAD/fwCA" p).2
       = inr (contextOf (stopAudio p).1, audioBuffer) /\
     length (channelData audioBuffer) = 3 /\
     (playAudio atobStandard "AAD/fwCA" 2 p).2 = inr tt) /\
  playAudio atobStandard "AAD/" 2 p
    = (withContext (stopAudio p).1, inl RangeError) /\
  playAudio atobStandard "  " 2 p
    = (withContext (stopAudio p).1, inl NotSupportedError).
Proof.
  intros p.
  pose proof (playAudio_needs_whole_samples atobStandard
                [PlayAudio "AAD/fw==" 1; Resume] "AAD/fwCA"
                (String "000" (String "000" (String "255"
                   (String "127" (String "000" (String "128" EmptyString))))))
                2 eq_refl) as (_ & _ & _ & Hstopped & Heven & _).
  pose proof (playAudio_needs_whole_samples atobStandard
                [PlayAudio "AAD/fw==" 1; Resume] "AAD/"
                (String "000" (String "000" (String "255" EmptyString)))
                2 eq_refl) as (_ & _ & _ & _ & _ & Hodd & _).
  pose proof (playAudio_needs_whole_samples atobStandard
                [PlayAudio "AAD/fw==" 1; Resume] "  " EmptyString
                2 eq_refl) as (_ & _ & _ & _ & _ & _ & Hzero).
  split_and!.
  - apply (Hstopped 0). vm_compute. reflexivity.
  - apply (Hstopped 0). vm_compute. reflexivity.
  - apply (Heven 3); [reflexivity|lia].
  - apply Hodd. reflexivity.
  - apply Hzero. reflexivity.
Defined.

(** ** One playback at a time *)

(** Before its [await], [playAudio] has stopped, disconnected and released
    the source that [currentSource] referred to, and has created no node. *)
Lemma playAudio_begin_stops_current atob actions base64 s :
  let p := run atob actions initialPlayer in
  let p' := (playAudio_begin atob base64 p).1 in
  currentSource p = Some s ->
  playing (node s p') = false /\
  connected (node s p') = false /\
  currentSource p' = None /\
  length (nodes p') = length (nodes p).
Proof.
  intros p p' Hs.
  assert (wellFormed p) as Hwf by apply wellFormed_run, wellFormed_initial.
  destruct (wellFormed_playAudio_begin atob base64 p Hwf) as (_ & Hnone & Hnodes & _).
  fold p' in Hnone, Hnodes. unfold node. rewrite Hnodes.
  destruct Hwf as (Ha & _). pose proof (playing_started _ (Ha s Hs)) as Hst.
  rewrite stopAudio_eq, Hs, Hst. cbn [fst nodes]. apply started_in_range in Hst.
  rewrite !nodeOf_alter_eq by (rewrite ?length_alter; done).
  rewrite !length_alter. unfold playing. cbn.
  by rewrite andb_false_r.
Qed.

(** C7 fails on the code.  A first playback is started and, while it plays, a
    second one: the first source is stopped.  Its [ended] event follows, and
    its handler resets [currentSource], which by then refers to the second
    source.  A third [playAudio] finds no current source to stop: the second
    and the third source play together. *)
Lemma stale_handler_lets_two_sources_play :
  let p := run atobStandard
             [ PlayAudio "AAD/fw==" 1; Resume;
               PlayAudio "AAD/fw==" 2; Resume;
               Ended 0;
               PlayAudio "AAD/fw==" 3; Resume ] initialPlayer in
  playingNodes p = [1; 2] /\
  currentSource p = Some 2 /\
  log p = [ NodeCreated 0; NodeConnected 0; NodeStarted 0;
            NodeStopped 0; NodeDisconnected 0;
            NodeCreated 1; NodeConnected 1; NodeStarted 1;
            Invoked 0 1;
            NodeCreated 2; NodeConnected 2; NodeStarted 2 ].
Proof. repeat split; vm_compute; reflexivity. Qed.

(** Two calls of [playAudio] in one turn fail C7 as well: each stops the
    current source before either has installed its own. *)
Lemma overlapping_calls_let_two_sources_play :
  let p := run atobStandard
             [ PlayAudio "AAD/fw==" 1; PlayAudio "AAD/fw==" 2; Resume; Resume ]
             initialPlayer in
  playingNodes p = [0; 1] /\ currentSource p = Some 1.
Proof. split; vm_compute; reflexivity. Qed.

(** ** The completion callback *)

(** C8 as stated does not hold: the source that an explicit [stopAudio] has
    stopped still has its handler, and its [ended] event, which follows the
    stop, calls [onEnded]. *)
Lemma onEnded_is_invoked_after_an_explicit_stop :
  let p := run atobStandard [ PlayAudio "AAD/fw==" 1; Resume; StopAudio ] initialPlayer in
  stopped (node 0 p) = true /\
  canEnd 0 p = true /\
  log (step atobStandard (Ended 0) p)
  = [ NodeCreated 0; NodeConnected 0; NodeStarted 0;
      NodeStopped 0; NodeDisconnected 0; Invoked 0 1 ].
Proof. repeat split; vm_compute; reflexivity. Qed.

(** C8, amended.  A playback started by [playAudio] with the callback
    [onEnded] installs a handler that holds [onEnded]; the callback is invoked
    exactly once when the [ended] event of the source is dispatched, be it at
    the end of the buffer or after a stop, and never otherwise: in every state
    a source has called back once if it has had its event and not at all if it
    has not.  [stopAudio] itself invokes no callback. *)
Theorem onEnded_follows_the_ended_event
    (atob : string -> option string) (actions : list Action) (s : nat) :
  let p := run atob actions initialPlayer in
  invocations s (log p) = (if ended (node s p) then 1 else 0) /\
  (forall base64 onEnded p',
     playAudio atob base64 onEnded p = (p', inr tt) ->
     exists s0, currentSource p' = Some s0 /\
                playing (node s0 p') = true /\
                onended (node s0 p') = Some onEnded) /\
  log (step atob StopAudio p)
  = log p ++ match currentSource p with
             | Some c => [NodeStopped c; NodeDisconnected c]
             | None => []
             end /\
  (canEnd s p = true ->
   exists onEnded,
     onended (node s p) = Some onEnded /\
     log (step atob (Ended s) p) = log p ++ [Invoked s onEnded] /\
     ended (node s (step atob (Ended s) p)) = true).
Proof.
  intros p.
  assert (wellFormed p) as Hwf by apply wellFormed_run, wellFormed_initial.
  split_and!.
  - apply Hwf.
  - intros base64 onEnded p'. rewrite playAudio_eq.
    destruct (playAudio_begin atob base64 p) as [p2 [e|[ctx audioBuffer]]]; [done|].
    rewrite playAudio_resume_eq. intros [= <-].
    exists (length (nodes p2)). unfold node. cbn [currentSource nodes].
    rewrite nodeOf_snoc, decide_True by done. done.
  - cbn [step]. destruct (wellFormed_stopAudio p Hwf) as (Hok & _).
    rewrite stopAudio_eq in *. destruct (currentSource p) as [c|].
    + destruct (started (node c p)); [done|]. done.
    + cbn. by rewrite app_nil_r.
  - intros Hcan. cbn [step]. rewrite Hcan.
    destruct (wellFormed_dispatchEnded s p Hwf Hcan) as (onEnded & Hon & Heq & _).
    exists onEnded. rewrite Heq. cbn [recordFailure log]. split_and!; [done|done|].
    unfold node. cbn [nodes]. rewrite nodeOf_alter_eq; [done|].
    unfold canEnd in Hcan. apply andb_prop in Hcan as [Hcan _].
    apply andb_prop in Hcan as [Hst _]. by apply started_in_range in Hst.
Qed.

Lemma onEnded_follows_the_ended_event_witness :
  let p0 := run atobStandard [ PlayAudio "AAD/fw==" 7; Resume; StopAudio ] initialPlayer in
  let p := (playAudio atobStandard "AAD/fwCA" 8 p0).1 in
  (exists s0, currentSource p = Some s0 /\
              playing (node s0 p) = true /\
              onended (node s0 p) = Some 8) /\
  (exists onEnded,
     onended (node 0 p0) = Some onEnded /\
     log (step atobStandard (Ended 0) p0) = log p0 ++ [Invoked 0 onEnded] /\
     ended (node 0 (step atobStandard (Ended 0) p0)) = true).
Proof.
  intros p0 p.
  pose proof (onEnded_follows_the_ended_event atobStandard
                [ PlayAudio "AAD/fw==" 7; Resume; StopAudio ] 0)
    as (_ & Hplay & _ & Hended).
  split.
  - apply (Hplay "AAD/fwCA" 8 p). vm_compute. reflexivity.
  - apply Hended. vm_compute. reflexivity.
Defined.

(** * Further properties of the pipeline *)

Lemma clipSucceeds_spec numberToString ai formData n it :
  clipSucceeds numberToString ai formData n it = true <->
  exists imageResponse audioResponse imageB64 audioB64,
    mediaReply ai n (imageParts formData it.2) (Structure.narration it.2)
      = Resolved (imageResponse, audioResponse) /\
    findInlineData imageResponse = Some imageB64 /\ imageB64 <> EmptyString /\
    findInlineData audioResponse = Some audioB64 /\ audioB64 <> EmptyString /\
    clipOf numberToString ai formData n it
      = withMedia it.2 imageB64 audioB64.
Proof.
  unfold clipSucceeds, clipOf, clipResult. split.
  - destruct (mediaReply _ _ _ _) as [|[ir ar]]; [done|].
    destruct (findInlineData ir) as [[|c x]|] eqn:Hi; cbn; try done.
    destruct (findInlineData ar) as [[|d y]|] eqn:Ha; cbn; try done.
    intros _. by exists ir, ar, (String c x), (String d y).
  - intros (ir & ar & x & y & -> & -> & Hx & -> & Hy & _).
    destruct x; [done|]. by destruct y.
Qed.

Lemma walk_all_succeed numberToString ai formData totalClips items : forall n,
  (walk numberToString ai formData totalClips n items).2 = None <->
  (forall i it, items !! i = Some it -> clipSucceeds numberToString ai formData (S (n + i)) it = true).
Proof.
  induction items as [|it items IH]; intros n; cbn -[clipEvents].
  - split; [by intros _ i it|done].
  - unfold clipSucceeds in *.
    destruct (clipResult numberToString ai formData (S n) it).2 as [e|c] eqn:E.
    + split; [done|]. intros H. specialize (H 0 it eq_refl).
      rewrite Nat.add_0_r, E in H. done.
    + specialize (IH (S n)).
      destruct (walk numberToString ai formData totalClips (S n) items) as [[evs m] stop].
      cbn [snd] in *. rewrite IH. split.
      * intros H [|i] it'; cbn.
        -- intros [= <-]. by rewrite Nat.add_0_r, E.
        -- intros Hi. replace (n + S i) with (S n + i) by lia. by apply H.
      * intros H i it' Hi. replace (S n + i) with (n + S i) by lia.
        by apply (H (S i)).
Qed.

(** ** When stage one fails *)

(** X1.  When the structure request is rejected, or its response has no text
    or a text that [JSON.parse] refuses, [generateStoryboard] fails with that
    error right after the request: the second progress message is never
    sent and no media request is issued. *)
Theorem stage_one_failure_ends_the_run
    (numberToString : Z -> string)
    (JSON_parse : string -> option StoryboardStructure) (ai : Remote)
    (formData : FormData) :
  match structureReply ai (storyPrompt formData) with
  | Rejected reason =>
      generateStoryboard numberToString JSON_parse ai formData
      = ([ Progress "Menganalisis cerita dan karakter...";
           StructureRequest (storyPrompt formData) ],
         inl (RemoteFailure reason))
  | Resolved responseText =>
      decoded JSON_parse responseText = None ->
      generateStoryboard numberToString JSON_parse ai formData
      = ([ Progress "Menganalisis cerita dan karakter...";
           StructureRequest (storyPrompt formData) ],
         inl SyntaxError)
  end.
Proof.
  rewrite generateStoryboard_eq.
  destruct (structureReply ai _) as [reason|t]; [done|]. by intros ->.
Qed.

Lemma stage_one_failure_ends_the_run_witness :
  generateStoryboard decimal fakeParse (fakeRemote "not json" 0) fakeForm
  = ([ Progress "Menganalisis cerita dan karakter...";
       StructureRequest (storyPrompt fakeForm) ],
     inl SyntaxError).
Proof.
  exact (stage_one_failure_ends_the_run decimal fakeParse (fakeRemote "not json" 0)
           fakeForm eq_refl).
Defined.

(** ** When a media request is rejected *)

(** X2.  Let the iteration of [cl] in scene [sc] be reached and let
    [Promise.all] over its two requests be rejected.  Then the run is rejected
    with that very reason; nothing is written to the console; and the trace
    ends with the two requests of that iteration. *)
Theorem rejected_media_request_ends_the_run
    (numberToString : Z -> string)
    (JSON_parse : string -> option StoryboardStructure) (ai : Remote)
    (formData : FormData) (responseText : string) (st : StoryboardStructure)
    (pre post : list (StoryboardStructureScene * StoryboardStructureClip))
    (sc : StoryboardStructureScene) (cl : StoryboardStructureClip)
    (reason : string) :
  structureReply ai (storyPrompt formData) = Resolved (Some responseText) ->
  JSON_parse responseText = Some st ->
  flatClips st = pre ++ (sc, cl) :: post ->
  (forall i it, pre !! i = Some it -> clipSucceeds numberToString ai formData (S i) it = true) ->
  mediaReply ai (S (length pre)) (imageParts formData cl) (Structure.narration cl)
    = Rejected reason ->
  generateStoryboard numberToString JSON_parse ai formData
  = (opening formData
     ++ loopStart
     :: loopEvents numberToString formData (totalClipsOf st) 0 (pre ++ [(sc, cl)]),
     inl (RemoteFailure reason)).
Proof.
  intros Hreply Hparse Hflat Hpre Hmedia.
  assert (clipResult numberToString ai formData (S (length pre)) (sc, cl)
          = ([], inl (RemoteFailure reason))) as Hres.
  { unfold clipResult. cbn [fst snd]. by rewrite Hmedia. }
  rewrite generateStoryboard_eq, Hreply. cbn [decoded]. rewrite Hparse, Hflat.
  cbn zeta.
  rewrite (walk_prefix numberToString ai formData (totalClipsOf st) 0 pre ((sc, cl) :: post)) by done.
  cbn [walk Nat.add]. rewrite Hres. cbn [fst snd].
  rewrite loopEvents_app. cbn [loopEvents Nat.add].
  by rewrite !app_nil_r.
Qed.

Lemma rejected_media_request_ends_the_run_witness :
  generateStoryboard decimal fakeParse
    (rejectingRemote "<four scenes of three clips>" 2 "503") fakeForm
  = (opening fakeForm
     ++ loopStart
     :: loopEvents decimal fakeForm 12 0 (take 2 (flatClips fourByThree)),
     inl (RemoteFailure "503")).
Proof.
  apply (rejected_media_request_ends_the_run decimal fakeParse
           (rejectingRemote "<four scenes of three clips>" 2 "503") fakeForm
           "<four scenes of three clips>" fourByThree
           (take 1 (flatClips fourByThree)) (drop 2 (flatClips fourByThree))
           (fakeScene 1 [1; 2; 3]%Z) (fakeClip 2) "503").
  - reflexivity.
  - reflexivity.
  - reflexivity.
  - intros [|i] it Hi; [injection Hi as <-; reflexivity|discriminate Hi].
  - reflexivity.
Defined.

(** ** An empty payload *)

(** X3.  A payload that is present but is the empty string is treated like a
    missing one: when the reached iteration of [cl] in scene [sc] gets an
    image or an audio payload that is empty, the run fails with the clip
    error of that clip and scene, after logging both responses. *)
Theorem empty_payload_aborts
    (numberToString : Z -> string)
    (JSON_parse : string -> option StoryboardStructure) (ai : Remote)
    (formData : FormData) (responseText : string) (st : StoryboardStructure)
    (pre post : list (StoryboardStructureScene * StoryboardStructureClip))
    (sc : StoryboardStructureScene) (cl : StoryboardStructureClip)
    (imageResponse audioResponse : GenerateContentResponse) :
  structureReply ai (storyPrompt formData) = Resolved (Some responseText) ->
  JSON_parse responseText = Some st ->
  flatClips st = pre ++ (sc, cl) :: post ->
  (forall i it, pre !! i = Some it -> clipSucceeds numberToString ai formData (S i) it = true) ->
  mediaReply ai (S (length pre)) (imageParts formData cl) (Structure.narration cl)
    = Resolved (imageResponse, audioResponse) ->
  findInlineData imageResponse = Some EmptyString \/
  findInlineData audioResponse = Some EmptyString ->
  generateStoryboard numberToString JSON_parse ai formData
  = (opening formData
     ++ loopStart
     :: loopEvents numberToString formData (totalClipsOf st) 0 (pre ++ [(sc, cl)])
     ++ [ ConsoleError "Image Response:" imageResponse;
          ConsoleError "Audio Response:" audioResponse ],
     inl (ClipError (clipFailure numberToString (Structure.clip cl) (Structure.scene sc)))).
Proof.
  intros Hreply Hparse Hflat Hpre Hmedia Hempty.
  assert (clipResult numberToString ai formData (S (length pre)) (sc, cl)
          = ([ ConsoleError "Image Response:" imageResponse;
               ConsoleError "Audio Response:" audioResponse ],
             inl (ClipError (clipFailure numberToString (Structure.clip cl) (Structure.scene sc)))))
    as Hres.
  { unfold clipResult. cbn [fst snd]. rewrite Hmedia.
    destruct Hempty as [-> | ->]; cbn; [done|].
    by rewrite orb_true_r. }
  rewrite generateStoryboard_eq, Hreply. cbn [decoded]. rewrite Hparse, Hflat.
  cbn zeta.
  rewrite (walk_prefix numberToString ai formData (totalClipsOf st) 0 pre ((sc, cl) :: post)) by done.
  cbn [walk Nat.add]. rewrite Hres. cbn [fst snd].
  rewrite loopEvents_app. cbn [loopEvents Nat.add].
  by rewrite app_nil_r, <- !app_assoc.
Qed.

Lemma empty_payload_aborts_witness :
  generateStoryboard decimal fakeParse
    (silentRemote "<four scenes of three clips>" 1) fakeForm
  = (opening fakeForm
     ++ loopStart
     :: loopEvents decimal fakeForm 12 0 (take 1 (flatClips fourByThree))
     ++ [ ConsoleError "Image Response:" (inlineResponse "aW1n");
          ConsoleError "Audio Response:" (inlineResponse EmptyString) ],
     inl (ClipError
       "Gagal membuat konten untuk klip 1 di adegan 1. Respon API tidak valid atau diblokir.")).
Proof.
  apply (empty_payload_aborts decimal fakeParse
           (silentRemote "<four scenes of three clips>" 1) fakeForm
           "<four scenes of three clips>" fourByThree
           [] (drop 1 (flatClips fourByThree))
           (fakeScene 1 [1; 2; 3]%Z) (fakeClip 1)
           (inlineResponse "aW1n") (inlineResponse EmptyString)).
  - reflexivity.
  - reflexivity.
  - reflexivity.
  - intros i it Hi. discriminate Hi.
  - reflexivity.
  - right. reflexivity.
Defined.

(** ** When the run succeeds *)

(** X4.  [generateStoryboard] returns a storyboard exactly when stage one
    decodes a structure and every clip iteration, in structure order, has its
    pair of requests resolved with a non-empty image payload and a non-empty
    audio payload. *)
Theorem success_iff_every_clip_has_media
    (numberToString : Z -> string)
    (JSON_parse : string -> option StoryboardStructure) (ai : Remote)
    (formData : FormData) :
  (exists sb, (generateStoryboard numberToString JSON_parse ai formData).2 = inr sb) <->
  (exists responseText st,
     structureReply ai (storyPrompt formData) = Resolved (Some responseText) /\
     JSON_parse responseText = Some st /\
     forall i it, flatClips st !! i = Some it ->
       exists imageResponse audioResponse imageB64 audioB64,
         mediaReply ai (S i) (imageParts formData it.2) (Structure.narration it.2)
           = Resolved (imageResponse, audioResponse) /\
         findInlineData imageResponse = Some imageB64 /\ imageB64 <> EmptyString /\
         findInlineData audioResponse = Some audioB64 /\ audioB64 <> EmptyString).
Proof.
  rewrite generateStoryboard_eq. split.
  - intros [sb Hsb].
    destruct (structureReply ai _) as [reason|[t|]]; [done| |done].
    cbn [decoded] in Hsb. destruct (JSON_parse t) as [st|] eqn:Hparse; [|done].
    cbn zeta in Hsb.
    destruct (walk numberToString ai formData (totalClipsOf st) 0 (flatClips st)).2 as [e|] eqn:Hw;
      [done|].
    exists t, st. split_and!; [done|done|].
    intros i it Hi.
    pose proof (proj1 (walk_all_succeed numberToString ai formData _ _ 0) Hw i it Hi) as Hok.
    apply clipSucceeds_spec in Hok as (ir & ar & x & y & ? & ? & ? & ? & ? & _).
    by exists ir, ar, x, y.
  - intros (t & st & -> & Hparse & Hall). cbn [decoded]. rewrite Hparse. cbn zeta.
    assert ((walk numberToString ai formData (totalClipsOf st) 0 (flatClips st)).2 = None) as ->.
    { apply walk_all_succeed. intros i it Hi.
      destruct (Hall i it Hi) as (ir & ar & x & y & Hm & Hx & Hx' & Hy & Hy').
      unfold clipSucceeds, clipResult. cbn [Nat.add]. rewrite Hm, Hx, Hy.
      destruct x; [done|]. by destruct y. }
    by eexists.
Qed.

Lemma attachClips_imap numberToString ai formData sc n cls :
  attachClips numberToString ai formData sc n cls
  = imap (fun i cl => clipOf numberToString ai formData (S (n + i)) (sc, cl)) cls.
Proof.
  revert n; induction cls as [|cl cls IH]; intros n; cbn -[clipOf]; [done|].
  rewrite Nat.add_0_r, IH. f_equal. apply imap_ext. intros i x _. cbn -[clipOf].
  do 2 f_equal. lia.
Qed.

Lemma allClips_attachScenes numberToString ai formData scs : forall n,
  allClips (attachScenes numberToString ai formData n scs)
  = imap (fun i it => clipOf numberToString ai formData (S (n + i)) it) (flatClips scs).
Proof.
  unfold allClips, flatClips.
  induction scs as [|sc scs IH]; intros n; cbn -[clipOf]; [done|].
  rewrite IH, imap_app, attachClips_imap, imap_fmap, length_map. f_equal.
  apply imap_ext. intros i x _. cbn -[clipOf]. do 2 f_equal. lia.
Qed.

(** X5.  In a storyboard that [generateStoryboard] returns, the [i]-th clip
    (scene after scene) is the [i]-th clip of the decoded structure with the
    media of the [i]-th iteration: its image is the text
    [data:image/png;base64,] followed by the first inline payload of the image
    response, whatever mime type that payload declares; its audio is the first
    inline payload of the audio response as it came; neither payload is
    empty. *)
Theorem every_clip_carries_its_media
    (numberToString : Z -> string)
    (JSON_parse : string -> option StoryboardStructure) (ai : Remote)
    (formData : FormData) (trace : list Event) (sb : Storyboard) :
  generateStoryboard numberToString JSON_parse ai formData = (trace, inr sb) ->
  exists responseText st,
    structureReply ai (storyPrompt formData) = Resolved (Some responseText) /\
    JSON_parse responseText = Some st /\
    length (allClips sb) = length (flatClips st) /\
    forall i it c,
      flatClips st !! i = Some it ->
      allClips sb !! i = Some c ->
      exists imageResponse audioResponse imageB64 audioB64,
        mediaReply ai (S i) (imageParts formData it.2) (Structure.narration it.2)
          = Resolved (imageResponse, audioResponse) /\
        findInlineData imageResponse = Some imageB64 /\ imageB64 <> EmptyString /\
        findInlineData audioResponse = Some audioB64 /\ audioB64 <> EmptyString /\
        structureOfClip c = it.2 /\
        image c = "data:image/png;base64," +:+ imageB64 /\
        audio c = audioB64.
Proof.
  rewrite generateStoryboard_eq.
  destruct (structureReply ai _) as [reason|[t|]]; [done| |done].
  cbn [decoded]. destruct (JSON_parse t) as [st|] eqn:Hparse; [|done].
  cbn zeta.
  destruct (walk numberToString ai formData (totalClipsOf st) 0 (flatClips st)).2 as [e|] eqn:Hw;
    [done|].
  intros [= _ <-]. exists t, st. rewrite allClips_attachScenes.
  split_and!; [done|done|by rewrite length_imap|].
  intros i it c Hi Hc. rewrite list_lookup_imap, Hi in Hc. cbn in Hc.
  injection Hc as <-.
  pose proof (proj1 (walk_all_succeed numberToString ai formData _ _ 0) Hw i it Hi) as Hok.
  cbn [Nat.add] in Hok.
  apply clipSucceeds_spec in Hok as (ir & ar & x & y & ? & ? & ? & ? & ? & Hclip).
  exists ir, ar, x, y. rewrite Hclip. split_and!; try done.
  by destruct it as [sc' [c' na pr]].
Qed.

Lemma every_clip_carries_its_media_witness :
  exists responseText st,
    structureReply (fakeRemote "<one scene of one clip>" 0) (storyPrompt fakeForm)
      = Resolved (Some responseText) /\
    fakeParse responseText = Some st /\
    length (allClips (attachScenes decimal (fakeRemote "<one scene of one clip>" 0) fakeForm 0 oneByOne))
      = length (flatClips st) /\
    forall i it c,
      flatClips st !! i = Some it ->
      allClips (attachScenes decimal (fakeRemote "<one scene of one clip>" 0) fakeForm 0 oneByOne) !! i
        = Some c ->
      exists imageResponse audioResponse imageB64 audioB64,
        mediaReply (fakeRemote "<one scene of one clip>" 0) (S i)
          (imageParts fakeForm it.2) (Structure.narration it.2)
          = Resolved (imageResponse, audioResponse) /\
        findInlineData imageResponse = Some imageB64 /\ imageB64 <> EmptyString /\
        findInlineData audioResponse = Some audioB64 /\ audioB64 <> EmptyString /\
        structureOfClip c = it.2 /\
        image c = "data:image/png;base64," +:+ imageB64 /\
        audio c = audioB64.
Proof.
  apply (every_clip_carries_its_media decimal fakeParse
           (fakeRemote "<one scene of one clip>" 0) fakeForm
           (generateStoryboard decimal fakeParse
              (fakeRemote "<one scene of one clip>" 0) fakeForm).1).
  vm_compute. reflexivity.
Defined.

(** ** A structure without clips *)

Lemma no_clips_anywhere st :
  totalClipsOf st = 0 ->
  flatClips st = [] /\ Forall (fun sc => Structure.clips sc = []) st.
Proof.
  rewrite totalClipsOf_flat. unfold flatClips.
  induction st as [|sc st IH]; cbn; [done|].
  rewrite length_app, length_map. intros Hlen.
  destruct (Structure.clips sc) as [|cl cls] eqn:Hcls; [|cbn in Hlen; lia].
  destruct IH as [-> Hall]; [cbn in Hlen; lia|]. split; [done|].
  by constructor.
Qed.

(** X6.  For a decoded structure that holds no clip at all (no scene, or
    scenes whose clip lists are empty) the run succeeds without a single media
    request, reporting the start of the loop and the completion; the
    storyboard has the same scenes, each without clips. *)
Theorem structure_without_clips_succeeds
    (numberToString : Z -> string)
    (JSON_parse : string -> option StoryboardStructure) (ai : Remote)
    (formData : FormData) (responseText : string) (st : StoryboardStructure) :
  structureReply ai (storyPrompt formData) = Resolved (Some responseText) ->
  JSON_parse responseText = Some st ->
  totalClipsOf st = 0 ->
  generateStoryboard numberToString JSON_parse ai formData
  = ([ Progress "Menganalisis cerita dan karakter...";
       StructureRequest (storyPrompt formData);
       Progress "Membuat visual untuk setiap klip...";
       Progress "Selesai!" ],
     inr (map (fun sc => {| scene := Structure.scene sc; clips := [] |}) st)).
Proof.
  intros Hreply Hparse Hzero.
  rewrite generateStoryboard_eq, Hreply. cbn [decoded]. rewrite Hparse. cbn zeta.
  destruct (no_clips_anywhere st Hzero) as [-> Hall]. cbn. do 2 f_equal.
  clear Hparse Hzero.
  generalize 0 as n. induction Hall as [|sc st' Hsc _ IH]; intros n; cbn; [done|].
  rewrite Hsc. cbn. by rewrite IH.
Qed.

Lemma structure_without_clips_succeeds_witness :
  generateStoryboard decimal bareParse
    (fakeRemote "<two scenes without clips>" 0) fakeForm
  = ([ Progress "Menganalisis cerita dan karakter...";
       StructureRequest (storyPrompt fakeForm);
       Progress "Membuat visual untuk setiap klip...";
       Progress "Selesai!" ],
     inr [ {| scene := 1; clips := [] |}; {| scene := 2; clips := [] |} ]).
Proof.
  exact (structure_without_clips_succeeds decimal bareParse
           (fakeRemote "<two scenes without clips>" 0) fakeForm
           "<two scenes without clips>" twoBareScenes eq_refl eq_refl eq_refl).
Defined.

(** ** The progress messages of the loop *)

Lemma not_a_digit_slash d : pretty_N_char d <> "/"%char.
Proof. unfold pretty_N_char. by repeat case_match. Qed.

Lemma not_a_digit_paren d : pretty_N_char d <> ")"%char.
Proof. unfold pretty_N_char. by repeat case_match. Qed.

Lemma not_a_digit_open d : pretty_N_char d <> "("%char.
Proof. unfold pretty_N_char. by repeat case_match. Qed.

Lemma occurs_pretty_N c (x : N) :
  (forall d, pretty_N_char d <> c) ->
  occurs c (pretty x) = false.
Proof.
  intros Hc. unfold pretty, pretty_N. destruct (decide (x = 0)%N).
  - cbn [occurs]. rewrite orb_false_r. apply Ascii.eqb_neq. apply (Hc 0%N).
  - by apply occurs_pretty_N_go.
Qed.

Lemma occurs_pretty_nat c (n : nat) :
  (forall d, pretty_N_char d <> c) ->
  occurs c (pretty n) = false.
Proof. intros Hc. apply (occurs_pretty_N c (N.of_nat n) Hc). Qed.

Lemma append_cancel_l p : forall x x', p +:+ x = p +:+ x' -> x = x'.
Proof.
  induction p as [|a p IH]; intros x x' Heq; [done|].
  change (String a (p +:+ x) = String a (p +:+ x')) in Heq.
  injection Heq as Heq. by apply IH.
Qed.

Lemma counters_inj count total count' total' :
  counters count total = counters count' total' ->
  count = count' /\ total = total'.
Proof.
  unfold counters. intros Heq.
  apply (split_at_separator "/"%char) in Heq as [Hcount Heq];
    [|by apply occurs_pretty_nat, not_a_digit_slash..].
  apply (inj pretty) in Hcount.
  apply (split_at_separator ")"%char) in Heq as [Htotal _];
    [|by apply occurs_pretty_nat, not_a_digit_paren..].
  by apply (inj pretty) in Htotal.
Qed.

Lemma counters_closed count total : occurs "("%char (counters count total) = false.
Proof.
  unfold counters.
  rewrite !occurs_app, !occurs_pretty_nat by apply not_a_digit_open. done.
Qed.

(** The message of line 98, cut at the comma and at the last space. *)
Lemma clipProgress_parts numberToString sceneNo clipNo count total :
  clipProgress numberToString sceneNo clipNo count total
  = "Membuat visual & audio untuk adegan "
    +:+ (numberToString sceneNo
         +:+ String ","%char
               (" klip "
                +:+ ((numberToString clipNo +:+ "...")
                     +:+ String " "%char (String "("%char (counters count total))))).
Proof. unfold clipProgress, counters. rewrite append_assoc. reflexivity. Qed.

(** The message of line 98, cut at its last opening parenthesis. *)
Lemma clipProgress_tail numberToString sceneNo clipNo count total :
  clipProgress numberToString sceneNo clipNo count total
  = ("Membuat visual & audio untuk adegan " +:+ numberToString sceneNo
     +:+ ", klip " +:+ numberToString clipNo +:+ "... ")
    +:+ String "("%char (counters count total).
Proof. unfold clipProgress, counters. rewrite !append_assoc. reflexivity. Qed.

(** Whatever the texts of the two numbers are, the counter and the total can
    be read off the end of the message. *)
Lemma clipProgress_counters numberToString
    sceneNo clipNo count total sceneNo' clipNo' count' total' :
  clipProgress numberToString sceneNo clipNo count total
  = clipProgress numberToString sceneNo' clipNo' count' total' ->
  count = count' /\ total = total'.
Proof.
  rewrite !clipProgress_tail. intros Heq.
  apply (f_equal (afterLast "("%char)) in Heq.
  rewrite !afterLast_app in Heq by apply counters_closed.
  by apply counters_inj.
Qed.

Lemma clipProgress_numbers numberToString
    sceneNo clipNo count total sceneNo' clipNo' count' total' :
  NumberPrinting numberToString ->
  clipProgress numberToString sceneNo clipNo count total
  = clipProgress numberToString sceneNo' clipNo' count' total' ->
  sceneNo = sceneNo' /\ clipNo = clipNo'.
Proof.
  intros printing. rewrite !clipProgress_parts. intros Heq.
  apply append_cancel_l in Heq.
  apply (split_at_separator ","%char) in Heq as [Hscene Heq];
    [|by apply printed_without..].
  apply (printing_inj _ printing) in Hscene. split; [done|].
  apply append_cancel_l in Heq.
  apply (split_at_separator " "%char) in Heq as [Hclip _];
    [|by rewrite occurs_app, printed_without..].
  apply append_cancel_r in Hclip. by apply (printing_inj _ printing) in Hclip.
Qed.

Lemma progressMessages_app l1 l2 :
  progressMessages (l1 ++ l2) = progressMessages l1 ++ progressMessages l2.
Proof.
  induction l1 as [|e l1 IH]; cbn; [done|]. destruct e; cbn; by rewrite IH.
Qed.

Lemma progressMessages_quiet tail :
  forallb quiet tail = true -> progressMessages tail = [].
Proof.
  induction tail as [|e tail IH]; cbn; [done|].
  intros H. apply andb_prop in H as [He Ht]. destruct e; try done; by apply IH.
Qed.

Lemma progressMessages_loopEvents numberToString formData totalClips items : forall n,
  progressMessages (loopEvents numberToString formData totalClips n items)
  = imap (fun i it => clipProgress numberToString (Structure.scene it.1) (Structure.clip it.2)
                        (S (n + i)) totalClips) items.
Proof.
  induction items as [|it items IH]; intros n; cbn; [done|].
  rewrite Nat.add_0_r, IH. f_equal. apply imap_ext. intros i x _. cbn.
  f_equal. lia.
Qed.

Lemma clipProgress_not_fixed numberToString sceneNo clipNo count total :
  clipProgress numberToString sceneNo clipNo count total <> "Menganalisis cerita dan karakter..." /\
  clipProgress numberToString sceneNo clipNo count total <> "Membuat visual untuk setiap klip..." /\
  clipProgress numberToString sceneNo clipNo count total <> "Selesai!".
Proof. unfold clipProgress. split_and!; cbn; intros Heq; discriminate Heq. Qed.

(** Closes [m ∈ l -> False] for two different literals [m] and a list [l] of
    literals. *)
Ltac distinct_literals :=
  rewrite ?elem_of_cons, ?elem_of_nil; intuition discriminate.

(** X7.  A progress message of the loop can be read back.  Whatever the
    platform prints for a number, the message determines the counter and the
    total; and since the text of a number holds neither a comma nor a space,
    and different numbers have different texts, it determines the scene
    number and the clip number too.  Hence in every run the callback never
    receives the same message twice: each call changes what the caller
    displays. *)
Theorem progress_messages_are_distinct
    (numberToString : Z -> string)
    (JSON_parse : string -> option StoryboardStructure) (ai : Remote)
    (formData : FormData) :
  (forall sceneNo clipNo count total sceneNo' clipNo' count' total',
     clipProgress numberToString sceneNo clipNo count total
     = clipProgress numberToString sceneNo' clipNo' count' total' ->
     count = count' /\ total = total' /\
     (NumberPrinting numberToString -> sceneNo = sceneNo' /\ clipNo = clipNo')) /\
  NoDup (progressMessages (generateStoryboard numberToString JSON_parse ai formData).1).
Proof.
  split.
  { intros sceneNo clipNo count total sceneNo' clipNo' count' total' Heq.
    destruct (clipProgress_counters _ _ _ _ _ _ _ _ _ Heq) as [-> ->].
    split_and!; [done|done|]. intros printing.
    by apply (clipProgress_numbers numberToString _ _ _ _ _ _ _ _ printing Heq). }
  rewrite generateStoryboard_eq.
  destruct (structureReply ai _) as [reason|t].
  { cbn. repeat constructor; distinct_literals. }
  destruct (decoded JSON_parse t) as [st|].
  2:{ cbn. repeat constructor; distinct_literals. }
  cbn zeta.
  destruct (walk_shape numberToString ai formData (totalClipsOf st) 0 (flatClips st))
    as (k & tail & _ & Hev & Hq & _).
  set (msgs := imap (fun i it => clipProgress numberToString (Structure.scene it.1)
                       (Structure.clip it.2) (S (0 + i)) (totalClipsOf st))
                 (take k (flatClips st))).
  assert (NoDup msgs) as Hnd.
  { apply NoDup_alt. intros i j m. unfold msgs. rewrite !list_lookup_imap.
    destruct (take k (flatClips st) !! i) as [it|]; [|done].
    destruct (take k (flatClips st) !! j) as [it'|]; [|done]. cbn.
    intros Hi Hj. rewrite <- Hj in Hi. apply (inj Some) in Hi.
    apply clipProgress_counters in Hi as [Hc _]. lia. }
  assert (forall m, m ∈ msgs ->
            m <> "Menganalisis cerita dan karakter..." /\
            m <> "Membuat visual untuk setiap klip..." /\
            m <> "Selesai!") as Hfix.
  { intros m Hm. apply list_elem_of_lookup in Hm as [i Hi]. unfold msgs in Hi.
    rewrite list_lookup_imap in Hi.
    destruct (take k (flatClips st) !! i) as [it|]; [|done].
    apply (inj Some) in Hi as <-. apply clipProgress_not_fixed. }
  assert (progressMessages
            (walk numberToString ai formData (totalClipsOf st) 0 (flatClips st)).1.1
          = msgs) as Hmsgs.
  { rewrite Hev, progressMessages_app, progressMessages_loopEvents.
    by rewrite (progressMessages_quiet tail Hq), app_nil_r. }
  destruct (walk numberToString ai formData (totalClipsOf st) 0 (flatClips st))
    as [[evs m] [e|]];
    cbn [fst snd] in *; cbn; rewrite ?progressMessages_app, Hmsgs; cbn.
  - apply NoDup_cons. split.
    { rewrite elem_of_cons. intros [Heq|Hin]; [done|]. by apply Hfix in Hin as (? & _). }
    apply NoDup_cons. split; [|done].
    intros Hin. by apply Hfix in Hin as (_ & ? & _).
  - apply NoDup_cons. split.
    { rewrite elem_of_cons, elem_of_app.
      intros [Heq|[Hin|Hin]]; [done| |revert Hin; distinct_literals].
      by apply Hfix in Hin as (? & _). }
    apply NoDup_cons. split.
    { rewrite elem_of_app. intros [Hin|Hin]; [|revert Hin; distinct_literals].
      by apply Hfix in Hin as (_ & ? & _). }
    apply NoDup_app. split_and!; [done| |apply NoDup_singleton].
    intros m' Hin Hin'. apply list_elem_of_singleton in Hin' as ->.
    by apply Hfix in Hin as (_ & _ & ?).
Qed.

Lemma progress_messages_are_distinct_witness :
  (forall sceneNo clipNo count total sceneNo' clipNo' count' total',
     clipProgress decimal sceneNo clipNo count total
     = clipProgress decimal sceneNo' clipNo' count' total' ->
     count = count' /\ total = total' /\ sceneNo = sceneNo' /\ clipNo = clipNo') /\
  NoDup (progressMessages
           (generateStoryboard decimal fakeParse
              (fakeRemote "<four scenes of three clips>" 0) fakeForm).1).
Proof.
  destruct (progress_messages_are_distinct decimal fakeParse
              (fakeRemote "<four scenes of three clips>" 0) fakeForm)
    as [Hread Hdistinct].
  split; [|exact Hdistinct].
  intros sceneNo clipNo count total sceneNo' clipNo' count' total' Heq.
  destruct (Hread _ _ _ _ _ _ _ _ Heq) as (Hcount & Htotal & Hnumbers).
  destruct (Hnumbers decimal_printing) as [Hscene Hclip].
  split_and!; [exact Hcount|exact Htotal|exact Hscene|exact Hclip].
Defined.

(** * Further properties of the decoding *)

Lemma charCodes_of_string s :
  map (charCodeAt s) (seq 0 (String.length s))
  = map byte_of_ascii (String.list_ascii_of_string s).
Proof.
  induction s as [|c s IH]; cbn [String.length seq map String.list_ascii_of_string];
    [done|].
  f_equal. rewrite <- IH, <- fmap_S_seq.
  change (map ?f (S <$> ?l)) with (f <$> (S <$> l)).
  by rewrite <- list_fmap_compose.
Qed.

(** X8.  [decode] returns the character codes of the binary string that
    [atob] gives, one byte for each character, in order; it throws what
    [atob] throws on a text that is not base64. *)
Theorem decode_gives_the_character_codes
    (atob : string -> option string) (base64 : string) :
  decode atob base64
  = match atob base64 with
    | None => inl InvalidCharacterError
    | Some binaryString =>
        inr (map byte_of_ascii (String.list_ascii_of_string binaryString))
    end.
Proof.
  unfold decode. destruct (atob base64) as [s|]; [|done].
  rewrite forIndex_fills by (by rewrite length_replicate).
  cbn [take app]. by rewrite charCodes_of_string.
Qed.

Lemma int16View_range buffer :
  Forall (fun s => (-32768 <= s < 32768)%Z) (int16View buffer).
Proof.
  induction buffer as [buffer IH] using (induction_ltof1 _ (@length byte)).
  destruct buffer as [|lo [|hi rest]]; cbn [int16View]; try constructor.
  - apply int16_signed.
  - apply IH. unfold ltof. cbn. lia.
Qed.

Lemma int16View_double buffer :
  Nat.even (length buffer) = true ->
  length buffer = 2 * length (int16View buffer).
Proof.
  induction buffer as [buffer IH] using (induction_ltof1 _ (@length byte)).
  destruct buffer as [|lo [|hi rest]]; cbn [int16View length]; try done.
  intros Heven. rewrite (IH rest); [lia|unfold ltof; cbn; lia|done].
Qed.

Lemma decodeAudioData_inv data ctx audioBuffer :
  decodeAudioData data ctx = inr audioBuffer ->
  let N := length (int16View data) in
  length data = 2 * N /\ 1 <= N /\
  audioBuffer = {| numberOfChannels := 1;
                   sampleRate := 24000;
                   channelData := map (sampleValue (int16View data)) (seq 0 N) |}.
Proof.
  intros Hdec N.
  assert (Nat.even (length data) = true) as Heven.
  { unfold decodeAudioData, Int16Array in Hdec.
    by destruct (Nat.even (length data)). }
  pose proof (int16View_double data Heven) as Hlen. fold N in Hlen.
  assert (1 <= N) as HN.
  { unfold decodeAudioData, Int16Array in Hdec. rewrite Heven in Hdec.
    fold N in Hdec. destruct N; [done|lia]. }
  rewrite (decodeAudioData_eq data ctx N Hlen HN) in Hdec.
  injection Hdec as <-. done.
Qed.

(** X9.  Whatever [decodeAudioData] returns is a mono buffer at 24000 Hz with
    one sample for every two bytes of the payload, at least one sample, and
    every sample lies in the interval from -1 (included) to 1 (excluded). *)
Theorem decoded_samples_are_normalised
    (data : list byte) (ctx : AudioContext) (audioBuffer : AudioBuffer) :
  decodeAudioData data ctx = inr audioBuffer ->
  numberOfChannels audioBuffer = 1 /\
  sampleRate audioBuffer = 24000%Z /\
  length data = 2 * length (channelData audioBuffer) /\
  1 <= length (channelData audioBuffer) /\
  Forall (fun v => (-1 <= v)%Q /\ (v < 1)%Q) (channelData audioBuffer).
Proof.
  intros Hdec. destruct (decodeAudioData_inv data ctx audioBuffer Hdec)
    as (Hlen & HN & ->). cbn [numberOfChannels sampleRate channelData].
  rewrite length_map, length_seq. split_and!; try done.
  apply Forall_forall. intros v Hv.
  apply list_elem_of_In, in_map_iff in Hv as (i & <- & Hi). apply in_seq in Hi.
  unfold sampleValue.
  assert (-32768 <= nth i (int16View data) 0 < 32768)%Z as Hs.
  { pose proof (int16View_range data) as Hall.
    rewrite Forall_forall in Hall. apply Hall, list_elem_of_In, nth_In. lia. }
  unfold Qle, Qlt, Qdiv, Qmult, Qinv, inject_Z. cbn. lia.
Qed.

Lemma decoded_samples_are_normalised_witness :
  Forall (fun v => (-1 <= v)%Q /\ (v < 1)%Q)
    [ (inject_Z 0 / inject_Z 32768)%Q;
      (inject_Z 32767 / inject_Z 32768)%Q;
      (inject_Z (-32768) / inject_Z 32768)%Q ].
Proof.
  apply (decoded_samples_are_normalised
           [ "000"; "000"; "255"; "127"; "000"; "128" ]%byte
           {| contextSampleRate := 24000 |}
           {| numberOfChannels := 1; sampleRate := 24000;
              channelData := [ (inject_Z 0 / inject_Z 32768)%Q;
                               (inject_Z 32767 / inject_Z 32768)%Q;
                               (inject_Z (-32768) / inject_Z 32768)%Q ] |}).
  reflexivity.
Defined.

Lemma byte_to_N_inj (x y : byte) : Byte.to_N x = Byte.to_N y -> x = y.
Proof.
  intros Heq. pose proof (Byte.of_to_N x) as Hx. pose proof (Byte.of_to_N y) as Hy.
  rewrite Heq in Hx. congruence.
Qed.

Lemma int16_inj lo hi lo' hi' :
  int16 lo hi = int16 lo' hi' -> lo = lo' /\ hi = hi'.
Proof.
  intros Heq.
  destruct (int16_signed lo hi) as [_ H1]. destruct (int16_signed lo' hi') as [_ H2].
  rewrite Heq, H2 in H1.
  pose proof (Byte.to_N_bounded lo). pose proof (Byte.to_N_bounded hi).
  pose proof (Byte.to_N_bounded lo'). pose proof (Byte.to_N_bounded hi').
  split; apply byte_to_N_inj; lia.
Qed.

Lemma int16View_inj d1 : forall d2,
  Nat.even (length d1) = true ->
  Nat.even (length d2) = true ->
  int16View d1 = int16View d2 ->
  d1 = d2.
Proof.
  induction d1 as [d1 IH] using (induction_ltof1 _ (@length byte)).
  intros d2 H1 H2 Heq.
  destruct d1 as [|lo [|hi r1]]; destruct d2 as [|lo' [|hi' r2]]; try done.
  cbn [int16View] in Heq. injection Heq as Hs Hrest.
  apply int16_inj in Hs as [-> ->]. do 2 f_equal.
  apply IH; [unfold ltof; cbn; lia|done..].
Qed.

Lemma sampleValue_inj v1 v2 i :
  sampleValue v1 i = sampleValue v2 i -> nth i v1 0%Z = nth i v2 0%Z.
Proof.
  unfold sampleValue, Qdiv, Qmult, Qinv, inject_Z. cbn.
  intros [= Heq]. lia.
Qed.

(** X10.  The decoding loses nothing: two payloads that [decodeAudioData]
    turns into the same buffer are the same payload. *)
Theorem decodeAudioData_is_lossless
    (data1 data2 : list byte) (ctx1 ctx2 : AudioContext) (audioBuffer : AudioBuffer) :
  decodeAudioData data1 ctx1 = inr audioBuffer ->
  decodeAudioData data2 ctx2 = inr audioBuffer ->
  data1 = data2.
Proof.
  intros H1 H2.
  assert (Nat.even (length data1) = true /\ Nat.even (length data2) = true)
    as [E1 E2].
  { unfold decodeAudioData, Int16Array in H1, H2.
    destruct (Nat.even (length data1)); [|done].
    by destruct (Nat.even (length data2)). }
  destruct (decodeAudioData_inv _ _ _ H1) as (_ & _ & Hb1).
  destruct (decodeAudioData_inv _ _ _ H2) as (_ & _ & Hb2).
  rewrite Hb1 in Hb2. injection Hb2 as Hmap.
  assert (length (int16View data1) = length (int16View data2)) as Hlen.
  { apply (f_equal length) in Hmap. by rewrite !length_map, !length_seq in Hmap. }
  rewrite Hlen in Hmap.
  apply int16View_inj; [done|done|].
  apply (nth_ext _ _ 0%Z 0%Z); [done|].
  intros i Hi. apply sampleValue_inj.
  assert (In i (seq 0 (length (int16View data2)))) as Hin by (apply in_seq; lia).
  exact (proj1 map_ext_in_iff Hmap i Hin).
Qed.

Lemma decodeAudioData_is_lossless_witness :
  [ "000"; "000"; "255"; "127" ]%byte = [ "000"; "000"; "255"; "127" ]%byte.
Proof.
  apply (decodeAudioData_is_lossless
           [ "000"; "000"; "255"; "127" ]%byte [ "000"; "000"; "255"; "127" ]%byte
           {| contextSampleRate := 24000 |} {| contextSampleRate := 48000 |}
           {| numberOfChannels := 1; sampleRate := 24000;
              channelData := [ (inject_Z 0 / inject_Z 32768)%Q;
                               (inject_Z 32767 / inject_Z 32768)%Q ] |});
    reflexivity.
Defined.

(** * Further properties of the player *)

Lemma decode_error atob base64 e :
  decode atob base64 = inl e -> e = InvalidCharacterError.
Proof. unfold decode. destruct (atob base64); [done|]. by intros [= <-]. Qed.

Lemma decodeAudioData_error data ctx e :
  decodeAudioData data ctx = inl e -> e = RangeError \/ e = NotSupportedError.
Proof.
  unfold decodeAudioData, Int16Array, createBuffer.
  destruct (Nat.even (length data)); [|intros [= <-]; by left].
  destruct (_ || _); [intros [= <-]; by right|done].
Qed.

(** What a call of [playAudio] does up to its [await], once [stopAudio] has
    gone through. *)
Lemma step_PlayAudio_eq atob base64 onEnded p :
  (stopAudio p).2 = inr tt ->
  let p1 := withContext (stopAudio p).1 in
  step atob (PlayAudio base64 onEnded) p =
  match decode atob base64 with
  | inl e => (observe (PromiseRejected e) p1).1
  | inr rawAudio =>
      match decodeAudioData rawAudio (contextOf (stopAudio p).1) with
      | inl e => (observe (PromiseRejected e) p1).1
      | inr audioBuffer =>
          (setSuspended
             (suspended p1 ++ [(contextOf (stopAudio p).1, audioBuffer, onEnded)]) p1).1
      end
  end.
Proof.
  intros Hok p1. cbn [step]. rewrite playAudio_begin_eq. unfold p1.
  destruct (stopAudio p) as [p0 [e|[]]]; [done|]. cbn [fst].
  destruct (decode atob base64) as [e|rawAudio]; [done|].
  by destruct (decodeAudioData rawAudio (contextOf p0)).
Qed.

(** ** A text that is not base64 *)

(** X11.  When [atob] refuses the text, [playAudio] is rejected with its
    [InvalidCharacterError], in any state the player can be in; by then the
    current source has been stopped and released and the audio context
    exists; no node is created and nothing is left waiting. *)
Theorem invalid_base64_is_rejected
    (atob : string -> option string) (actions : list Action)
    (base64 : string) (onEnded : nat) :
  atob base64 = None ->
  let p := run atob actions initialPlayer in
  let p1 := withContext (stopAudio p).1 in
  playAudio atob base64 onEnded p = (p1, inl InvalidCharacterError) /\
  currentSource p1 = None /\
  audioContext p1 <> None /\
  length (nodes p1) = length (nodes p) /\
  (forall s, currentSource p = Some s -> playing (node s p1) = false) /\
  suspended (step atob (PlayAudio base64 onEnded) p) = suspended p /\
  log (step atob (PlayAudio base64 onEnded) p)
  = log (stopAudio p).1 ++ [PromiseRejected InvalidCharacterError].
Proof.
  intros Hatob p p1.
  assert (wellFormed p) as Hwf by apply wellFormed_run, wellFormed_initial.
  destruct (wellFormed_stopAudio p Hwf) as (Hok & Hnone & _).
  assert (decode atob base64 = inl InvalidCharacterError) as Hdec
    by (unfold decode; by rewrite Hatob).
  split_and!.
  - rewrite playAudio_eq, playAudio_begin_eq, Hdec. unfold p1.
    by destruct (stopAudio p) as [p0 [e|[]]].
  - done.
  - done.
  - unfold p1. cbn [withContext nodes]. rewrite stopAudio_eq.
    destruct (currentSource p); [|done].
    destruct (started _); [|done]. cbn. by rewrite !length_alter.
  - intros s Hs. destruct Hwf as (Ha & _).
    pose proof (playing_started _ (Ha s Hs)) as Hst.
    unfold p1, node. cbn [withContext nodes]. rewrite stopAudio_eq, Hs, Hst.
    cbn [fst nodes]. apply started_in_range in Hst.
    rewrite !nodeOf_alter_eq by (rewrite ?length_alter; done).
    unfold playing. cbn. by rewrite andb_false_r.
  - rewrite step_PlayAudio_eq, Hdec by done.
    unfold observe, withContext. cbn [fst suspended]. rewrite stopAudio_eq.
    destruct (currentSource p); [|done]. by destruct (started _).
  - rewrite step_PlayAudio_eq, Hdec by done. done.
Qed.

Lemma invalid_base64_is_rejected_witness :
  let p := run atobStandard [PlayAudio "AAD/fw==" 1; Resume] initialPlayer in
  playAudio atobStandard "not*base64" 2 p
  = (withContext (stopAudio p).1, inl InvalidCharacterError) /\
  playing (node 0 (withContext (stopAudio p).1)) = false.
Proof.
  intros p.
  pose proof (invalid_base64_is_rejected atobStandard
                [PlayAudio "AAD/fw==" 1; Resume] "not*base64" 2 eq_refl)
    as (Hplay & _ & _ & _ & Hsilent & _).
  split; [exact Hplay|]. apply (Hsilent 0). vm_compute. reflexivity.
Defined.

(** ** No misuse of a node *)

Lemma stopAudio_log p :
  wellFormed p ->
  log (stopAudio p).1
  = log p ++ match currentSource p with
             | Some c => [NodeStopped c; NodeDisconnected c]
             | None => []
             end.
Proof.
  intros Hwf. destruct (wellFormed_stopAudio p Hwf) as (Hok & _).
  rewrite stopAudio_eq in *. destruct (currentSource p) as [c|].
  - by destruct (started (node c p)).
  - cbn. by rewrite app_nil_r.
Qed.

Lemma step_log atob a p :
  wellFormed p ->
  exists l, log (step atob a p) = log p ++ l /\
            forallb (fun o => negb (isFault o)) l = true.
Proof.
  intros Hwf. destruct (wellFormed_stopAudio p Hwf) as (Hok & _).
  destruct a as [base64 onEnded| | |s].
  - rewrite step_PlayAudio_eq by done.
    destruct (decode atob base64) as [e|rawAudio] eqn:Hdec.
    { apply decode_error in Hdec as ->. unfold observe, withContext. cbn [fst log].
      rewrite stopAudio_log by done. rewrite <- app_assoc. eexists. split; [done|].
      rewrite forallb_app. by destruct (currentSource p). }
    destruct (decodeAudioData rawAudio _) as [e|audioBuffer] eqn:Hdata.
    { unfold observe, withContext. cbn [fst log].
      rewrite stopAudio_log by done. rewrite <- app_assoc. eexists. split; [done|].
      rewrite forallb_app.
      apply decodeAudioData_error in Hdata as [-> | ->];
        by destruct (currentSource p). }
    unfold setSuspended, withContext. cbn [fst log].
    rewrite stopAudio_log by done. eexists. split; [done|].
    by destruct (currentSource p).
  - cbn [step]. destruct (suspended p) as [|[[ctx audioBuffer] onEnded] rest].
    { exists []. by rewrite app_nil_r. }
    unfold bind, setSuspended. cbn [fst snd]. rewrite playAudio_resume_eq.
    cbn [recordFailure log]. by eexists.
  - cbn [step]. destruct (stopAudio p) as [p' [e|[]]] eqn:Hstop; [done|].
    cbn [recordFailure]. replace p' with (stopAudio p).1 by (by rewrite Hstop).
    rewrite stopAudio_log by done. eexists. split; [done|].
    by destruct (currentSource p).
  - cbn [step]. destruct (canEnd s p) eqn:Hcan.
    + destruct (wellFormed_dispatchEnded s p Hwf Hcan) as (onEnded & _ & -> & _).
      cbn [recordFailure log]. by eexists.
    + exists []. by rewrite app_nil_r.
Qed.

(** X12.  The player never misuses a node.  Whatever is done to it, no call
    of [stopAudio] and no event handler ever throws, and no [playAudio] is
    ever rejected with an [InvalidStateError]: [stop()] is only called on a
    started source and [start()] only once.  A [playAudio] can only be
    rejected by the decoding. *)
Theorem no_node_is_misused (atob : string -> option string) (actions : list Action) :
  forallb (fun o => negb (isFault o)) (log (run atob actions initialPlayer)) = true.
Proof.
  assert (forall p, wellFormed p ->
            forallb (fun o => negb (isFault o)) (log p) = true ->
            forallb (fun o => negb (isFault o)) (log (run atob actions p)) = true)
    as H; [|by apply H; [apply wellFormed_initial|]].
  induction actions as [|a actions IH]; intros p Hwf Hlog; [done|].
  cbn [run fold_left]. apply IH; [by apply wellFormed_step|].
  destruct (step_log atob a p Hwf) as (l & -> & Hl).
  by rewrite forallb_app, Hlog, Hl.
Qed.

(** ** The nodes never go back *)

Lemma later_refl n : later n n.
Proof. by repeat split. Qed.

Lemma later_trans n1 n2 n3 : later n1 n2 -> later n2 n3 -> later n1 n3.
Proof. intros (?&?&?) (?&?&?). repeat split; auto. Qed.

Lemma later_alter f l s s' :
  (forall n, later n (f n)) ->
  later (nodeOf l s') (nodeOf (alter f s l) s').
Proof.
  intros Hf. destruct (decide (s = s')) as [<-|Hne].
  - destruct (Nat.lt_ge_cases s (length l)).
    + rewrite nodeOf_alter_eq by done. apply Hf.
    + rewrite !nodeOf_beyond by (rewrite ?length_alter; done). apply later_refl.
  - rewrite nodeOf_alter_ne by done. apply later_refl.
Qed.

Lemma stopAudio_later p s : later (node s p) (node s (stopAudio p).1).
Proof.
  rewrite stopAudio_eq. destruct (currentSource p) as [c|]; [|apply later_refl].
  destruct (started (node c p)); [|apply later_refl].
  unfold node. cbn [fst nodes].
  eapply later_trans; [apply (later_alter withStopped _ c)|apply (later_alter _ _ c)];
    intros n; repeat split; cbn; auto.
Qed.

Lemma step_later atob a p s : later (node s p) (node s (step atob a p)).
Proof.
  destruct a as [base64 onEnded| | |s0]; cbn [step].
  - rewrite playAudio_begin_eq. pose proof (stopAudio_later p s) as Hl.
    destruct (stopAudio p) as [p0 [e|[]]]; cbn [fst] in Hl; [done|].
    destruct (decode atob base64) as [e|rawAudio]; [done|].
    by destruct (decodeAudioData rawAudio (contextOf p0)).
  - destruct (suspended p) as [|[[ctx audioBuffer] onEnded] rest];
      [apply later_refl|].
    unfold bind, setSuspended. cbn [fst snd]. rewrite playAudio_resume_eq.
    cbn [recordFailure]. unfold node. cbn [nodes]. rewrite nodeOf_snoc.
    destruct (decide (s = length (nodes p))) as [->|]; [|apply later_refl].
    rewrite nodeOf_beyond by done. by repeat split.
  - pose proof (stopAudio_later p s) as Hl.
    by destruct (stopAudio p) as [p0 [e|[]]].
  - destruct (canEnd s0 p); [|apply later_refl].
    rewrite dispatchEnded_eq. cbn zeta.
    assert (later (nodeOf (nodes p) s) (nodeOf (alter withEnded s0 (nodes p)) s)) as Hl.
    { apply later_alter. intros n. repeat split; cbn; auto. }
    by destruct (onended _).
Qed.




(** ** One shared context *)

Lemma stopAudio_keeps p :
  audioContext (stopAudio p).1 = audioContext p /\
  suspended (stopAudio p).1 = suspended p.
Proof.
  rewrite stopAudio_eq. destruct (currentSource p) as [c|]; [|done].
  by destruct (started (node c p)).
Qed.

Lemma step_context atob a p :
  wellFormed p ->
  Forall (fun e => e.1.1 = contextOf p) (suspended p) ->
  audioContext (step atob a p)
  = (if isPlayAudio a then Some (contextOf p) else audioContext p) /\
  Forall (fun e => e.1.1 = contextOf p) (suspended (step atob a p)).
Proof.
  intros Hwf Hq. destruct (wellFormed_stopAudio p Hwf) as (Hok & _).
  destruct (stopAudio_keeps p) as [Hctx Hsus].
  assert (contextOf (stopAudio p).1 = contextOf p) as Hc
    by (unfold contextOf; by rewrite Hctx).
  destruct a as [base64 onEnded| | |s]; cbn [isPlayAudio].
  - rewrite step_PlayAudio_eq by done. rewrite Hc.
    destruct (decode atob base64) as [e|rawAudio].
    { unfold observe, withContext. cbn [fst audioContext suspended].
      by rewrite Hc, Hsus. }
    destruct (decodeAudioData rawAudio _) as [e|audioBuffer].
    { unfold observe, withContext. cbn [fst audioContext suspended].
      by rewrite Hc, Hsus. }
    unfold setSuspended, withContext. cbn [fst audioContext suspended].
    rewrite Hc, Hsus. split; [done|].
    apply Forall_app. split; [done|]. by repeat constructor.
  - cbn [step]. destruct (suspended p) as [|[[ctx audioBuffer] onEnded] rest] eqn:Hs.
    { rewrite Hs. by split. }
    unfold bind, setSuspended. cbn [fst snd]. rewrite playAudio_resume_eq.
    cbn [recordFailure audioContext suspended]. split; [done|]. by inversion Hq.
  - cbn [step]. destruct (stopAudio p) as [p' [e|[]]]; [done|].
    cbn in *. by rewrite Hctx, Hsus.
  - cbn [step]. destruct (canEnd s p) eqn:Hcan; [|done].
    destruct (wellFormed_dispatchEnded s p Hwf Hcan) as (onEnded & _ & -> & _).
    done.
Qed.

Lemma run_context atob actions : forall p,
  wellFormed p ->
  Forall (fun e => e.1.1 = contextOf p) (suspended p) ->
  audioContext (run atob actions p)
  = (if existsb isPlayAudio actions then Some (contextOf p) else audioContext p) /\
  Forall (fun e => e.1.1 = contextOf p) (suspended (run atob actions p)).
Proof.
  induction actions as [|a actions IH]; intros p Hwf Hq; [done|].
  cbn [run fold_left existsb].
  destruct (step_context atob a p Hwf Hq) as [Hctx Hq'].
  assert (contextOf (step atob a p) = contextOf p) as Hc.
  { unfold contextOf at 1. rewrite Hctx. by destruct (isPlayAudio a). }
  destruct (IH (step atob a p)) as [IH1 IH2];
    [by apply wellFormed_step|by rewrite Hc|].
  unfold run in *. rewrite Hc in IH1, IH2. rewrite IH1, Hctx. split; [|done].
  destruct (isPlayAudio a); cbn; [|done]. by destruct (existsb _ _).
Qed.

(** X14.  [getAudioContext] constructs a context only when the module
    variable holds none.  From any state that satisfies the invariant of the
    player, the context that the variable holds, whatever it is, is neither
    replaced nor cleared by any call or event, and it is the context that
    every call of [playAudio] waiting at its [await] holds.  From a state
    without a context, the
    variable holds one exactly from the first call of [playAudio] on, also
    when that call is rejected, and its sample rate is 24000. *)
Theorem one_shared_context
    (atob : string -> option string) (actions : list Action) (p : Player) :
  wellFormed p ->
  Forall (fun e => e.1.1 = contextOf p) (suspended p) ->
  let p' := run atob actions p in
  (forall ctx, audioContext p = Some ctx -> audioContext p' = Some ctx) /\
  (audioContext p = None ->
   audioContext p'
   = if existsb isPlayAudio actions then Some {| contextSampleRate := 24000 |}
     else None) /\
  Forall (fun e => e.1.1 = contextOf p) (suspended p').
Proof.
  intros Hwf Hq p'. destruct (run_context atob actions p Hwf Hq) as [Hctx Hq'].
  fold p' in Hctx, Hq'. split_and!; [| |done].
  - intros ctx Hp. rewrite Hctx. unfold contextOf. rewrite Hp.
    by destruct (existsb _ _).
  - intros Hp. rewrite Hctx. unfold contextOf. by rewrite Hp.
Qed.

Lemma one_shared_context_witness :
  let p' := run atobStandard
              [PlayAudio "AAD/fw==" 0; Resume; Ended 0; StopAudio; PlayAudio "AAD/fwCA" 1]
              (playerWith {| contextSampleRate := 48000 |}) in
  audioContext p' = Some {| contextSampleRate := 48000 |} /\
  Forall (fun e => e.1.1 = {| contextSampleRate := 48000 |}) (suspended p') /\
  length (suspended p') = 1.
Proof.
  destruct (one_shared_context atobStandard
              [PlayAudio "AAD/fw==" 0; Resume; Ended 0; StopAudio; PlayAudio "AAD/fwCA" 1]
              (playerWith {| contextSampleRate := 48000 |}))
    as (Hheld & _ & Hwaiting).
  - split_and!; intros s; by cbn.
  - constructor.
  - split_and!; [by apply Hheld|exact Hwaiting|vm_compute; reflexivity].
Defined.

(** ** A stop in the same turn *)

(** X15.  A [stopAudio] that is called after [playAudio] but before that call
    has resumed from its [await], as in [playAudio(a, f); stopAudio();], stops
    nothing of it: once the call resumes, its source is the current one and
    is heard. *)
Theorem stop_before_resumption_is_lost
    (atob : string -> option string) (actions : list Action)
    (base64 binaryString : string) (onEnded N : nat) :
  atob base64 = Some binaryString ->
  String.length binaryString = 2 * N ->
  1 <= N ->
  let p := run atob actions initialPlayer in
  suspended p = [] ->
  let p' := run atob [PlayAudio base64 onEnded; StopAudio; Resume] p in
  currentSource p' = Some (length (nodes p)) /\
  playing (node (length (nodes p)) p') = true /\
  onended (node (length (nodes p)) p') = Some onEnded.
Proof.
  intros Hatob Hlen HN p Hsus p'.
  assert (wellFormed p) as Hwf by apply wellFormed_run, wellFormed_initial.
  destruct (wellFormed_stopAudio p Hwf) as (Hok & Hnone & _).
  destruct (decode_length atob base64 binaryString Hatob) as (rawAudio & Hraw & Hl).
  destruct (stopAudio_keeps p) as [_ Hsus'].
  assert (length (nodes (stopAudio p).1) = length (nodes p)) as Hnodes.
  { rewrite stopAudio_eq. destruct (currentSource p) as [c|]; [|done].
    destruct (started (node c p)); [|done]. cbn. by rewrite !length_alter. }
  unfold p'. cbn [run fold_left].
  rewrite step_PlayAudio_eq, Hraw by done.
  rewrite (decodeAudioData_eq rawAudio _ N) by lia.
  unfold setSuspended, withContext. cbn [fst suspended]. rewrite Hsus', Hsus.
  cbn [app step]. rewrite stopAudio_eq. cbn [currentSource]. rewrite Hnone.
  cbn [recordFailure suspended]. unfold bind, setSuspended. cbn [fst snd].
  rewrite playAudio_resume_eq. cbn [recordFailure currentSource nodes].
  rewrite Hnodes. unfold node. cbn [nodes].
  rewrite !nodeOf_snoc, !decide_True by done. done.
Qed.

Lemma stop_before_resumption_is_lost_witness :
  let p := run atobStandard [PlayAudio "AAD/fw==" 1; Resume] initialPlayer in
  let p' := run atobStandard [PlayAudio "AAD/fwCA" 2; StopAudio; Resume] p in
  currentSource p' = Some 1 /\
  playing (node 1 p') = true /\
  onended (node 1 p') = Some 2.
Proof.
  intros p.
  apply (stop_before_resumption_is_lost atobStandard
           [PlayAudio "AAD/fw==" 1; Resume] "AAD/fwCA"
           (String "000" (String "000" (String "255"
              (String "127" (String "000" (String "128" EmptyString))))))
           2 3); [reflexivity|reflexivity|lia|vm_compute; reflexivity].
Defined.

(** ** One playback at a time, when the calls and the events keep apart *)

(** What the calm runs keep: beside [wellFormed], only the current source is
    heard, and a call waits at its [await] only while there is no current
    source, alone. *)
Lemma calm_step atob a p :
  wellFormed p -> exclusive p ->
  (suspended p = [] \/ currentSource p = None /\ exists e, suspended p = [e]) ->
  calm a p = true ->
  exclusive (step atob a p) /\
  (suspended (step atob a p) = [] \/
   currentSource (step atob a p) = None /\ exists e, suspended (step atob a p) = [e]).
Proof.
  intros Hwf Hex Hq Hcalm.
  destruct (wellFormed_stopAudio p Hwf) as (Hok & Hnone & _).
  destruct (stopAudio_keeps p) as [_ Hsus].
  assert (forall s, playing (node s (stopAudio p).1) = false) as Hsilent.
  { intros s. rewrite stopAudio_eq.
    destruct (currentSource p) as [c|] eqn:Hcs.
    - pose proof Hwf as (Ha & _).
      pose proof (playing_started _ (Ha c Hcs)) as Hst. rewrite Hst.
      unfold node. cbn [fst nodes]. apply started_in_range in Hst.
      destruct (decide (c = s)) as [<-|Hne].
      + rewrite !nodeOf_alter_eq by (rewrite ?length_alter; done).
        unfold playing. cbn. by rewrite andb_false_r.
      + rewrite !nodeOf_alter_ne by done.
        destruct (playing (nodeOf (nodes p) s)) eqn:Hp; [|done].
        specialize (Hex s Hp). congruence.
    - cbn [fst]. destruct (playing (node s p)) eqn:Hp; [|done].
      specialize (Hex s Hp). congruence. }
  destruct a as [base64 onEnded| | |s0]; cbn [calm] in Hcalm.
  - apply bool_decide_eq_true in Hcalm.
    rewrite step_PlayAudio_eq by done.
    assert (forall q, nodes q = nodes (stopAudio p).1 -> currentSource q = None ->
                      exclusive q) as Hquiet.
    { intros q Hn Hc s Hp. unfold node in Hp. rewrite Hn in Hp.
      specialize (Hsilent s). unfold node in Hsilent. congruence. }
    destruct (decode atob base64) as [e|rawAudio].
    { split; [by apply Hquiet|left]. unfold observe, withContext.
      cbn [fst suspended]. by rewrite Hsus. }
    destruct (decodeAudioData rawAudio _) as [e|audioBuffer].
    { split; [by apply Hquiet|left]. unfold observe, withContext.
      cbn [fst suspended]. by rewrite Hsus. }
    split; [by apply Hquiet|right]. unfold setSuspended, withContext.
    cbn [fst suspended currentSource]. rewrite Hsus, Hcalm. split; [done|].
    by eexists.
  - cbn [step]. destruct (suspended p) as [|[[ctx audioBuffer] onEnded] rest] eqn:Hs.
    { split; [done|left; done]. }
    destruct Hq as [Hq|(Hcur & e & Hq)]; [done|]. injection Hq as _ ->.
    unfold bind, setSuspended. cbn [fst snd]. rewrite playAudio_resume_eq.
    cbn [recordFailure]. split; [|by left].
    intros s. unfold node. cbn [nodes currentSource]. rewrite nodeOf_snoc.
    destruct (decide (s = length (nodes p))) as [->|Hne]; [done|].
    intros Hp. specialize (Hex s Hp). congruence.
  - cbn [step]. destruct (stopAudio p) as [p' [e|[]]] eqn:Hstop; [done|].
    cbn [recordFailure fst snd] in *. split.
    + intros s Hp. by rewrite Hsilent in Hp.
    + rewrite Hsus. destruct Hq as [Hq|(Hcur & Hq)]; [by left|by right].
  - apply bool_decide_eq_true in Hcalm. cbn [step].
    destruct (canEnd s0 p) eqn:Hcan; [|done].
    destruct (wellFormed_dispatchEnded s0 p Hwf Hcan) as (onEnded & _ & -> & _).
    cbn [recordFailure]. split.
    + intros s. unfold node. cbn [nodes currentSource]. intros Hp.
      assert (started (node s0 p) = true) as Hst.
      { unfold canEnd in Hcan. apply andb_prop in Hcan as [Hcan _].
        by apply andb_prop in Hcan as [Hst _]. }
      apply started_in_range in Hst.
      destruct (decide (s0 = s)) as [<-|Hne].
      * rewrite nodeOf_alter_eq in Hp by done. unfold playing in Hp. cbn in Hp.
        by rewrite andb_false_r in Hp.
      * rewrite nodeOf_alter_ne in Hp by done. specialize (Hex s Hp).
        destruct Hcalm as [Hc|Hc]; congruence.
    + left. cbn [suspended]. unfold canEnd in Hcan.
      apply andb_prop in Hcan as [_ Hcan]. by apply bool_decide_eq_true in Hcan.
Qed.

Lemma calmly_app atob l1 l2 p :
  calmly atob (l1 ++ l2) p = calmly atob l1 p && calmly atob l2 (run atob l1 p).
Proof.
  revert p; induction l1 as [|a l1 IH]; intros p; cbn; [done|].
  by rewrite IH, andb_assoc.
Qed.

Lemma exclusive_at_most_one p :
  exclusive p -> length (playingNodes p) <= 1.
Proof.
  intros Hex.
  assert (NoDup (playingNodes p)) as Hnd.
  { unfold playingNodes. apply NoDup_ListNoDup, List.NoDup_filter, seq_NoDup. }
  assert (forall s, s ∈ playingNodes p -> currentSource p = Some s) as Hall.
  { intros s Hs. apply list_elem_of_In, List.filter_In in Hs as [_ Hp]. by apply Hex. }
  destruct (playingNodes p) as [|a [|b l]]; cbn; [lia|lia|].
  pose proof (Hall a ltac:(left)) as Ha.
  pose proof (Hall b ltac:(right; left)) as Hb.
  assert (a = b) as -> by congruence.
  apply NoDup_cons in Hnd as [Hnd _]. exfalso. apply Hnd. left.
Qed.

(** X16.  As long as [playAudio] is not called while an earlier call waits at
    its [await], and the [ended] event of a source does not arrive while
    another source is the current one, at most one source is heard at any
    time, and it is the current one. *)
Theorem calm_runs_play_one_source
    (atob : string -> option string) (actions : list Action) :
  calmly atob actions initialPlayer = true ->
  forall k,
    let p := run atob (take k actions) initialPlayer in
    length (playingNodes p) <= 1 /\
    (forall s, playing (node s p) = true -> currentSource p = Some s).
Proof.
  intros Hcalm k p.
  assert (calmly atob (take k actions) initialPlayer = true) as Hk.
  { rewrite <- (take_drop k actions), calmly_app in Hcalm.
    by apply andb_prop in Hcalm as [? _]. }
  assert (forall l q,
            wellFormed q -> exclusive q ->
            (suspended q = [] \/
             currentSource q = None /\ exists e, suspended q = [e]) ->
            calmly atob l q = true ->
            exclusive (run atob l q)) as H.
  { induction l as [|a l IH]; intros q Hwf Hex Hq Hc; [done|].
    cbn [calmly] in Hc. apply andb_prop in Hc as [Ha Hl].
    destruct (calm_step atob a q Hwf Hex Hq Ha) as [Hex' Hq'].
    cbn [run fold_left]. apply IH; [by apply wellFormed_step|done..]. }
  assert (exclusive p) as Hex.
  { apply H; [apply wellFormed_initial| |by left|done]. by intros s. }
  split; [by apply exclusive_at_most_one|exact Hex].
Qed.

Lemma calm_runs_play_one_source_witness :
  let p := run atobStandard
             (take 6 [ PlayAudio "AAD/fw==" 1; Resume; StopAudio; Ended 0;
                       PlayAudio "AAD/fw==" 2; Resume; Ended 1 ])
             initialPlayer in
  length (playingNodes p) <= 1 /\
  (forall s, playing (node s p) = true -> currentSource p = Some s).
Proof.
  apply (calm_runs_play_one_source atobStandard
           [ PlayAudio "AAD/fw==" 1; Resume; StopAudio; Ended 0;
             PlayAudio "AAD/fw==" 2; Resume; Ended 1 ]).
  vm_compute. reflexivity.
Defined.

(** ** A source that is heard without being the current one *)

Lemma orphan_step atob a p s :
  wellFormed p ->
  playing (node s p) = true ->
  currentSource p <> Some s ->
  isEndedOf s a = false ->
  playing (node s (step atob a p)) = true /\
  currentSource (step atob a p) <> Some s.
Proof.
  intros Hwf Hp Hcs Ha.
  destruct (wellFormed_stopAudio p Hwf) as (Hok & Hnone & _).
  pose proof (started_in_range _ _ (playing_started _ Hp)) as Hrange.
  assert (node s (stopAudio p).1 = node s p) as Hsame.
  { rewrite stopAudio_eq. destruct (currentSource p) as [c|] eqn:Hc; [|done].
    destruct (started (node c p)); [|done]. unfold node. cbn [fst nodes].
    rewrite !nodeOf_alter_ne; [done|congruence..]. }
  destruct a as [base64 onEnded| | |s0]; cbn [isEndedOf] in Ha.
  - rewrite step_PlayAudio_eq by done.
    assert (forall q, nodes q = nodes (stopAudio p).1 -> currentSource q = None ->
                      playing (node s q) = true /\ currentSource q <> Some s) as Hq.
    { intros q Hn Hc. unfold node in *. rewrite Hn, Hsame, Hc. by split. }
    destruct (decode atob base64) as [e|rawAudio]; [by apply Hq|].
    destruct (decodeAudioData rawAudio _) as [e|audioBuffer]; by apply Hq.
  - cbn [step]. destruct (suspended p) as [|[[ctx audioBuffer] onEnded] rest];
      [done|].
    unfold bind, setSuspended. cbn [fst snd]. rewrite playAudio_resume_eq.
    cbn [recordFailure]. unfold node. cbn [nodes currentSource].
    rewrite nodeOf_snoc. destruct (decide (s = length (nodes p))) as [->|]; [lia|].
    split; [done|]. intros [= Heq]. lia.
  - cbn [step]. destruct (stopAudio p) as [p' [e|[]]] eqn:Hstop; [done|].
    cbn [recordFailure fst snd] in *. rewrite Hsame, Hnone. by split.
  - cbn [step]. destruct (canEnd s0 p) eqn:Hcan; [|done].
    destruct (wellFormed_dispatchEnded s0 p Hwf Hcan) as (onEnded & _ & -> & _).
    cbn [recordFailure]. unfold node. cbn [nodes currentSource].
    apply Nat.eqb_neq in Ha. rewrite nodeOf_alter_ne by done. by split.
Qed.

(** X17.  A source that is heard although it is not the current one cannot be
    silenced by the player: whatever calls of [playAudio] and [stopAudio] and
    whatever events of other sources follow, it stays heard, and it never
    becomes the current source again, until its own [ended] event. *)
Theorem an_orphaned_source_cannot_be_stopped
    (atob : string -> option string) (actions more : list Action) (s : nat) :
  let p := run atob actions initialPlayer in
  playing (node s p) = true ->
  currentSource p <> Some s ->
  forallb (fun a => negb (isEndedOf s a)) more = true ->
  playing (node s (run atob more p)) = true /\
  currentSource (run atob more p) <> Some s.
Proof.
  intros p Hp Hcs Hmore.
  assert (wellFormed p) as Hwf by apply wellFormed_run, wellFormed_initial.
  clearbody p. revert p Hp Hcs Hwf.
  induction more as [|a more IH]; intros p Hp Hcs Hwf; [done|].
  cbn [forallb] in Hmore. apply andb_prop in Hmore as [Ha Hmore].
  apply negb_true_iff in Ha.
  destruct (orphan_step atob a p s Hwf Hp Hcs Ha) as [Hp' Hcs'].
  cbn [run fold_left]. apply IH; [done..|by apply wellFormed_step].
Qed.

Lemma an_orphaned_source_cannot_be_stopped_witness :
  let p := run atobStandard
             [ PlayAudio "AAD/fw==" 1; Resume; PlayAudio "AAD/fw==" 2; Resume;
               Ended 0 ] initialPlayer in
  let p' := run atobStandard
              [ StopAudio; PlayAudio "AAD/fw==" 3; Resume; StopAudio; Ended 2 ] p in
  playing (node 1 p') = true /\ currentSource p' <> Some 1.
Proof.
  intros p.
  apply (an_orphaned_source_cannot_be_stopped atobStandard
           [ PlayAudio "AAD/fw==" 1; Resume; PlayAudio "AAD/fw==" 2; Resume;
             Ended 0 ]
           [ StopAudio; PlayAudio "AAD/fw==" 3; Resume; StopAudio; Ended 2 ] 1).
  - vm_compute. reflexivity.
  - vm_compute. discriminate.
  - reflexivity.
Defined.

(** * Properties of the callers in App.tsx *)

(** ** Reading an uploaded file *)

Lemma split_head c : forall head rest,
  occurs c head = false ->
  split c (head +:+ String c rest) = head :: split c rest.
Proof.
  induction head as [|a head IH]; intros rest Hhead.
  - change (split c (String c rest) = EmptyString :: split c rest).
    cbn [split]. by rewrite Ascii.eqb_refl.
  - cbn [occurs] in Hhead. apply orb_false_elim in Hhead as [Ha Hhead].
    change (split c (String a (head +:+ String c rest))
            = String a head :: split c rest).
    cbn [split]. rewrite Ha, (IH rest Hhead). done.
Qed.

Lemma split_nonempty c s : split c s <> [].
Proof.
  induction s as [|a s IH]; cbn [split]; [done|].
  destruct (Ascii.eqb a c); [done|]. by destruct (split c s).
Qed.

Lemma split_without c : forall s, occurs c s = false -> split c s = [s].
Proof.
  induction s as [|a s IH]; [done|]. cbn [occurs split].
  intros H. apply orb_false_elim in H as [Ha Hs]. by rewrite Ha, (IH Hs).
Qed.

(** X18.  [fileToBase64] passes the error of the reader on.  From a result
    that holds a comma it takes the text between the first comma and the
    second one, or the end: for the data URL of a file, whose mime type and
    base64 text hold no comma, that is the base64 text.  From a result without
    a comma it resolves with undefined. *)
Theorem fileToBase64_takes_the_text_after_the_comma :
  (forall error, fileToBase64 (Rejected error) = Rejected error) /\
  (forall head payload rest,
     occurs ","%char head = false ->
     occurs ","%char payload = false ->
     fileToBase64 (Resolved (head +:+ "," +:+ payload)) = Resolved (Some payload) /\
     fileToBase64 (Resolved (head +:+ "," +:+ payload +:+ "," +:+ rest))
     = Resolved (Some payload)) /\
  (forall mimeType base64,
     occurs ","%char mimeType = false ->
     occurs ","%char base64 = false ->
     fileToBase64 (Resolved (dataURL mimeType base64)) = Resolved (Some base64)) /\
  (forall result,
     occurs ","%char result = false ->
     fileToBase64 (Resolved result) = Resolved None).
Proof.
  assert (forall head payload,
            occurs ","%char head = false -> occurs ","%char payload = false ->
            fileToBase64 (Resolved (head +:+ "," +:+ payload)) = Resolved (Some payload))
    as Hone.
  { intros head payload Hh Hp. unfold fileToBase64.
    change ("," +:+ payload) with (String ","%char payload).
    by rewrite split_head, split_without. }
  split_and!; [done| |..].
  - intros head payload rest Hh Hp. split; [by apply Hone|].
    unfold fileToBase64.
    change ("," +:+ payload +:+ "," +:+ rest)
      with (String ","%char (payload +:+ String ","%char rest)).
    by rewrite !split_head.
  - intros mimeType base64 Hm Hb. unfold dataURL.
    change (";base64," +:+ base64) with (";base64" +:+ "," +:+ base64).
    replace ("data:" +:+ mimeType +:+ ";base64" +:+ "," +:+ base64)
      with (("data:" +:+ mimeType +:+ ";base64") +:+ "," +:+ base64)
      by (by rewrite !append_assoc).
    apply Hone; [|done]. by rewrite !occurs_app, Hm.
  - intros result Hr. unfold fileToBase64. by rewrite split_without.
Qed.

Lemma fileToBase64_takes_the_text_after_the_comma_witness :
  fileToBase64 (Resolved "data:image/png;base64,cG5n") = Resolved (Some "cG5n") /\
  fileToBase64 (Resolved "data:") = Resolved None.
Proof.
  split.
  - apply (proj1 (proj2 (proj2 fileToBase64_takes_the_text_after_the_comma))
             "image/png" "cG5n"); reflexivity.
  - apply (proj2 (proj2 (proj2 fileToBase64_takes_the_text_after_the_comma)));
      reflexivity.
Defined.

(** ** The names given to a clip *)

(** The identifier of line 206, cut at the [c] of [clip]. *)
Lemma clipId_parts numberToString sceneNumber clipNo :
  clipId numberToString sceneNumber clipNo
  = "scene-" +:+ ((numberToString sceneNumber +:+ "-")
                  +:+ String "c"%char ("lip-" +:+ numberToString clipNo)).
Proof. unfold clipId. rewrite append_assoc. reflexivity. Qed.

Lemma clipId_inj numberToString sceneNumber clipNo sceneNumber' clipNo' :
  NumberPrinting numberToString ->
  clipId numberToString sceneNumber clipNo
  = clipId numberToString sceneNumber' clipNo' ->
  sceneNumber = sceneNumber' /\ clipNo = clipNo'.
Proof.
  intros printing. rewrite !clipId_parts. intros Heq.
  apply append_cancel_l in Heq.
  apply (split_at_separator "c"%char) in Heq as [Hs Hc];
    [|by rewrite occurs_app, printed_without..].
  apply append_cancel_r, (printing_inj _ printing) in Hs.
  apply append_cancel_l, (printing_inj _ printing) in Hc. done.
Qed.

Lemma imageFilename_inj numberToString sceneNumber clipNo sceneNumber' clipNo' :
  NumberPrinting numberToString ->
  imageFilename numberToString sceneNumber clipNo
  = imageFilename numberToString sceneNumber' clipNo' ->
  sceneNumber = sceneNumber' /\ clipNo = clipNo'.
Proof.
  intros printing. unfold imageFilename. intros Heq.
  apply append_cancel_l in Heq.
  apply (split_at_separator "_"%char) in Heq as [Hs Hc];
    [|by apply printed_without..].
  apply (printing_inj _ printing) in Hs.
  apply (append_cancel_l "klip_"), append_cancel_r, (printing_inj _ printing) in Hc.
  done.
Qed.

Lemma audioFilename_inj numberToString sceneNumber clipNo sceneNumber' clipNo' :
  NumberPrinting numberToString ->
  audioFilename numberToString sceneNumber clipNo
  = audioFilename numberToString sceneNumber' clipNo' ->
  sceneNumber = sceneNumber' /\ clipNo = clipNo'.
Proof.
  intros printing. unfold audioFilename. intros Heq.
  apply append_cancel_l in Heq.
  apply (split_at_separator "_"%char) in Heq as [Hs Hc];
    [|by apply printed_without..].
  apply (printing_inj _ printing) in Hs.
  apply append_cancel_r, (printing_inj _ printing) in Hc. done.
Qed.

(** X19.  The identifier of a clip on the page, and the file names under
    which its image and its narration are downloaded, tell the clips apart by
    their scene number and clip number.  The text of a number holds neither
    an underscore nor the letter c, and different numbers have different
    texts; so two clips get the same identifier, or the same file name,
    exactly when they agree on both numbers. *)
Theorem clip_names_tell_clips_apart
    (numberToString : Z -> string)
    (sceneNumber clipNo sceneNumber' clipNo' : Z) :
  NumberPrinting numberToString ->
  (clipId numberToString sceneNumber clipNo
   = clipId numberToString sceneNumber' clipNo' <->
   sceneNumber = sceneNumber' /\ clipNo = clipNo') /\
  (imageFilename numberToString sceneNumber clipNo
   = imageFilename numberToString sceneNumber' clipNo' <->
   sceneNumber = sceneNumber' /\ clipNo = clipNo') /\
  (audioFilename numberToString sceneNumber clipNo
   = audioFilename numberToString sceneNumber' clipNo' <->
   sceneNumber = sceneNumber' /\ clipNo = clipNo').
Proof.
  intros printing. split_and!; (split; [|by intros [-> ->]]).
  - by apply clipId_inj.
  - by apply imageFilename_inj.
  - by apply audioFilename_inj.
Qed.

Lemma clip_names_tell_clips_apart_witness :
  (clipId decimal 1 12 = clipId decimal 11 2 <-> 1%Z = 11%Z /\ 12%Z = 2%Z) /\
  (imageFilename decimal 1 12 = imageFilename decimal 11 2 <->
   1%Z = 11%Z /\ 12%Z = 2%Z) /\
  (audioFilename decimal 1 12 = audioFilename decimal 11 2 <->
   1%Z = 11%Z /\ 12%Z = 2%Z).
Proof.
  exact (clip_names_tell_clips_apart decimal 1 12 11 2 decimal_printing).
Defined.

(** ** The play button of a clip *)

Lemma callbacks_app l1 l2 : callbacks (l1 ++ l2) = callbacks l1 + callbacks l2.
Proof. unfold callbacks. by rewrite List.filter_app, length_app. Qed.

Lemma run_app atob l1 l2 p : run atob (l1 ++ l2) p = run atob l2 (run atob l1 p).
Proof. unfold run. by rewrite fold_left_app. Qed.

(** What the [ended] event of a node does in a state the player can be in. *)
Lemma step_Ended_eq atob s p :
  wellFormed p ->
  canEnd s p = true ->
  exists onEnded,
    onended (node s p) = Some onEnded /\
    step atob (Ended s) p =
    {| audioContext := audioContext p;
       currentSource := None;
       nodes := alter withEnded s (nodes p);
       suspended := suspended p;
       log := log p ++ [Invoked s onEnded] |}.
Proof.
  intros Hwf Hcan. cbn [step]. rewrite Hcan.
  destruct (wellFormed_dispatchEnded s p Hwf Hcan) as (onEnded & Hon & -> & _).
  by exists onEnded.
Qed.

(** X20.  Pausing: a click on the button of the clip that is shown as playing
    only calls [stopAudio].  The source is silenced at once, but the page
    goes on showing the clip as playing; it is the [ended] event of the
    stopped source, through the callback, that resets the button. *)
Theorem pause_is_shown_when_the_ended_event_arrives
    (atob : string -> option string) (actions : list Action)
    (id audio : string) (s : nat) :
  let p := run atob actions initialPlayer in
  currentSource p = Some s ->
  suspended p = [] ->
  let d := {| player := p; playingClipId := Some id |} in
  let d1 := clickClip atob id audio d in
  playing (node s (player d1)) = false /\
  currentSource (player d1) = None /\
  playingClipId d1 = Some id /\
  playingClipId (endedEvent atob s d1) = None /\
  playing (node s (player (endedEvent atob s d1))) = false.
Proof.
  intros p Hcs Hsus d d1.
  assert (wellFormed p) as Hwf by apply wellFormed_run, wellFormed_initial.
  pose proof Hwf as (Ha & _). pose proof (Ha s Hcs) as Hp.
  pose proof (playing_started _ Hp) as Hst.
  pose proof (started_in_range _ _ Hst) as Hrange.
  assert (d1 = {| player := (stopAudio p).1; playingClipId := Some id |}) as Hd1.
  { unfold d1, clickClip, d. cbn [playingClipId player].
    rewrite bool_decide_eq_true_2 by done. cbn [step].
    destruct (wellFormed_stopAudio p Hwf) as (Hok & _).
    by destruct (stopAudio p) as [p' [e|[]]]. }
  assert (wellFormed (stopAudio p).1) as Hwf1 by apply wellFormed_stopAudio, Hwf.
  assert (node s (stopAudio p).1
          = withConnected false (withStopped (node s p))) as Hnode.
  { rewrite stopAudio_eq, Hcs, Hst. unfold node. cbn [fst nodes].
    by rewrite !nodeOf_alter_eq by (rewrite ?length_alter; done). }
  assert (canEnd s (stopAudio p).1 = true) as Hcan.
  { unfold canEnd. rewrite Hnode. cbn [started ended withConnected withStopped].
    rewrite Hst. unfold playing in Hp. rewrite Hst in Hp.
    destruct (ended (node s p)); [by rewrite andb_false_r in Hp|].
    destruct (stopAudio_keeps p) as [_ ->]. rewrite Hsus. done. }
  rewrite Hd1. cbn [player playingClipId]. split_and!.
  - rewrite Hnode. unfold playing. cbn. by rewrite andb_false_r.
  - by apply wellFormed_stopAudio.
  - done.
  - unfold endedEvent. cbn [player playingClipId].
    destruct (step_Ended_eq atob s _ Hwf1 Hcan) as (onEnded & _ & ->).
    cbn [log]. rewrite callbacks_app.
    change (callbacks [Invoked s onEnded]) with 1.
    by rewrite (proj2 (Nat.ltb_lt _ _)) by lia.
  - unfold endedEvent. cbn [player].
    destruct (step_later atob (Ended s) (stopAudio p).1 s) as (_ & Hstopped & _).
    unfold playing. rewrite Hstopped; [by rewrite andb_false_r|].
    by rewrite Hnode.
Qed.

Lemma pause_is_shown_when_the_ended_event_arrives_witness :
  let p := run atobStandard [PlayAudio "AAD/fw==" 0; Resume] initialPlayer in
  let d1 := clickClip atobStandard "scene-1-clip-1" "AAD/fw=="
              {| player := p; playingClipId := Some "scene-1-clip-1" |} in
  playing (node 0 (player d1)) = false /\
  currentSource (player d1) = None /\
  playingClipId d1 = Some "scene-1-clip-1" /\
  playingClipId (endedEvent atobStandard 0 d1) = None /\
  playing (node 0 (player (endedEvent atobStandard 0 d1))) = false.
Proof.
  apply (pause_is_shown_when_the_ended_event_arrives atobStandard
           [PlayAudio "AAD/fw==" 0; Resume] "scene-1-clip-1" "AAD/fw==" 0);
    vm_compute; reflexivity.
Defined.

(** A call of [playAudio] that is awaited, on audio that can be decoded. *)
Lemma awaited_playAudio atob base64 binaryString onEnded N p :
  wellFormed p ->
  suspended p = [] ->
  atob base64 = Some binaryString ->
  String.length binaryString = 2 * N ->
  1 <= N ->
  let p' := run atob [PlayAudio base64 onEnded; Resume] p in
  currentSource p' = Some (length (nodes p)) /\
  playing (node (length (nodes p)) p') = true /\
  length (nodes p') = S (length (nodes p)) /\
  suspended p' = [] /\
  (forall s, s < length (nodes p) -> node s p' = node s (stopAudio p).1) /\
  callbacks (log p') = callbacks (log p).
Proof.
  intros Hwf Hsus Hatob Hlen HN p'.
  destruct (wellFormed_stopAudio p Hwf) as (Hok & Hnone & _).
  destruct (decode_length atob base64 binaryString Hatob) as (rawAudio & Hraw & Hl).
  destruct (stopAudio_keeps p) as [_ Hsus'].
  assert (length (nodes (stopAudio p).1) = length (nodes p)) as Hnodes.
  { rewrite stopAudio_eq. destruct (currentSource p) as [c|]; [|done].
    destruct (started (node c p)); [|done]. cbn. by rewrite !length_alter. }
  unfold p'. cbn [run fold_left].
  rewrite step_PlayAudio_eq, Hraw by done.
  rewrite (decodeAudioData_eq rawAudio _ N) by lia.
  unfold setSuspended, withContext. cbn [fst suspended]. rewrite Hsus', Hsus.
  cbn [app step suspended]. unfold bind, setSuspended. cbn [fst snd].
  rewrite playAudio_resume_eq.
  cbn [recordFailure currentSource nodes suspended log].
  rewrite Hnodes. unfold node. cbn [nodes]. split_and!.
  - done.
  - by rewrite nodeOf_snoc, decide_True.
  - rewrite length_app, Hnodes. cbn. lia.
  - done.
  - intros s Hs. rewrite nodeOf_snoc. by rewrite decide_False by lia.
  - rewrite callbacks_app, stopAudio_log by done. rewrite callbacks_app.
    destruct (currentSource p); cbn; lia.
Qed.

(** X21.  Switching clips: while one clip plays, a click on the button of
    another clip stops the first source and starts a second one, and the page
    shows the second clip as playing.  Then the [ended] event of the first
    source arrives: its callback resets the button although the second source
    is still heard, and its handler forgets the current source.  A further
    click on the second clip therefore does not pause it: it starts the clip
    once more, on top of the copy that plays. *)
Theorem switching_clips_loses_the_pause_button
    (atob : string -> option string) (actions : list Action)
    (id id' audio binaryString : string) (s N : nat) :
  atob audio = Some binaryString ->
  String.length binaryString = 2 * N ->
  1 <= N ->
  let p := run atob actions initialPlayer in
  currentSource p = Some s ->
  suspended p = [] ->
  id' <> id ->
  let fresh := length (nodes p) in
  let d1 := resumed atob (clickClip atob id' audio
                            {| player := p; playingClipId := Some id |}) in
  let d2 := endedEvent atob s d1 in
  let d3 := resumed atob (clickClip atob id' audio d2) in
  (playingClipId d1 = Some id' /\
   currentSource (player d1) = Some fresh /\
   playing (node fresh (player d1)) = true /\
   playing (node s (player d1)) = false) /\
  (playingClipId d2 = None /\
   currentSource (player d2) = None /\
   playing (node fresh (player d2)) = true) /\
  (playingClipId d3 = Some id' /\
   playing (node fresh (player d3)) = true /\
   playing (node (S fresh) (player d3)) = true).
Proof.
  intros Hatob Hlen HN p Hcs Hsus Hid fresh d1 d2 d3.
  assert (wellFormed p) as Hwf by apply wellFormed_run, wellFormed_initial.
  pose proof Hwf as (Ha & _). pose proof (Ha s Hcs) as Hp.
  pose proof (playing_started _ Hp) as Hst.
  pose proof (started_in_range _ _ Hst) as Hrange.
  set (p1 := run atob [PlayAudio audio resetPlaying; Resume] p).
  assert (d1 = {| player := p1; playingClipId := Some id' |}) as Hd1.
  { unfold d1, resumed, clickClip. cbn [playingClipId player].
    rewrite bool_decide_eq_false_2 by congruence. done. }
  destruct (awaited_playAudio atob audio binaryString resetPlaying N p
              Hwf Hsus Hatob Hlen HN) as (Hc1 & Hp1 & Hn1 & Hs1 & Hold1 & Hcb1).
  fold p1 in Hc1, Hp1, Hn1, Hs1, Hold1, Hcb1. fold fresh in Hc1, Hp1, Hn1, Hold1.
  assert (wellFormed p1) as Hwf1 by (by apply wellFormed_run).
  assert (node s p1 = withConnected false (withStopped (node s p))) as Hnode.
  { rewrite (Hold1 s Hrange), stopAudio_eq, Hcs, Hst. unfold node. cbn [fst nodes].
    by rewrite !nodeOf_alter_eq by (rewrite ?length_alter; done). }
  assert (canEnd s p1 = true) as Hcan.
  { unfold canEnd. rewrite Hnode, Hs1. cbn [started ended withConnected withStopped].
    rewrite Hst. unfold playing in Hp. rewrite Hst in Hp.
    destruct (ended (node s p)); [by rewrite andb_false_r in Hp|done]. }
  set (p2 := step atob (Ended s) p1).
  destruct (step_Ended_eq atob s p1 Hwf1 Hcan) as (onEnded & _ & Hp2).
  fold p2 in Hp2.
  assert (d2 = {| player := p2; playingClipId := None |}) as Hd2.
  { unfold d2, endedEvent. rewrite Hd1. cbn [player playingClipId]. fold p2.
    rewrite Hp2. cbn [log]. rewrite callbacks_app.
    change (callbacks [Invoked s onEnded]) with 1.
    by rewrite (proj2 (Nat.ltb_lt _ _)) by lia. }
  assert (wellFormed p2) as Hwf2 by (by apply wellFormed_step).
  assert (playing (node fresh p2) = true) as Hfresh2.
  { rewrite Hp2. unfold node. cbn [nodes]. rewrite nodeOf_alter_ne by (unfold fresh; lia).
    exact Hp1. }
  assert (currentSource p2 = None) as Hc2 by (by rewrite Hp2).
  assert (suspended p2 = []) as Hs2 by (by rewrite Hp2).
  assert (length (nodes p2) = S fresh) as Hn2
    by (rewrite Hp2; cbn [nodes]; by rewrite length_alter).
  set (p3 := run atob [PlayAudio audio resetPlaying; Resume] p2).
  assert (d3 = {| player := p3; playingClipId := Some id' |}) as Hd3.
  { unfold d3, resumed, clickClip. rewrite Hd2. cbn [playingClipId player].
    rewrite bool_decide_eq_false_2 by done. done. }
  destruct (awaited_playAudio atob audio binaryString resetPlaying N p2
              Hwf2 Hs2 Hatob Hlen HN) as (Hc3 & Hp3 & _).
  fold p3 in Hc3, Hp3. rewrite Hn2 in Hc3, Hp3.
  rewrite Hd1, Hd2, Hd3. cbn [player playingClipId]. split_and!; try done.
  - rewrite Hnode. unfold playing. cbn. by rewrite andb_false_r.
  - unfold p3. cbn [run fold_left].
    destruct (orphan_step atob (PlayAudio audio resetPlaying) p2 fresh)
      as [Hq Hcq]; [done|done|congruence|done|].
    apply (orphan_step atob Resume); [by apply wellFormed_step|done..].
Qed.

Lemma switching_clips_loses_the_pause_button_witness :
  let p := run atobStandard [PlayAudio "AAD/fw==" 0; Resume] initialPlayer in
  let d1 := resumed atobStandard
              (clickClip atobStandard "scene-1-clip-2" "AAD/fwCA"
                 {| player := p; playingClipId := Some "scene-1-clip-1" |}) in
  let d2 := endedEvent atobStandard 0 d1 in
  let d3 := resumed atobStandard (clickClip atobStandard "scene-1-clip-2" "AAD/fwCA" d2) in
  (playingClipId d1 = Some "scene-1-clip-2" /\
   currentSource (player d1) = Some 1 /\
   playing (node 1 (player d1)) = true /\
   playing (node 0 (player d1)) = false) /\
  (playingClipId d2 = None /\
   currentSource (player d2) = None /\
   playing (node 1 (player d2)) = true) /\
  (playingClipId d3 = Some "scene-1-clip-2" /\
   playing (node 1 (player d3)) = true /\
   playing (node 2 (player d3)) = true).
Proof.
  apply (switching_clips_loses_the_pause_button atobStandard
           [PlayAudio "AAD/fw==" 0; Resume]
           "scene-1-clip-1" "scene-1-clip-2" "AAD/fwCA"
           (String "000" (String "000" (String "255"
              (String "127" (String "000" (String "128" EmptyString))))))
           0 3).
  - reflexivity.
  - reflexivity.
  - lia.
  - vm_compute. reflexivity.
  - vm_compute. reflexivity.
  - discriminate.
Defined.
